(** * gfxstream Vulkan code generation: the cereal orchestrator and the
      registry overlay of genvk

    A shallow embedding of
    - [codegen/vulkan/vulkan-docs/scripts/genvk.py], the part of the main
      program that merges a gfxstream registry file into the Khronos one;
    - [codegen/vulkan/vulkan-docs/scripts/cerealgenerator.py], the
      [CerealGenerator] class that owns the output modules and the wrappers
      and fans every registry callback out to them;
    - [registry/vulkan/scripts/cereal/gfxstreamstructuretype.py], one of
      the wrappers.

    Python objects that are mutated in place (the ElementTree of the
    registry, the generator and its modules) are modelled by explicit state
    passing.  Everything the generator calls on its collaborators is also
    written to a trace, so that the order of the calls can be stated. *)

From stdpp Require Import gmap strings list fin_maps.

(** ** Exceptions *)

Inductive Exn := TypeError | AttributeError | KeyError | AssertionError.

Inductive result (A : Type) :=
| Ok (a : A)
| Raise (e : Exn).
Arguments Ok {A} a.
Arguments Raise {A} e.

#[export] Instance result_ret : MRet result := fun A a => Ok a.
#[export] Instance result_bind : MBind result := fun A B k r =>
  match r with
  | Ok a => k a
  | Raise e => Raise e
  end.

Definition raises {A} (r : result A) : Prop :=
  match r with
  | Ok _ => False
  | Raise _ => True
  end.

(** ** Characters that a string literal cannot hold *)

Definition nl : string := String (Ascii.ascii_of_nat 10) EmptyString.
Definition dq : string := String (Ascii.ascii_of_nat 34) EmptyString.
Definition bs : string := String (Ascii.ascii_of_nat 92) EmptyString.

(** ** xml.etree.ElementTree *)

Module XmlTree.

(** An [Element]: tag, attribute dictionary, text, tail and the list of
    sub-elements. *)
Inductive Element :=
| Elem (tag : string) (attrib : gmap string string)
       (text tail : option string) (children : list Element).

Definition tag (e : Element) : string :=
  match e with Elem t _ _ _ _ => t end.
Definition attrib (e : Element) : gmap string string :=
  match e with Elem _ a _ _ _ => a end.
Definition text (e : Element) : option string :=
  match e with Elem _ _ x _ _ => x end.
Definition tail (e : Element) : option string :=
  match e with Elem _ _ _ x _ => x end.
Definition children (e : Element) : list Element :=
  match e with Elem _ _ _ _ c => c end.

(** [e.get(key)] *)
Definition get (e : Element) (key : string) : option string :=
  attrib e !! key.

(** [e.set(key, value)] *)
Definition set (e : Element) (key value : string) : Element :=
  Elem (tag e) (<[key := value]> (attrib e)) (text e) (tail e) (children e).

(** [e.append(child)] *)
Definition append (e : Element) (child : Element) : Element :=
  Elem (tag e) (attrib e) (text e) (tail e) (children e ++ [child]).

(** [e.clear()]: drops the sub-elements and the attributes and sets
    text and tail to [None]; the tag stays. *)
Definition clear (e : Element) : Element :=
  Elem (tag e) ∅ None None [].

(** Index of the first sub-element with the given tag. *)
Fixpoint find_index (t : string) (l : list Element) : option nat :=
  match l with
  | [] => None
  | c :: l' =>
      if decide (tag c = t) then Some 0 else S <$> find_index t l'
  end.

(** [e.find(t)] for a plain tag [t]: the first matching sub-element. *)
Definition find (e : Element) (t : string) : option Element :=
  i ← find_index t (children e); children e !! i.

(** [e.findall(t)] for a plain tag [t]. *)
Definition findall (e : Element) (t : string) : list Element :=
  filter (fun c => tag c = t) (children e).

End XmlTree.

(** ** genvk.py: merging the gfxstream registry *)

Module Genvk.
Import XmlTree.

(** What [getEntryName] returns: the [name] attribute, a string, or else
    the [<name>] element under [<proto>], which is returned as the
    element itself. *)
Inductive EntryName :=
| NameStr (s : string)
| NameElem (e : Element).

(** [getEntryName(entry)].  [entry.find("proto").find("name")] raises
    AttributeError when there is no [<proto>]; the handler turns it into
    [None].  When [<proto>] has no [<name>] the inner [find] returns
    [None] as well. *)
Definition getEntryName (entry : Element) : option EntryName :=
  match get entry "name" with
  | Some name => Some (NameStr name)
  | None =>
      match find entry "proto" with
      | Some proto => NameElem <$> find proto "name"
      | None => None
      end
  end.

(** [originalEntryDict], as far as a lookup can see it.  A string key is
    compared by value.  An Element key is compared by identity, and the
    two trees are parsed from two files, so an Element of the gfxstream
    tree is never a key of the dictionary: only the string keys are kept.
    The dictionary holds references to the entries of [treeEntries]; a
    reference is the position of the entry in that list. *)
Fixpoint buildEntryDict (i : nat) (entries : list Element)
                        (d : gmap string nat) : gmap string nat :=
  match entries with
  | [] => d
  | entry :: rest =>
      match getEntryName entry with
      | Some (NameStr name) => buildEntryDict (S i) rest (<[name := i]> d)
      | _ => buildEntryDict (S i) rest d
      end
  end.

Definition originalEntryDict (treeEntries : list Element) : gmap string nat :=
  buildEntryDict 0 treeEntries ∅.

(** [originalEntryDict[name]] guarded by [name not in ....keys()] *)
Definition dictLookup (d : gmap string nat) (name : option EntryName) : option nat :=
  match name with
  | Some (NameStr s) => d !! s
  | _ => None
  end.

(** [for key, value in entry.attrib.items(): originalEntry.set(key, value)] *)
Definition copyAttributes (entry originalEntry : Element) : Element :=
  Elem (tag originalEntry) (attrib entry ∪ attrib originalEntry)
       (text originalEntry) (tail originalEntry) (children originalEntry).

(** [for child in require: originalEntry.find("require").append(child)].
    With no child nothing is looked up; otherwise the first [<require>]
    of the original entry receives every child, and its absence is an
    AttributeError. *)
Definition appendToRequire (newChildren : list Element)
                           (originalEntry : Element) : result Element :=
  match newChildren with
  | [] => Ok originalEntry
  | _ =>
      match find_index "require" (children originalEntry) with
      | None => Raise AttributeError
      | Some j =>
          match children originalEntry !! j with
          | None => Raise AttributeError
          | Some req =>
              Ok (Elem (tag originalEntry) (attrib originalEntry)
                       (text originalEntry) (tail originalEntry)
                       (<[j := Elem (tag req) (attrib req) (text req) (tail req)
                                    (children req ++ newChildren)]>
                          (children originalEntry)))
          end
      end
  end.

(** The "extensions" branch. *)
Definition extendEntry (entry originalEntry : Element) : result Element :=
  let originalEntry := copyAttributes entry originalEntry in
  match find entry "require" with
  | None => Ok originalEntry
  | Some require => appendToRequire (children require) originalEntry
  end.

(** The "types" branch: [clear()], then the attribute dictionary and the
    children of the gfxstream entry. *)
Definition overwriteEntry (entry originalEntry : Element) : Element :=
  let cleared := clear originalEntry in
  Elem (tag cleared) (attrib entry) (text cleared) (tail cleared)
       (children cleared ++ children entry).

(** The body of the loop over the entries of the gfxstream section. *)
Definition mergeEntry (entriesName : string) (d : gmap string nat)
                      (treeEntries : list Element) (entry : Element)
  : result (list Element) :=
  match dictLookup d (getEntryName entry) with
  | None => Ok (treeEntries ++ [entry])
  | Some i =>
      match treeEntries !! i with
      | None => Raise KeyError
      | Some originalEntry =>
          if decide (entriesName = "extensions") then
            e ← extendEntry entry originalEntry;
            Ok (<[i := e]> treeEntries)
          else if decide (entriesName = "types") then
            Ok (<[i := overwriteEntry entry originalEntry]> treeEntries)
          else Ok treeEntries
      end
  end.

Fixpoint mergeEntries (entriesName : string) (d : gmap string nat)
                      (treeEntries : list Element) (gfx : list Element)
  : result (list Element) :=
  match gfx with
  | [] => Ok treeEntries
  | entry :: rest =>
      treeEntries' ← mergeEntry entriesName d treeEntries entry;
      mergeEntries entriesName d treeEntries' rest
  end.

(** One round of [for entriesName in ['types', 'commands', 'extensions']].
    Iterating over a section that [find] did not return is a TypeError. *)
Definition mergeSection (entriesName : string)
                        (treeRoot treeGfxstreamRoot : Element) : result Element :=
  match find_index entriesName (children treeRoot) with
  | None => Raise TypeError
  | Some k =>
      match children treeRoot !! k with
      | None => Raise TypeError
      | Some treeEntries =>
          let d := originalEntryDict (children treeEntries) in
          match find treeGfxstreamRoot entriesName with
          | None => Raise TypeError
          | Some gfxEntries =>
              merged ← mergeEntries entriesName d (children treeEntries)
                                    (children gfxEntries);
              Ok (Elem (tag treeRoot) (attrib treeRoot) (text treeRoot) (tail treeRoot)
                       (<[k := Elem (tag treeEntries) (attrib treeEntries)
                                    (text treeEntries) (tail treeEntries) merged]>
                          (children treeRoot)))
          end
      end
  end.

(** [if args.registryGfxstream is not None: ...] *)
Definition mergeRegistry (treeRoot : Element)
                         (treeGfxstreamRoot : option Element) : result Element :=
  match treeGfxstreamRoot with
  | None => Ok treeRoot
  | Some gfx =>
      r1 ← mergeSection "types" treeRoot gfx;
      r2 ← mergeSection "commands" r1 gfx;
      mergeSection "extensions" r2 gfx
  end.

End Genvk.

(** ** cerealgenerator.py: data *)

Module Cereal.
Import XmlTree.

(** The wrapper classes of the [cereal] package that the generator
    instantiates.  [type(wrapper)] is one of them. *)
Inductive WrapperType :=
| VulkanEncoder | VulkanExtensionStructs | VulkanMarshaling
| VulkanReservedMarshaling | VulkanDeepcopy | VulkanCounting
| VulkanTransform | VulkanFuncTable | VulkanHandleMap | VulkanDispatch
| VulkanDecoder | VulkanDecoderSnapshot | VulkanSubDecoder | ApiLogDecoder
| VulkanGfxstreamStructureType | VulkanAndroidNativeBufferStructureType.

#[export] Instance WrapperType_eq_dec : EqDecision WrapperType.
Proof. solve_decision. Defined.

Definition SUPPORTED_FEATURES : list string := [
  "VK_VERSION_1_0"; "VK_VERSION_1_1"; "VK_VERSION_1_2"; "VK_VERSION_1_3";
  "VK_KHR_get_physical_device_properties2";
  "VK_KHR_sampler_ycbcr_conversion";
  "VK_KHR_external_semaphore_capabilities";
  "VK_KHR_external_memory_capabilities";
  "VK_KHR_external_fence_capabilities";
  "VK_KHR_storage_buffer_storage_class";
  "VK_KHR_vulkan_memory_model";
  "VK_KHR_buffer_device_address";
  "VK_KHR_maintenance1"; "VK_KHR_maintenance2"; "VK_KHR_maintenance3";
  "VK_KHR_bind_memory2";
  "VK_KHR_dedicated_allocation";
  "VK_KHR_get_memory_requirements2";
  "VK_KHR_sampler_ycbcr_conversion";
  "VK_KHR_shader_float16_int8";
  "VK_AMD_gpu_shader_half_float";
  "VK_NV_shader_subgroup_partitioned";
  "VK_KHR_shader_subgroup_extended_types";
  "VK_EXT_provoking_vertex";
  "VK_EXT_line_rasterization";
  "VK_EXT_transform_feedback";
  "VK_EXT_primitive_topology_list_restart";
  "VK_EXT_index_type_uint8";
  "VK_EXT_load_store_op_none";
  "VK_EXT_swapchain_colorspace";
  "VK_EXT_custom_border_color";
  "VK_EXT_shader_stencil_export";
  "VK_KHR_image_format_list";
  "VK_KHR_incremental_present";
  "VK_KHR_pipeline_executable_properties";
  "VK_EXT_queue_family_foreign";
  "VK_KHR_external_semaphore";
  "VK_KHR_external_semaphore_fd";
  "VK_KHR_external_memory";
  "VK_KHR_external_fence";
  "VK_KHR_external_fence_fd";
  "VK_EXT_device_memory_report";
  "VK_KHR_create_renderpass2";
  "VK_KHR_imageless_framebuffer";
  "VK_KHR_descriptor_update_template";
  "VK_EXT_swapchain_maintenance1";
  "VK_EXT_image_compression_control";
  "VK_EXT_image_compression_control_swapchain";
  "VK_KHR_copy_commands2";
  "VK_KHR_dynamic_rendering";
  "VK_KHR_format_feature_flags2";
  "VK_KHR_maintenance4";
  "VK_KHR_shader_integer_dot_product";
  "VK_KHR_shader_non_semantic_info";
  "VK_KHR_shader_terminate_invocation";
  "VK_KHR_synchronization2";
  "VK_KHR_zero_initialize_workgroup_memory";
  "VK_EXT_4444_formats";
  "VK_EXT_extended_dynamic_state";
  "VK_EXT_extended_dynamic_state2";
  "VK_EXT_image_robustness";
  "VK_EXT_inline_uniform_block";
  "VK_EXT_pipeline_creation_cache_control";
  "VK_EXT_pipeline_creation_feedback";
  "VK_EXT_private_data";
  "VK_EXT_shader_demote_to_helper_invocation";
  "VK_EXT_subgroup_size_control";
  "VK_EXT_texel_buffer_alignment";
  "VK_EXT_texture_compression_astc_hdr";
  "VK_EXT_tooling_info";
  "VK_EXT_ycbcr_2plane_444_formats";
  "VK_EXT_debug_utils";
  "VK_KHR_surface";
  "VK_KHR_swapchain";
  "VK_KHR_xcb_surface";
  "VK_KHR_win32_surface";
  "VK_EXT_metal_surface";
  "VK_MVK_moltenvk";
  "VK_KHR_external_semaphore_win32";
  "VK_KHR_external_memory_win32";
  "VK_KHR_external_memory_fd";
  "VK_ANDROID_native_buffer";
  "VK_ANDROID_external_memory_android_hardware_buffer";
  "VK_KHR_android_surface";
  "VK_GOOGLE_gfxstream";
  "VK_EXT_graphics_pipeline_library"
].

(** The dictionary literal has no repeated key. *)
Definition SUPPORTED_WRAPPERS : gmap string (list WrapperType) :=
  list_to_map [
    ("VK_EXT_debug_utils", [VulkanDispatch]);
    ("VK_KHR_surface", [VulkanDispatch]);
    ("VK_KHR_xcb_surface", [VulkanDispatch]);
    ("VK_KHR_win32_surface", [VulkanDispatch]);
    ("VK_EXT_metal_surface", [VulkanDispatch]);
    ("VK_MVK_moltenvk", [VulkanDispatch]);
    ("VK_KHR_external_semaphore_win32", [VulkanDispatch]);
    ("VK_KHR_external_memory_win32", [VulkanDispatch]);
    ("VK_KHR_external_memory_fd", [VulkanDispatch]);
    ("VK_ANDROID_external_memory_android_hardware_buffer", [VulkanFuncTable]);
    ("VK_KHR_android_surface", [VulkanFuncTable])
  ].

(** The two classes of output module that [__init__] registers.  The
    classes are declared in the cereal package; [cereal.PyScript] is a
    single-file module that is not a [cereal.Module], which is what the
    [isinstance] tests of [beginFeature] and [endFeature] tell apart. *)
Inductive ModuleClass := CppModule | PyScript.

#[export] Instance ModuleClass_eq_dec : EqDecision ModuleClass.
Proof. solve_decision. Defined.

Record Module := mkModule {
  mclass : ModuleClass;
  directory : string;
  basename : string;
  customAbsDir : option string;
  suppress : bool;
  implOnly : bool;
  headerOnly : bool;
  suppressFeatureGuards : bool;
  headerPreamble : string;
  implPreamble : string;
  headerPostamble : string;
  implPostamble : string;
  (** the two text accumulators *)
  header : string;
  impl : string;
  (** the artifacts that [end()] has written, if any *)
  headerFile : option string;
  implFile : option string
}.

Definition isinstance_Module (m : Module) : bool :=
  bool_decide (mclass m = CppModule).

Definition set_suppress (b : bool) (m : Module) : Module :=
  mkModule (mclass m) (directory m) (basename m) (customAbsDir m) b
           (implOnly m) (headerOnly m) (suppressFeatureGuards m)
           (headerPreamble m) (implPreamble m) (headerPostamble m)
           (implPostamble m) (header m) (impl m) (headerFile m) (implFile m).

Definition set_header (h : string) (m : Module) : Module :=
  mkModule (mclass m) (directory m) (basename m) (customAbsDir m) (suppress m)
           (implOnly m) (headerOnly m) (suppressFeatureGuards m)
           (headerPreamble m) (implPreamble m) (headerPostamble m)
           (implPostamble m) h (impl m) (headerFile m) (implFile m).

Definition set_impl (s : string) (m : Module) : Module :=
  mkModule (mclass m) (directory m) (basename m) (customAbsDir m) (suppress m)
           (implOnly m) (headerOnly m) (suppressFeatureGuards m)
           (headerPreamble m) (implPreamble m) (headerPostamble m)
           (implPostamble m) (header m) s (headerFile m) (implFile m).

Definition set_files (hf sf : option string) (m : Module) : Module :=
  mkModule (mclass m) (directory m) (basename m) (customAbsDir m) (suppress m)
           (implOnly m) (headerOnly m) (suppressFeatureGuards m)
           (headerPreamble m) (implPreamble m) (headerPostamble m)
           (implPostamble m) (header m) (impl m) hf sf.

(** Modelled from the spec: the methods of [cereal.Module], which is
    declared outside the files at hand.  Appending is silently ignored by
    a suppressed module. *)
Definition Module_appendHeader (toAppend : string) (m : Module) : Module :=
  if suppress m then m else set_header (header m +:+ toAppend) m.

Definition Module_appendImpl (toAppend : string) (m : Module) : Module :=
  if suppress m then m else set_impl (impl m +:+ toAppend) m.

(** Modelled from the spec: [begin] of [cereal.Module] opens the output
    target; nothing of the model changes. *)
Definition Module_begin (globalDir : string) (m : Module) : Module := m.

(** Modelled from the spec: [end] of [cereal.Module], the finalisation.
    A suppressed module writes nothing.  Otherwise the header artifact is
    preamble, buffer and postamble, elided for an impl-only module, and
    the implementation artifact likewise, elided for a header-only one. *)
Definition Module_end (m : Module) : Module :=
  if suppress m then m
  else set_files
         (if implOnly m then None
          else Some (headerPreamble m +:+ header m +:+ headerPostamble m))
         (if headerOnly m then None
          else Some (implPreamble m +:+ impl m +:+ implPostamble m))
         m.

(** The bytes a module has written. *)
Definition written (m : Module) : list string :=
  match headerFile m with Some s => [s] | None => [] end ++
  match implFile m with Some s => [s] | None => [] end.

(** A wrapper: its class, the module it was given (by the name the
    module has in [self.modules]) and the keyword arguments. *)
Record Wrapper := mkWrapper {
  wtype : WrapperType;
  wmodule : string;
  kwargs : list (string * string)
}.

(** The callbacks of the type registry and of the wrappers. *)
Inductive Callback :=
| onBegin
| onEnd
| onBeginFeature (featureName featureType : option string)
| onFeatureNewCmd (name : option string)
| onEndFeature
| onGenType (typeinfo : Element) (name : string) (alias : option string)
| onGenStruct (typeinfo : Element) (typeName : string) (alias : option string)
| onGenGroup (groupinfo : Element) (groupName : string) (alias : option string)
| onGenEnum (enuminfo : Element) (name : string) (alias : option string)
| onGenCmd (cmdinfo : Element) (name : string) (alias : option string).

(** What the generator itself calls on a module. *)
Inductive ModuleOp :=
| m_begin (globalDir : string)
| m_end
| m_appendHeader (toAppend : string)
| m_appendImpl (toAppend : string).

(** The calls the generator makes, in the order it makes them: on
    [self.typeInfo], on the wrapper at a position of [self.wrappers], on
    the module registered under a name. *)
Inductive Call :=
| TypeInfoCall (cb : Callback)
| WrapperCall (i : nat) (cb : Callback)
| ModuleCall (moduleName : string) (op : ModuleOp).

(** What a wrapper does in a callback: it appends to the buffers of its
    own module. *)
Inductive Append :=
| toHeader (text : string)
| toImpl (text : string).

Definition applyAppend (m : Module) (a : Append) : Module :=
  match a with
  | toHeader s => Module_appendHeader s m
  | toImpl s => Module_appendImpl s m
  end.

Definition applyOp (op : ModuleOp) (m : Module) : Module :=
  match op with
  | m_begin d => Module_begin d m
  | m_end => Module_end m
  | m_appendHeader s => Module_appendHeader s m
  | m_appendImpl s => Module_appendImpl s m
  end.

(** Everything outside the generator: the process environment and the
    file system, the text constants of the script, and the cereal
    package. *)
Record World := mkWorld {
  environ : gmap string string;
  path_exists : string -> bool;
  getcwd : string;
  (** [banner_command(sys.argv)] *)
  banner : string;
  copyrightHeader : string;
  (** [autogeneratedHeaderTemplate % (a, b)] *)
  autogeneratedHeaderTemplate : string -> string -> string;
  (** [autogeneratedMkTemplate % a] *)
  autogeneratedMkTemplate : string -> string;
  namespaceBegin : string;
  namespaceEnd : string;
  (** the include blocks that [__init__] builds, by the name of the
      local variable that holds them *)
  includes : string -> string;
  getMakefileSrcEntry : Module -> string;
  getCMakeSrcEntry : Module -> string;
  (** Modelled from the spec: a wrapper of the cereal package.  Its only
      visible effect is to append to the buffers of its module; what it
      appends is determined by the wrapper and by the calls made so
      far. *)
  wrapperEmit : Wrapper -> list Call -> Callback -> list Append
}.

Record Settings := mkSettings {
  guestBaseLibDirPrefix : string;
  baseLibDirPrefix : string;
  baseLibLinkName : string;
  vulkanHeaderTargetName : string;
  utilsHeader : string;
  utilsHeaderDirPrefix : string;
  guest_abs_encoder_destination : string;
  host_abs_decoder_destination : string;
  host_script_destination : option string
}.

(** The generator object, with the two globals of the script
    ([suppressEnabled], [suppressExceptModule]), the main output file,
    the standard output and the trace of calls. *)
Record Generator := mkGenerator {
  modules : gmap string Module;
  moduleList : list string;
  wrappers : list Wrapper;
  featureName : option string;
  featureType : option string;
  featureSupported : bool;
  supportedWrappers : option (list WrapperType);
  settings : Settings;
  guestAndroidMkCppFiles : string;
  hostCMakeCppFiles : string;
  hostDecoderCMakeCppFiles : string;
  suppressEnabled : bool;
  suppressExceptModule : option string;
  outFile : string;
  stdout : list string;
  trace : list Call
}.

(** Assignments to the attributes of the generator. *)

Definition set_modules (x : gmap string Module) (g : Generator) : Generator :=
  mkGenerator x (moduleList g) (wrappers g) (featureName g) (featureType g)
    (featureSupported g) (supportedWrappers g) (settings g)
    (guestAndroidMkCppFiles g) (hostCMakeCppFiles g)
    (hostDecoderCMakeCppFiles g) (suppressEnabled g) (suppressExceptModule
    g) (outFile g) (stdout g) (trace g).

Definition set_moduleList (x : list string) (g : Generator) : Generator :=
  mkGenerator (modules g) x (wrappers g) (featureName g) (featureType g)
    (featureSupported g) (supportedWrappers g) (settings g)
    (guestAndroidMkCppFiles g) (hostCMakeCppFiles g)
    (hostDecoderCMakeCppFiles g) (suppressEnabled g) (suppressExceptModule
    g) (outFile g) (stdout g) (trace g).

Definition set_wrappers (x : list Wrapper) (g : Generator) : Generator :=
  mkGenerator (modules g) (moduleList g) x (featureName g) (featureType g)
    (featureSupported g) (supportedWrappers g) (settings g)
    (guestAndroidMkCppFiles g) (hostCMakeCppFiles g)
    (hostDecoderCMakeCppFiles g) (suppressEnabled g) (suppressExceptModule
    g) (outFile g) (stdout g) (trace g).

Definition set_featureName (x : option string) (g : Generator) : Generator :=
  mkGenerator (modules g) (moduleList g) (wrappers g) x (featureType g)
    (featureSupported g) (supportedWrappers g) (settings g)
    (guestAndroidMkCppFiles g) (hostCMakeCppFiles g)
    (hostDecoderCMakeCppFiles g) (suppressEnabled g) (suppressExceptModule
    g) (outFile g) (stdout g) (trace g).

Definition set_featureType (x : option string) (g : Generator) : Generator :=
  mkGenerator (modules g) (moduleList g) (wrappers g) (featureName g) x
    (featureSupported g) (supportedWrappers g) (settings g)
    (guestAndroidMkCppFiles g) (hostCMakeCppFiles g)
    (hostDecoderCMakeCppFiles g) (suppressEnabled g) (suppressExceptModule
    g) (outFile g) (stdout g) (trace g).

Definition set_featureSupported (x : bool) (g : Generator) : Generator :=
  mkGenerator (modules g) (moduleList g) (wrappers g) (featureName g)
    (featureType g) x (supportedWrappers g) (settings g)
    (guestAndroidMkCppFiles g) (hostCMakeCppFiles g)
    (hostDecoderCMakeCppFiles g) (suppressEnabled g) (suppressExceptModule
    g) (outFile g) (stdout g) (trace g).

Definition set_supportedWrappers (x : option (list WrapperType)) (g : Generator) : Generator :=
  mkGenerator (modules g) (moduleList g) (wrappers g) (featureName g)
    (featureType g) (featureSupported g) x (settings g)
    (guestAndroidMkCppFiles g) (hostCMakeCppFiles g)
    (hostDecoderCMakeCppFiles g) (suppressEnabled g) (suppressExceptModule
    g) (outFile g) (stdout g) (trace g).

Definition set_guestAndroidMkCppFiles (x : string) (g : Generator) : Generator :=
  mkGenerator (modules g) (moduleList g) (wrappers g) (featureName g)
    (featureType g) (featureSupported g) (supportedWrappers g) (settings g)
    x (hostCMakeCppFiles g) (hostDecoderCMakeCppFiles g) (suppressEnabled g)
    (suppressExceptModule g) (outFile g) (stdout g) (trace g).

Definition set_hostCMakeCppFiles (x : string) (g : Generator) : Generator :=
  mkGenerator (modules g) (moduleList g) (wrappers g) (featureName g)
    (featureType g) (featureSupported g) (supportedWrappers g) (settings g)
    (guestAndroidMkCppFiles g) x (hostDecoderCMakeCppFiles g)
    (suppressEnabled g) (suppressExceptModule g) (outFile g) (stdout g)
    (trace g).

Definition set_hostDecoderCMakeCppFiles (x : string) (g : Generator) : Generator :=
  mkGenerator (modules g) (moduleList g) (wrappers g) (featureName g)
    (featureType g) (featureSupported g) (supportedWrappers g) (settings g)
    (guestAndroidMkCppFiles g) (hostCMakeCppFiles g) x (suppressEnabled g)
    (suppressExceptModule g) (outFile g) (stdout g) (trace g).

Definition set_outFile (x : string) (g : Generator) : Generator :=
  mkGenerator (modules g) (moduleList g) (wrappers g) (featureName g)
    (featureType g) (featureSupported g) (supportedWrappers g) (settings g)
    (guestAndroidMkCppFiles g) (hostCMakeCppFiles g)
    (hostDecoderCMakeCppFiles g) (suppressEnabled g) (suppressExceptModule
    g) x (stdout g) (trace g).

Definition set_stdout (x : list string) (g : Generator) : Generator :=
  mkGenerator (modules g) (moduleList g) (wrappers g) (featureName g)
    (featureType g) (featureSupported g) (supportedWrappers g) (settings g)
    (guestAndroidMkCppFiles g) (hostCMakeCppFiles g)
    (hostDecoderCMakeCppFiles g) (suppressEnabled g) (suppressExceptModule
    g) (outFile g) x (trace g).

Definition set_trace (x : list Call) (g : Generator) : Generator :=
  mkGenerator (modules g) (moduleList g) (wrappers g) (featureName g)
    (featureType g) (featureSupported g) (supportedWrappers g) (settings g)
    (guestAndroidMkCppFiles g) (hostCMakeCppFiles g)
    (hostDecoderCMakeCppFiles g) (suppressEnabled g) (suppressExceptModule
    g) (outFile g) (stdout g) x.

(** ** cerealgenerator.py: the generator *)

Section Generator.
Context (W : World).

(** [print(line)] *)
Definition print (line : string) (g : Generator) : Generator :=
  set_stdout (stdout g ++ [line]) g.

Definition log (c : Call) (g : Generator) : Generator :=
  set_trace (trace g ++ [c]) g.

(** A call on [self.typeInfo]; the registry is a collaborator, and what it
    has been told is read off the trace. *)
Definition callTypeInfo (cb : Callback) (g : Generator) : Generator :=
  log (TypeInfoCall cb) g.

(** A call of the generator on [self.modules[moduleName]]. *)
Definition callModule (moduleName : string) (op : ModuleOp) (g : Generator) : Generator :=
  log (ModuleCall moduleName op)
      (set_modules (alter (applyOp op) moduleName (modules g)) g).

(** A callback on the wrapper at position [i] of [self.wrappers].  The
    wrapper appends to the module it holds, which is the module object it
    was given in [addWrapper].  The model finds that object under the name
    it was registered with; this is the same object as long as the name is
    not registered a second time, which [__init__] never does. *)
Definition callWrapper (cb : Callback) (i : nat) (w : Wrapper) (g : Generator) : Generator :=
  let appends := wrapperEmit W w (trace g) cb in
  log (WrapperCall i cb)
      (set_modules
         (alter (fun m => foldl applyAppend m appends) (wmodule w) (modules g)) g).

(** [envGetOrDefault(key, default)] with a string default: the value and
    what is printed. *)
Definition envGetOrDefault (key : string) (default : string) : string * list string :=
  match environ W !! key with
  | Some v => (v, [])
  | None => (default, ["envGetOrDefault: notfound: " +:+ key])
  end.

(** [envGetOrDefault(key)], whose default is [None]. *)
Definition envGetOrNone (key : string) : option string * list string :=
  match environ W !! key with
  | Some v => (Some v, [])
  | None => (None, ["envGetOrDefault: notfound: " +:+ key])
  end.

(** [init_suppress_option()]: the two globals and what is printed. *)
Definition init_suppress_option : bool * option string * list string :=
  match environ W !! "ANDROID_EMU_VK_CEREAL_SUPPRESS" with
  | Some option =>
      if decide (option = "") then (false, None, [])
      else (true, Some option, ["suppressEnabled: " +:+ option])
  | None => (false, None, [])
  end.

(** [os.path.join(a, *p)] of posixpath: a component that starts with a
    slash replaces what is before it; any other is added after a slash,
    which is left out when what is before is empty or ends in one. *)
Definition slash : Ascii.ascii := Ascii.ascii_of_nat 47.

Definition startsWithSlash (s : string) : bool :=
  match s with
  | String c _ => bool_decide (c = slash)
  | EmptyString => false
  end.

Fixpoint endsWithSlash (s : string) : bool :=
  match s with
  | EmptyString => false
  | String c EmptyString => bool_decide (c = slash)
  | String _ rest => endsWithSlash rest
  end.

Definition os_path_join (a : string) (p : list string) : string :=
  foldl (fun path b =>
           if startsWithSlash b then b
           else if bool_decide (path = "") || endsWithSlash path then path +:+ b
           else path +:+ "/" +:+ b)
        a p.

(** The pieces of a string between slashes. *)
Fixpoint splitSlash (current : string) (s : string) : list string :=
  match s with
  | EmptyString => [current]
  | String c rest =>
      if bool_decide (c = slash) then current :: splitSlash "" rest
      else splitSlash (current +:+ String c EmptyString) rest
  end.

(** [str(Path(s))] of pathlib on a POSIX system: the root, which is two
    slashes for a path that starts with exactly two and one slash for any
    other that starts with one, and the pieces that are neither empty nor a
    dot, with a slash between them; a path with no root and no piece is a
    dot. *)
Definition pathRoot (s : string) : string :=
  match s with
  | String a rest =>
      if bool_decide (a = slash) then
        match rest with
        | String b rest' =>
            if bool_decide (b = slash) && negb (startsWithSlash rest') then "//" else "/"
        | EmptyString => "/"
        end
      else ""
  | EmptyString => ""
  end.

Definition Path_str (s : string) : string :=
  let pieces := filter (fun c => c ≠ "" ∧ c ≠ ".") (splitSlash "" s) in
  if bool_decide (pathRoot s = "") && bool_decide (pieces = []) then "."
  else pathRoot s +:+ String.concat "/" pieces.

(** [str(Path(a) / b)] *)
Definition Path_div (a b : string) : string :=
  Path_str (os_path_join a [b]).

Definition guest_encoder_tag : string := "guest_encoder".
Definition host_tag : string := "host".

(** [createVkExtensionStructureTypePreamble(extensionName)]; the backslash
    at the end of the first line of the template continues the line. *)
Definition createVkExtensionStructureTypePreamble (extensionName : string) : string :=
  nl +:+ "#define " +:+ extensionName +:+ "_ENUM(type,id) " +:+
  "    ((type)(1000000000 + (1000 * (" +:+ extensionName +:+
  "_NUMBER - 1)) + (id)))" +:+ nl.

(** [self.host_cmake_generator(cppFiles)] *)
Definition host_cmake_generator (g : Generator) (cppFiles : string) : string :=
  autogeneratedMkTemplate W (banner W) +:+ nl +:+
  "add_library(OpenglRender_vulkan_cereal " +:+ cppFiles +:+ ")" +:+ nl +:+
  "target_compile_definitions(OpenglRender_vulkan_cereal PRIVATE -DVK_GOOGLE_gfxstream)" +:+ nl +:+
  "if (WIN32)" +:+ nl +:+
  "    target_compile_definitions(OpenglRender_vulkan_cereal PRIVATE -DVK_USE_PLATFORM_WIN32_KHR)" +:+ nl +:+
  "endif()" +:+ nl +:+
  "target_link_libraries(" +:+ nl +:+
  "    OpenglRender_vulkan_cereal" +:+ nl +:+
  "    PUBLIC" +:+ nl +:+
  "    " +:+ baseLibLinkName (settings g) +:+ nl +:+
  "    " +:+ vulkanHeaderTargetName (settings g) +:+ nl +:+
  "    PRIVATE" +:+ nl +:+
  "    " +:+ utilsHeader (settings g) +:+ ")" +:+ nl +:+
  nl +:+
  "target_include_directories(OpenglRender_vulkan_cereal" +:+ nl +:+
  "                           PUBLIC" +:+ nl +:+
  "                           ." +:+ nl +:+
  "                           PRIVATE" +:+ nl +:+
  "                           .." +:+ nl +:+
  "                           ../.." +:+ nl +:+
  "                           ../../../include)" +:+ nl.

(** [addModule(module, moduleName=None)] *)
Definition addModule (module : Module) (moduleName : option string)
                     (g : Generator) : Generator :=
  let moduleName := default (basename module) moduleName in
  set_modules (<[moduleName := module]> (modules g))
              (set_moduleList (moduleList g ++ [moduleName]) g).

(** [addCppModule(...)]: the [cereal.Module] with the preambles and
    postambles that the method assigns after it has registered the
    object. *)
Definition addCppModule
    (directory basename extraHeader extraImpl : string)
    (customAbsDir : option string)
    (useNamespace implOnly suppress headerOnly suppressFeatureGuards : bool)
    (moduleName : option string) (suppressVulkanHeaders : bool)
    (g : Generator) : Generator :=
  let headerPreamble :=
    copyrightHeader W +:+
    autogeneratedHeaderTemplate W basename ("(header) generated by " +:+ banner W) +:+
    "#pragma once" +:+ nl +:+
    (if suppressVulkanHeaders then ""
     else "#include <vulkan/vulkan.h>" +:+ nl +:+
          "#include " +:+ dq +:+ "vulkan_gfxstream.h" +:+ dq +:+ nl) +:+
    extraHeader +:+ nl +:+
    (if useNamespace then namespaceBegin W else "") in
  let implPreamble :=
    copyrightHeader W +:+
    autogeneratedHeaderTemplate W basename ("(impl) generated by " +:+ banner W) +:+
    (if implOnly then ""
     else nl +:+ "#include " +:+ dq +:+ basename +:+ ".h" +:+ dq) +:+
    extraImpl +:+
    (if useNamespace then namespaceBegin W else "") in
  let postamble := if useNamespace then namespaceEnd W else "" in
  addModule
    (mkModule CppModule directory basename customAbsDir suppress implOnly
              headerOnly suppressFeatureGuards
              headerPreamble implPreamble postamble postamble "" "" None None)
    moduleName g.

(** [addGuestEncoderModule(...)] *)
Definition addGuestEncoderModule
    (basename extraHeader extraImpl : string)
    (useNamespace headerOnly suppressFeatureGuards : bool)
    (moduleName : option string) (suppressVulkanHeaders : bool)
    (g : Generator) : Generator :=
  if negb (path_exists W (guest_abs_encoder_destination (settings g))) then
    print ("Path [" +:+ guest_abs_encoder_destination (settings g) +:+
           "] not found (guest encoder path), skipping") g
  else
    addCppModule guest_encoder_tag basename extraHeader extraImpl
                 (Some (guest_abs_encoder_destination (settings g)))
                 useNamespace false false headerOnly suppressFeatureGuards
                 moduleName suppressVulkanHeaders g.

(** [addHostModule(...)] *)
Definition addHostModule
    (basename extraHeader extraImpl : string)
    (useNamespace implOnly suppress headerOnly suppressFeatureGuards : bool)
    (moduleName : option string) (suppressVulkanHeaders : bool)
    (g : Generator) : Generator :=
  if negb (path_exists W (host_abs_decoder_destination (settings g))) then
    print ("Path [" +:+ host_abs_decoder_destination (settings g) +:+
           "] not found (host encoder path), skipping") g
  else
    let extraHeader :=
      if suppressVulkanHeaders then extraHeader
      else includes W "hostCommonExtraVulkanHeaders" +:+ nl +:+ extraHeader in
    addCppModule host_tag basename extraHeader extraImpl
                 (Some (host_abs_decoder_destination (settings g)))
                 useNamespace implOnly suppress headerOnly suppressFeatureGuards
                 moduleName suppressVulkanHeaders g.

(** The keys of [self.modules] in the order of iteration of the
    dictionary, which is the order of first insertion. *)
Fixpoint keysInOrder (l : list string) : list string :=
  match l with
  | [] => []
  | x :: l' => x :: filter (fun y => y ≠ x) (keysInOrder l')
  end.

(** [addWrapper(moduleType, moduleName, **kwargs)] *)
Definition addWrapper (moduleType : WrapperType) (moduleName : string)
                      (kwargs : list (string * string)) (g : Generator) : Generator :=
  match modules g !! moduleName with
  | None =>
      print ("Unknown module: " +:+ moduleName +:+ ". All known modules are: " +:+
             String.concat ", " (keysInOrder (moduleList g)) +:+ ".") g
  | Some _ =>
      set_wrappers (wrappers g ++ [mkWrapper moduleType moduleName kwargs]) g
  end.

(** [forEachModule(func)].  [func] receives the module object; here it
    also receives the name under which the object is registered. *)
Definition forEachModule (func : string -> Module -> Generator -> Generator)
                         (g : Generator) : Generator :=
  foldl (fun g moduleName =>
           match modules g !! moduleName with
           | Some m => func moduleName m g
           | None => g
           end) g (moduleList g).

(** [forEachWrapper(func, supportedWrappers)] *)
Definition selected (supportedWrappers : option (list WrapperType)) (w : Wrapper) : bool :=
  match supportedWrappers with
  | None => true
  | Some l => bool_decide (wtype w ∈ l)
  end.

Definition forEachWrapper (func : nat -> Wrapper -> Generator -> Generator)
                          (supportedWrappers : option (list WrapperType))
                          (g : Generator) : Generator :=
  foldl (fun g iw => if selected supportedWrappers iw.2 then func iw.1 iw.2 g else g)
        g (imap pair (wrappers g)).

(** [addSrcEntry(m)], the local function of [__init__] *)
Definition addSrcEntry (m : Module) (g : Generator) : Generator :=
  let mkSrcEntry := getMakefileSrcEntry W m in
  let cmakeSrcEntry := getCMakeSrcEntry W m in
  if decide (directory m = guest_encoder_tag) then
    set_guestAndroidMkCppFiles (guestAndroidMkCppFiles g +:+ mkSrcEntry) g
  else if decide (directory m = host_tag) then
    set_hostDecoderCMakeCppFiles (hostDecoderCMakeCppFiles g +:+ cmakeSrcEntry) g
  else
    set_hostCMakeCppFiles (hostCMakeCppFiles g +:+ cmakeSrcEntry) g.

(** *** [__init__] *)

Definition readSettings : Settings * list string :=
  let guestBaseLibDirPrefix :=
    envGetOrDefault "VK_CEREAL_GUEST_BASELIB_PREFIX" "aemu/base" in
  let baseLibDirPrefix :=
    envGetOrDefault "VK_CEREAL_BASELIB_PREFIX" "aemu/base" in
  let baseLibLinkName :=
    envGetOrDefault "VK_CEREAL_BASELIB_LINKNAME" "android-emu-base" in
  let vulkanHeaderTargetName :=
    envGetOrDefault "VK_CEREAL_VK_HEADER_TARGET" "" in
  let utilsHeader := envGetOrDefault "VK_CEREAL_UTILS_LINKNAME" "" in
  let utilsHeaderDirPrefix := envGetOrDefault "VK_CEREAL_UTILS_PREFIX" "utils" in
  let guest_abs_encoder_destination :=
    envGetOrDefault "VK_CEREAL_GUEST_ENCODER_DIR"
      (os_path_join (getcwd W) [".."; ".."; "device"; "generic"; "goldfish-opengl";
                                "system"; "vulkan_enc"]) in
  let host_abs_decoder_destination :=
    envGetOrDefault "VK_CEREAL_HOST_DECODER_DIR"
      (os_path_join (getcwd W) ["android"; "android-emugl"; "host"; "libs";
                                "libOpenglRender"; "vulkan"]) in
  let host_script_destination := envGetOrNone "VK_CEREAL_HOST_SCRIPTS_DIR" in
  (mkSettings guestBaseLibDirPrefix.1 baseLibDirPrefix.1 baseLibLinkName.1
              vulkanHeaderTargetName.1 utilsHeader.1 utilsHeaderDirPrefix.1
              guest_abs_encoder_destination.1 host_abs_decoder_destination.1
              host_script_destination.1,
   guestBaseLibDirPrefix.2 ++ baseLibDirPrefix.2 ++ baseLibLinkName.2 ++
   vulkanHeaderTargetName.2 ++ utilsHeader.2 ++ utilsHeaderDirPrefix.2 ++
   guest_abs_encoder_destination.2 ++ host_abs_decoder_destination.2 ++
   host_script_destination.2).

(** The statements of [__init__] that register the modules, in order. *)
Definition moduleRegistrations (scripts : string) : list (Generator -> Generator) :=
  let inc := includes W in [
    addGuestEncoderModule "VkEncoder" (inc "encoderInclude") (inc "encoderImplInclude")
      true false false None false;
    addGuestEncoderModule "goldfish_vk_extension_structs_guest"
      (inc "extensionStructsIncludeGuest") "" true false false None false;
    addGuestEncoderModule "goldfish_vk_marshaling_guest"
      (inc "commonCerealIncludesGuest" +:+ inc "marshalIncludeGuest")
      (inc "commonCerealImplIncludesGuest") true false false None false;
    addGuestEncoderModule "goldfish_vk_reserved_marshaling_guest"
      (inc "commonCerealIncludesGuest" +:+ inc "reservedmarshalIncludeGuest")
      (inc "commonCerealImplIncludesGuest" +:+ inc "reservedmarshalImplIncludeGuest")
      true false false None false;
    addGuestEncoderModule "goldfish_vk_deepcopy_guest"
      (inc "commonCerealIncludesGuest" +:+ inc "poolIncludeGuest")
      (inc "commonCerealImplIncludesGuest" +:+ inc "deepcopyInclude")
      true false false None false;
    addGuestEncoderModule "goldfish_vk_counting_guest"
      (inc "countingIncludes") (inc "commonCerealImplIncludesGuest")
      true false false None false;
    addGuestEncoderModule "goldfish_vk_transform_guest"
      (inc "commonCerealIncludesGuest" +:+ inc "transformIncludeGuest")
      (inc "commonCerealImplIncludesGuest" +:+ inc "transformImplIncludeGuest")
      true false false None false;
    addGuestEncoderModule "vulkan_gfxstream_structure_type"
      (createVkExtensionStructureTypePreamble "VK_GOOGLE_GFXSTREAM") ""
      false true true (Some "vulkan_gfxstream_structure_type_guest") true;
    addGuestEncoderModule "func_table" "" (inc "functableImplInclude")
      true false false None false;
    addCppModule "common" "goldfish_vk_extension_structs"
      (inc "extensionStructsInclude") "" None true false false false false None false;
    addCppModule "common" "goldfish_vk_marshaling"
      (inc "vulkanStreamIncludeHost") (inc "commonCerealImplIncludes")
      None true false false false false None false;
    addCppModule "common" "goldfish_vk_reserved_marshaling"
      (inc "vulkanStreamIncludeHost") (inc "commonCerealImplIncludes")
      None true false false false false None false;
    addCppModule "common" "goldfish_vk_deepcopy"
      (inc "poolInclude") (inc "commonCerealImplIncludes" +:+ inc "deepcopyInclude")
      None true false false false false None false;
    addCppModule "common" "goldfish_vk_handlemap"
      (inc "handleMapInclude") (inc "commonCerealImplIncludes")
      None true false false false false None false;
    addCppModule "common" "goldfish_vk_dispatch"
      (inc "dispatchHeaderDefs") (inc "dispatchImplIncludes")
      None true false false false false None false;
    addCppModule "common" "goldfish_vk_transform"
      (inc "transformInclude") (inc "transformImplInclude")
      None true false false false false None false;
    addHostModule "VkDecoder" (inc "decoderHeaderIncludes") (inc "decoderImplIncludes")
      false false false false false None false;
    addHostModule "VkDecoderSnapshot"
      (inc "decoderSnapshotHeaderIncludes") (inc "decoderSnapshotImplIncludes")
      false false false false false None false;
    addHostModule "VkSubDecoder" "" "" false true false false false None false;
    addModule
      (mkModule PyScript host_tag "vulkan_printer"
                (Some (Path_div scripts "print_gfx_logs"))
                false false false false "" "" "" "" "" "" None None)
      (Some "ApiLogDecoder");
    addHostModule "vulkan_gfxstream_structure_type"
      (createVkExtensionStructureTypePreamble "VK_GOOGLE_GFXSTREAM") ""
      false false false true true (Some "vulkan_gfxstream_structure_type_host") true;
    addHostModule "vk_android_native_buffer_structure_type"
      (createVkExtensionStructureTypePreamble "VK_ANDROID_NATIVE_BUFFER") ""
      false false false true true None true
  ].

(** The [addWrapper] statements of [__init__], in order. *)
Definition wrapperRegistrations : list (Generator -> Generator) := [
  addWrapper VulkanEncoder "VkEncoder" [];
  addWrapper VulkanExtensionStructs "goldfish_vk_extension_structs_guest" [];
  addWrapper VulkanMarshaling "goldfish_vk_marshaling_guest" [("variant", "guest")];
  addWrapper VulkanReservedMarshaling "goldfish_vk_reserved_marshaling_guest"
             [("variant", "guest")];
  addWrapper VulkanDeepcopy "goldfish_vk_deepcopy_guest" [];
  addWrapper VulkanCounting "goldfish_vk_counting_guest" [];
  addWrapper VulkanTransform "goldfish_vk_transform_guest" [];
  addWrapper VulkanFuncTable "func_table" [];
  addWrapper VulkanExtensionStructs "goldfish_vk_extension_structs" [];
  addWrapper VulkanMarshaling "goldfish_vk_marshaling" [];
  addWrapper VulkanReservedMarshaling "goldfish_vk_reserved_marshaling"
             [("variant", "host")];
  addWrapper VulkanDeepcopy "goldfish_vk_deepcopy" [];
  addWrapper VulkanHandleMap "goldfish_vk_handlemap" [];
  addWrapper VulkanDispatch "goldfish_vk_dispatch" [];
  addWrapper VulkanTransform "goldfish_vk_transform"
             [("resourceTrackerTypeName", "VkDecoderGlobalState")];
  addWrapper VulkanDecoder "VkDecoder" [];
  addWrapper VulkanDecoderSnapshot "VkDecoderSnapshot" [];
  addWrapper VulkanSubDecoder "VkSubDecoder" [];
  addWrapper ApiLogDecoder "ApiLogDecoder" [];
  addWrapper VulkanGfxstreamStructureType "vulkan_gfxstream_structure_type_guest" [];
  addWrapper VulkanGfxstreamStructureType "vulkan_gfxstream_structure_type_host" [];
  addWrapper VulkanAndroidNativeBufferStructureType
             "vk_android_native_buffer_structure_type" []
].

(** Statements one after the other. *)
Definition sequence (stmts : list (Generator -> Generator)) (g : Generator) : Generator :=
  foldl (fun g stmt => stmt g) g stmts.

(** [CerealGenerator.__init__]; [assert(self.host_script_destination is
    not None)] is the one statement that can raise. *)
Definition init : result Generator :=
  let suppressOption := init_suppress_option in
  let st := readSettings in
  match host_script_destination st.1 with
  | None => Raise AssertionError
  | Some scripts =>
      let g := mkGenerator ∅ [] [] None None false None st.1 "" "" ""
                           suppressOption.1.1 suppressOption.1.2 ""
                           (suppressOption.2 ++ st.2) [] in
      let g := sequence (moduleRegistrations scripts) g in
      let g := sequence wrapperRegistrations g in
      Ok (forEachModule (fun _ m => addSrcEntry m) g)
  end.

(** *** The overridden methods *)

(** Every overridden method begins with the call of the method of the
    superclass, [OutputGenerator] of generator.py, which is outside the
    files at hand.  Of these calls the model has the two that set what the
    methods here read, [featureName] and [featureType]; the others
    ([beginFile], [endFile], [genType], [genStruct], [genGroup], [genEnum],
    [genCmd]) are left out, and nothing is stated on what they do or
    raise. *)

(** [str(x)] of a value that is a string or [None], as the [%s] of a
    format does it. *)
Definition pyStr (o : option string) : string := default "None" o.

(** Modelled from the spec: [OutputGenerator.beginFeature] of generator.py,
    which is outside the files at hand, records the name and the kind of
    the feature that becomes active. *)
Definition OutputGenerator_beginFeature (interface : Element) (emit : bool)
                                        (g : Generator) : Generator :=
  set_featureType (get interface "type") (set_featureName (get interface "name") g).

(** Modelled from the spec: [OutputGenerator.endFeature] of generator.py;
    no feature is active any more. *)
Definition OutputGenerator_endFeature (g : Generator) : Generator :=
  set_featureType None (set_featureName None g).

(** Modelled from the spec: [write(text, file = self.outFile)] of
    generator.py writes the text and a newline. *)
Definition write (text : string) (g : Generator) : Generator :=
  set_outFile (outFile g +:+ text +:+ nl) g.

(** [enableSuppression(m)], the local function of [beginFile] *)
Definition enableSuppression (moduleName : string) (m : Module)
                             (g : Generator) : Generator :=
  set_modules (<[moduleName := set_suppress true m]> (modules g)) g.

(** [beginFile(genOpts)]; [directory] is [genOpts.directory].
    [self.modules[suppressExceptModule]] is a KeyError when the name is
    not registered. *)
Definition beginFile (directory : string) (g : Generator) : result Generator :=
  g ← (if suppressEnabled g then
         let g := forEachModule enableSuppression g in
         match suppressExceptModule g with
         | None => Raise KeyError
         | Some kept =>
             match modules g !! kept with
             | None => Raise KeyError
             | Some m => Ok (set_modules (<[kept := set_suppress false m]> (modules g)) g)
             end
         end
       else Ok g);
  let g := if suppressEnabled g then g
           else write (host_cmake_generator g (hostCMakeCppFiles g)) g in
  let g := forEachModule (fun n _ => callModule n (m_begin directory)) g in
  Ok (forEachWrapper (callWrapper onBegin) None g).

(** [endFile()] *)
Definition endFile (g : Generator) : Generator :=
  let g := callTypeInfo onEnd g in
  let g := forEachWrapper (callWrapper onEnd) None g in
  forEachModule (fun n _ => callModule n m_end) g.

(** The test [isinstance(m, cereal.Module) and not m.suppressFeatureGuards]
    of the four guard lambdas. *)
Definition guarded (m : Module) : bool :=
  isinstance_Module m && negb (suppressFeatureGuards m).

(** [beginFeature(interface, emit)] *)
Definition beginFeature (interface : Element) (emit : bool) (g : Generator) : Generator :=
  let g := OutputGenerator_beginFeature interface emit g in
  let g := set_featureSupported
             (foldl (fun supported supportedFeature =>
                       if decide (featureName g = Some supportedFeature) then true
                       else supported)
                    (featureSupported g) SUPPORTED_FEATURES) g in
  if negb (featureSupported g) then g
  else
    let g := set_supportedWrappers
               (n ← featureName g; SUPPORTED_WRAPPERS !! n) g in
    let g := callTypeInfo (onBeginFeature (featureName g) (featureType g)) g in
    let g := forEachModule
               (fun n m g' =>
                  if guarded m then
                    callModule n (m_appendHeader ("#ifdef " +:+ pyStr (featureName g) +:+ nl)) g'
                  else g') g in
    let g := forEachModule
               (fun n m g' =>
                  if guarded m then
                    callModule n (m_appendImpl ("#ifdef " +:+ pyStr (featureName g) +:+ nl)) g'
                  else g') g in
    let g := forEachWrapper
               (callWrapper (onBeginFeature (featureName g) (featureType g)))
               (supportedWrappers g) g in
    foldl (fun g' features =>
             foldl (fun g' c =>
                      forEachWrapper (callWrapper (onFeatureNewCmd (get c "name")))
                                     (supportedWrappers g) g')
                   g' (findall features "command"))
          g (findall interface "require").

(** [endFeature()] *)
Definition endFeature (g : Generator) : Generator :=
  let g := OutputGenerator_endFeature g in
  if negb (featureSupported g) then g
  else
    let g := set_featureSupported false g in
    let g := callTypeInfo onEndFeature g in
    let g := forEachModule
               (fun n m g =>
                  if guarded m then callModule n (m_appendHeader ("#endif" +:+ nl)) g
                  else g) g in
    let g := forEachModule
               (fun n m g =>
                  if guarded m then callModule n (m_appendImpl ("#endif" +:+ nl)) g
                  else g) g in
    forEachWrapper (callWrapper onEndFeature) (supportedWrappers g) g.

(** [genType(typeinfo, name, alias)] *)
Definition genType (typeinfo : Element) (name : string) (alias : option string)
                   (g : Generator) : Generator :=
  if negb (featureSupported g) && bool_decide (name = "int") then
    callTypeInfo (onGenType typeinfo name alias) g
  else if negb (featureSupported g) && bool_decide (name = "int64_t") then
    callTypeInfo (onGenType typeinfo name alias) g
  else if negb (featureSupported g) && bool_decide (name = "double") then
    callTypeInfo (onGenType typeinfo name alias) g
  else if negb (featureSupported g) && bool_decide (name = "VkPresentScalingFlagsEXT") then
    callTypeInfo (onGenType typeinfo name alias) g
  else if negb (featureSupported g) && bool_decide (name = "VkPresentGravityFlagsEXT") then
    callTypeInfo (onGenType typeinfo name alias) g
  else if negb (featureSupported g) then g
  else
    let g := callTypeInfo (onGenType typeinfo name alias) g in
    forEachWrapper (callWrapper (onGenType typeinfo name alias)) (supportedWrappers g) g.

(** [genStruct(typeinfo, typeName, alias)] *)
Definition genStruct (typeinfo : Element) (typeName : string) (alias : option string)
                     (g : Generator) : Generator :=
  if negb (featureSupported g) then g
  else
    let g := callTypeInfo (onGenStruct typeinfo typeName alias) g in
    forEachWrapper (callWrapper (onGenStruct typeinfo typeName alias)) (supportedWrappers g) g.

(** [genGroup(groupinfo, groupName, alias)] *)
Definition genGroup (groupinfo : Element) (groupName : string) (alias : option string)
                    (g : Generator) : Generator :=
  if negb (featureSupported g) then g
  else
    let g := callTypeInfo (onGenGroup groupinfo groupName alias) g in
    forEachWrapper (callWrapper (onGenGroup groupinfo groupName alias)) (supportedWrappers g) g.

(** [genEnum(enuminfo, name, alias)] *)
Definition genEnum (enuminfo : Element) (name : string) (alias : option string)
                   (g : Generator) : Generator :=
  if negb (featureSupported g) then g
  else
    let g := callTypeInfo (onGenEnum enuminfo name alias) g in
    forEachWrapper (callWrapper (onGenEnum enuminfo name alias)) (supportedWrappers g) g.

(** [genCmd(cmdinfo, name, alias)] *)
Definition genCmd (cmdinfo : Element) (name : string) (alias : option string)
                  (g : Generator) : Generator :=
  if negb (featureSupported g) then g
  else
    let g := callTypeInfo (onGenCmd cmdinfo name alias) g in
    forEachWrapper (callWrapper (onGenCmd cmdinfo name alias)) (supportedWrappers g) g.

(** *** The events of a run *)

(** The definitions the walker of the registry hands over inside a
    feature. *)
Inductive Defn :=
| TypeDef (typeinfo : Element) (name : string) (alias : option string)
| StructDef (typeinfo : Element) (typeName : string) (alias : option string)
| GroupDef (groupinfo : Element) (groupName : string) (alias : option string)
| EnumDef (enuminfo : Element) (name : string) (alias : option string)
| CmdDef (cmdinfo : Element) (name : string) (alias : option string).

Definition gen (d : Defn) (g : Generator) : Generator :=
  match d with
  | TypeDef i n a => genType i n a g
  | StructDef i n a => genStruct i n a g
  | GroupDef i n a => genGroup i n a g
  | EnumDef i n a => genEnum i n a g
  | CmdDef i n a => genCmd i n a g
  end.

(** The callback a definition is forwarded as. *)
Definition callbackOf (d : Defn) : Callback :=
  match d with
  | TypeDef i n a => onGenType i n a
  | StructDef i n a => onGenStruct i n a
  | GroupDef i n a => onGenGroup i n a
  | EnumDef i n a => onGenEnum i n a
  | CmdDef i n a => onGenCmd i n a
  end.

Inductive Event :=
| beginFileE (directory : string)
| endFileE
| beginFeatureE (interface : Element) (emit : bool)
| endFeatureE
| genE (d : Defn).

Definition handle (g : Generator) (ev : Event) : result Generator :=
  match ev with
  | beginFileE directory => beginFile directory g
  | endFileE => Ok (endFile g)
  | beginFeatureE interface emit => Ok (beginFeature interface emit g)
  | endFeatureE => Ok (endFeature g)
  | genE d => Ok (gen d g)
  end.

Fixpoint run (g : Generator) (evs : list Event) : result Generator :=
  match evs with
  | [] => Ok g
  | ev :: evs' => g' ← handle g ev; run g' evs'
  end.

(** Modelled from the spec: the walker of the registry ([reg.apiGen()],
    outside the files at hand) delivers begin-file, then for each feature
    in file order begin-feature, the definitions of the feature and
    end-feature, and finally end-file. *)
Record Feature := mkFeature {
  interface : Element;
  emit : bool;
  definitions : list Defn
}.

Definition featureEvents (f : Feature) : list Event :=
  beginFeatureE (interface f) (emit f) :: map genE (definitions f) ++ [endFeatureE].

Definition traversal (directory : string) (fs : list Feature) : list Event :=
  beginFileE directory :: concat (map featureEvents fs) ++ [endFileE].

(** One feature from begin-feature to end-feature. *)
Definition runFeature (f : Feature) (g : Generator) : Generator :=
  endFeature (foldl (fun g d => gen d g) (beginFeature (interface f) (emit f) g)
                    (definitions f)).

(** The whole program: construction, then the traversal. *)
Definition main (directory : string) (fs : list Feature) : result Generator :=
  g ← init; run g (traversal directory fs).

End Generator.

(** The path functions are not to be unfolded on a path that is not
    known. *)
Arguments os_path_join : simpl never.
Arguments Path_str : simpl never.
Arguments Path_div : simpl never.

(** ** gfxstreamstructuretype.py *)

(** [VulkanGfxstreamStructureType.onGenGroup]: what the wrapper appends to
    the header of its module; [elem] is [groupinfo.elem]. *)
Definition VulkanGfxstreamStructureType_onGenGroup (elem : Element) : list Append :=
  if decide (get elem "type" = Some "enum") then
    if decide (get elem "name" = Some "VkStructureType") then
      map (fun enum =>
             toHeader ("#define " +:+ pyStr (get enum "name") +:+
                       " VK_GOOGLE_GFXSTREAM_ENUM(VkStructureType, " +:+
                       pyStr (get enum "offset") +:+ ")" +:+ nl))
          (filter (fun c => tag c = "enum" ∧ get c "extname" = Some "VK_GOOGLE_gfxstream")
                  (children elem))
    else []
  else [].

End Cereal.

(** * third-party/fuchsia/magma/regen.py *)

Module Regen.

Definition tab : string := String (Ascii.ascii_of_nat 9) EmptyString.

(** ** Values of [json.load] *)

(** A number carries the text that [str] gives for it; an object carries
    its members in the order of the file. *)
Inductive Json :=
| JNull
| JBool (b : bool)
| JNumber (text : string)
| JString (s : string)
| JArray (items : list Json)
| JObject (members : list (string * Json)).

(** The value a [dict] holds for a key: of two members with the same
    name, [json.load] keeps the later. *)
Fixpoint member (key : string) (members : list (string * Json)) : option Json :=
  match members with
  | [] => None
  | (k, v) :: rest =>
      match member key rest with
      | Some v' => Some v'
      | None => if decide (k = key) then Some v else None
      end
  end.

(** The keys of a [dict] in the order of iteration: each name at the place
    where it first occurs. *)
Fixpoint keys (members : list (string * Json)) : list string :=
  match members with
  | [] => []
  | (k, _) :: rest => k :: filter (fun k' => k' ≠ k) (keys rest)
  end.

(** [v[key]] for a string [key]. *)
Definition getitem (v : Json) (key : string) : result Json :=
  match v with
  | JObject members =>
      match member key members with
      | Some x => Ok x
      | None => Raise KeyError
      end
  | _ => Raise TypeError
  end.

(** The characters of a string, which holds a text in UTF-8: a byte, and
    the continuation bytes (0x80 to 0xBF) that follow it. *)
Definition continuation (b : Ascii.ascii) : bool :=
  let n := Ascii.nat_of_ascii b in (128 <=? n)%nat && (n <? 192)%nat.

Fixpoint chars_from (current : string) (s : string) : list string :=
  match s with
  | EmptyString => [current]
  | String b rest =>
      if continuation b then chars_from (current +:+ String b EmptyString) rest
      else current :: chars_from (String b EmptyString) rest
  end.

Definition chars (s : string) : list string :=
  match s with
  | EmptyString => []
  | String b rest => chars_from (String b EmptyString) rest
  end.

(** [for x in v]: the elements of a list, the keys of a dict, the
    characters of a string; anything else is not iterable. *)
Definition iterate (v : Json) : result (list Json) :=
  match v with
  | JArray items => Ok items
  | JObject members => Ok (JString <$> keys members)
  | JString s => Ok (JString <$> chars s)
  | _ => Raise TypeError
  end.

(** [s.endswith(suffix)] on strings. *)
Definition ends_with (suffix s : string) : bool :=
  bool_decide (String.length suffix <= String.length s) &&
  bool_decide (String.substring (String.length s - String.length suffix)
                                (String.length suffix) s = suffix).

(** [s[:-1]] on strings. *)
Definition dropLast (s : string) : string :=
  String.concat "" (removelast (chars s)).

Section Formatting.
(** [str(v)] of a value that is not a string: the text Python prints for
    [None], a bool, a number, a list or a dict. *)
Context (repr : Json -> string).

(** [f'{v}'] *)
Definition pystr (v : Json) : string :=
  match v with
  | JString s => s
  | _ => repr v
  end.

(** [v.endswith(suffix)]: a method of strings only. *)
Definition endswith (v : Json) (suffix : string) : result bool :=
  match v with
  | JString s => Ok (ends_with suffix s)
  | _ => Raise AttributeError
  end.

(** [v[:-1]]: a string without its last character, a list without its
    last element.  A dict takes no slice for a key (a TypeError, and a
    KeyError from Python 3.12 on), the others take no subscript. *)
Definition allButLast (v : Json) : result Json :=
  match v with
  | JString s => Ok (JString (dropLast s))
  | JArray items => Ok (JArray (removelast items))
  | _ => Raise TypeError
  end.

(** Loops that can raise. *)
Fixpoint forEach {A B} (f : A -> result B) (l : list A) : result (list B) :=
  match l with
  | [] => Ok []
  | a :: l' => b ← f a; bs ← forEach f l'; Ok (b :: bs)
  end.

Fixpoint select {A} (p : A -> result bool) (l : list A) : result (list A) :=
  match l with
  | [] => Ok []
  | a :: l' =>
      p a ≫= fun keep : bool =>
      rest ← select p l'; Ok (if keep then a :: rest else rest)
  end.

Fixpoint accumulate {A S} (f : S -> A -> result S) (s : S) (l : list A) : result S :=
  match l with
  | [] => Ok s
  | a :: l' => s' ← f s a; accumulate f s' l'
  end.

(** [dnsstr()] *)
Definition dnsstr : string := "DO " +:+ "NOT " +:+ "SUBMIT".

(** [format_export(export)] *)
Definition format_export (export : Json) : result string :=
  arguments ← getitem export "arguments";
  items ← iterate arguments;
  args ← forEach (fun arg =>
                    t ← getitem arg "type";
                    n ← getitem arg "name";
                    Ok (pystr t +:+ " " +:+ pystr n)) items;
  t ← getitem export "type";
  n ← getitem export "name";
  Ok ("MAGMA(" +:+ pystr t +:+ ", " +:+ pystr n +:+ ", " +:+
      String.concat ", " args +:+ ")").

(** [if_header()] *)
Definition if_header : string :=
  "# !!!! " +:+ dnsstr +:+ " !!!!" +:+ nl +:+
  "#   This interface file was generated using the magma" +:+ nl +:+
  "#   definition file. Some methods with nested structs must" +:+ nl +:+
  "#   be manually serialized/deserialized and so modifications" +:+ nl +:+
  "#   must be made to those method signatures prior to running" +:+ nl +:+
  "#   emugen!" +:+ nl +:+
  "# !!!! " +:+ dnsstr +:+ " !!!!" +:+ nl +:+
  nl.

(** [attrib_header()] *)
Definition attrib_header : string :=
  "# !!!! " +:+ dnsstr +:+ " !!!!" +:+ nl +:+
  "#   This attrib file was generated using HEURISTICS based on" +:+ nl +:+
  "#   the magma definition file. It must be manually verified" +:+ nl +:+
  "#   prior to submission!" +:+ nl +:+
  "# !!!! " +:+ dnsstr +:+ " !!!!" +:+ nl +:+
  nl +:+
  "# For documentation on the .attrib file format, see:" +:+ nl +:+
  "# android/android-emugl/host/tools/emugen/README" +:+ nl +:+
  nl +:+
  "GLOBAL" +:+ nl +:+
  tab +:+ "base_opcode 100000" +:+ nl +:+
  tab +:+ "encoder_headers <stdint.h>" +:+ nl.

(** The two lines that [format_attribs] adds for an output argument. *)
Definition attrib_lines (ret : string) (arg : Json) : result string :=
  n ← getitem arg "name";
  let ret := ret +:+ tab +:+ "dir " +:+ pystr n +:+ " out" +:+ nl in
  n ← getitem arg "name";
  t ← getitem arg "type";
  t' ← allButLast t;
  Ok (ret +:+ tab +:+ "len " +:+ pystr n +:+ " sizeof(" +:+ pystr t' +:+ ")" +:+ nl).

(** [format_attribs(export)]; the result [None] is Python's [None]. *)
Definition format_attribs (export : Json) : result (option string) :=
  arguments ← getitem export "arguments";
  items ← iterate arguments;
  out_args ← select (fun arg => n ← getitem arg "name"; endswith n "_out") items;
  if decide (length out_args = 0) then Ok None
  else
    n ← getitem export "name";
    ret ← accumulate attrib_lines (pystr n +:+ nl) out_args;
    Ok (Some ret).

(** [usage()]: the one string it prints. *)
Definition usage_text : string :=
  "Usage:" +:+ nl +:+
  "  regen.py INPUT OUT.in OUT.attrib" +:+ nl +:+
  "    INPUT       json file containing the magma interface definition" +:+ nl +:+
  "    OUT.in      destination path for the magma interface file to generate" +:+ nl +:+
  "    OUT.attrib  destination path for the magma interface file to generate" +:+ nl +:+
  "  Example: ./regen.py ./magma.json ./magma.in ./magma.attrib" +:+ nl +:+
  "  Generates magma interface and attrib files based on a provided json definition.".

(** ** [main] *)

(** What a run meets outside the script: the command line, whether each
    of the three files opens, what [json.load] returns, and the text of the
    exception of the run, if it raises one. *)
Record Run := mkRun {
  argv : list string;
  input_opens : bool;
  dest_in_opens : bool;
  dest_attrib_opens : bool;
  loaded : result Json;
  exception_text : string
}.

(** What a run leaves: the value [main] returns ([None] when it falls off
    its end), what it prints, and for each destination whether it was
    opened for writing, which empties it, and the text written to it. *)
Record Outcome := mkOutcome {
  returned_value : option nat;
  printed : list string;
  dest_in : option string;
  dest_attrib : option string
}.

(** The writes to [dest_attrib] after the header: one for each export
    whose [format_attribs] is a string that is not empty.  With the text
    comes whether [format_attribs] raised on the way. *)
Fixpoint write_attribs (exports : list Json) (text : string) : string * option Exn :=
  match exports with
  | [] => (text, None)
  | export :: rest =>
      match format_attribs export with
      | Raise e => (text, Some e)
      | Ok attribs =>
          write_attribs rest
            (match attribs with
             | Some a => if decide (a = "") then text else text +:+ nl +:+ a
             | None => text
             end)
      end
  end.

(** [magma['exports']], as a loop reads it; the script evaluates it
    twice, to the same list. *)
Definition exports_of (r : Run) : result (list Json) :=
  document ← loaded r;
  magma ← getitem document "magma-interface";
  exports ← getitem magma "exports";
  iterate exports.


(** The body of the innermost [with]: what has been written to the two
    destinations, and the exception that ended it, if one did. *)
Definition generate (r : Run) : string * string * option Exn :=
  match exports_of r with
  | Raise e => ("", "", Some e)
  | Ok items =>
      match forEach format_export items with
      | Raise e => ("", "", Some e)
      | Ok lines =>
          let to_in := if_header +:+ String.concat nl lines in
          let '(to_attrib, e) := write_attribs items attrib_header in
          (to_in, to_attrib, e)
      end
  end.

Definition failed (r : Run) (dest_in dest_attrib : option string) : Outcome :=
  mkOutcome (Some 1) ["Error accessing files: " +:+ exception_text r; usage_text]
            dest_in dest_attrib.

(** [main()] *)
Definition main (r : Run) : Outcome :=
  if negb (bool_decide (length (argv r) = 4)) then
    mkOutcome (Some 2) [usage_text] None None
  else if negb (input_opens r) then failed r None None
  else if negb (dest_in_opens r) then failed r None None
  else if negb (dest_attrib_opens r) then failed r (Some "") None
  else
    match generate r with
    | (to_in, to_attrib, Some _) => failed r (Some to_in) (Some to_attrib)
    | (to_in, to_attrib, None) => mkOutcome None [] (Some to_in) (Some to_attrib)
    end.

End Formatting.

(** ** Interface definitions of the expected shape *)









(** ** A small interface definition *)







End Regen.

(** * Definitions for the statements *)

Module Observe.
Import XmlTree Genvk Cereal.

(** ** The registry merge *)

(** The children of the first [<require>] of an entry: what the loop
    [for child in require] runs over. *)
Definition requireChildren (entry : Element) : list Element :=
  match find entry "require" with
  | Some require => children require
  | None => []
  end.

(** The sections that the merge goes through, in this order. *)
Definition sections : list string := ["types"; "commands"; "extensions"].

(** The name of an entry when [getEntryName] gives a string for it. *)
Definition stringName (entry : Element) : option string :=
  match getEntryName entry with
  | Some (NameStr s) => Some s
  | _ => None
  end.

(** The place of a name in a section: the position of the last entry that
    has this string for a name. *)
Fixpoint placeOf (s : string) (entries : list Element) : option nat :=
  match entries with
  | [] => None
  | b :: rest =>
      match placeOf s rest with
      | Some i => Some (S i)
      | None => if decide (stringName b = Some s) then Some 0 else None
      end
  end.

(** The base entry that an entry of the gfxstream file meets: the place of
    its name among the entries of the base section.  There is none when
    the entry has no string for a name or no base entry has that name; the
    entry is new then. *)
Definition target (base : list Element) (entry : Element) : option nat :=
  s ← stringName entry; placeOf s base.

(** An element with other sub-elements. *)
Definition withEntries (e : Element) (entries : list Element) : Element :=
  Elem (tag e) (attrib e) (text e) (tail e) entries.

(** An entry of extensions into which the entries [es] of the gfxstream
    file were merged, one after the other: it has the attributes of each of
    them, a later one before an earlier one and all before its own, and its
    first require block has received the children of the require blocks of
    all of them, in order. *)
Definition extended (b : Element) (es : list Element) : Element :=
  Elem (tag b) (foldl (fun a e => attrib e ∪ a) (attrib b) es) (text b) (tail b)
       (match find_index "require" (children b) with
        | Some j =>
            alter (fun r => withEntries r (children r ++ concat (requireChildren <$> es)))
                  j (children b)
        | None => children b
        end).

(** An entry of types into which the entries [es] were merged: of the
    original the tag is left; attributes and children are those of the
    last of [es], text and tail are cleared. *)
Definition overwritten (b : Element) (es : list Element) : Element :=
  match last es with
  | Some e => Elem (tag b) (attrib e) None None (children e)
  | None => b
  end.

Definition mergedEntry (entriesName : string) (b : Element) (es : list Element) : Element :=
  if decide (entriesName = "extensions") then extended b es
  else if decide (entriesName = "types") then overwritten b es
  else b.

(** A section after the merge: every base entry at its place, merged with
    the entries of the gfxstream section that meet it, and after them the
    new entries, in the order of the gfxstream file. *)
Definition mergedSection (entriesName : string) (base gfx : list Element) : list Element :=
  imap (fun i b => mergedEntry entriesName b (filter (fun e => target base e = Some i) gfx))
       base ++
  filter (fun e => target base e = None) gfx.

(** The entries of a section of a registry; none when the section is
    missing. *)
Definition entries (entriesName : string) (root : Element) : list Element :=
  from_option children [] (find root entriesName).

(** Every entry of the gfxstream section has no child of a require block
    to hand over, or is new, or meets a base entry that has a require
    block. *)
Definition requireBlocks (base gfx : list Element) : Prop :=
  Forall (fun e => requireChildren e = [] \/ target base e = None \/
                   is_Some (i ← target base e; b ← base !! i; find b "require")) gfx.


(** ** The generator *)

(** The operations the generator has called on the module of a name. *)
Definition moduleCalls (n : string) (tr : list Call) : list ModuleOp :=
  omap (fun c => match c with
                 | ModuleCall n' op => if decide (n' = n) then Some op else None
                 | _ => None
                 end) tr.

(** The callbacks the wrapper at a position has received. *)
Definition wrapperCalls (i : nat) (tr : list Call) : list Callback :=
  omap (fun c => match c with
                 | WrapperCall j cb => if decide (j = i) then Some cb else None
                 | _ => None
                 end) tr.


(** The names of the types the registry has a record of: those it was
    handed in [onGenType]. *)
Definition registryTypes (tr : list Call) : list string :=
  omap (fun c => match c with
                 | TypeInfoCall (onGenType _ name _) => Some name
                 | _ => None
                 end) tr.

(** The positions, in increasing order, of the wrappers that
    [forEachWrapper] selects. *)
Definition selectedPositions (supportedWrappers : option (list WrapperType))
                             (ws : list Wrapper) : list nat :=
  filter (fun i => from_option (selected supportedWrappers) false (ws !! i) = true)
         (seq 0 (length ws)).

(** What stays of a module when text is appended and files are written. *)
Definition config (m : Module) :=
  (mclass m, directory m, basename m, customAbsDir m, suppress m, implOnly m,
   headerOnly m, suppressFeatureGuards m, headerPreamble m, implPreamble m,
   headerPostamble m, implPostamble m).

(** [m'] is [m] with text appended to its buffers. *)
Definition extends (m m' : Module) : Prop :=
  config m' = config m /\
  (exists t, header m' = header m +:+ t) /\
  (exists t, impl m' = impl m +:+ t).

(** What stays of the generator while it makes calls. *)
Definition fixed (g : Generator) :=
  (moduleList g, wrappers g, settings g, guestAndroidMkCppFiles g,
   hostCMakeCppFiles g, hostDecoderCMakeCppFiles g, suppressEnabled g,
   suppressExceptModule g, outFile g, stdout g).

(** The attributes that follow the active feature. *)
Definition feat (g : Generator) :=
  (featureName g, featureType g, featureSupported g, supportedWrappers g).

Definition guardedIn (g : Generator) (n : string) : bool :=
  from_option guarded false (modules g !! n).

(** The names under which [forEachModule] finds a module that takes
    feature guards. *)
Definition guardedNames (g : Generator) : list string :=
  filter (fun n => guardedIn g n = true) (moduleList g).

(** The names for which [genType] makes an exception. *)
Definition EXCEPTIONS : list string :=
  ["int"; "int64_t"; "double"; "VkPresentScalingFlagsEXT"; "VkPresentGravityFlagsEXT"].

(** Whether [beginFeature] finds the name in [SUPPORTED_FEATURES]. *)
Definition supportedName (name : option string) : bool :=
  match name with
  | Some s => bool_decide (s ∈ SUPPORTED_FEATURES)
  | None => false
  end.

(** The names of the commands in the require blocks of a feature, in the
    order in which [beginFeature] walks them. *)
Definition requiredCommands (interface : Element) : list (option string) :=
  concat (map (fun features => map (fun c => get c "name") (findall features "command"))
              (findall interface "require")).

Definition guardOpen (name : option string) : string :=
  "#ifdef " +:+ pyStr name +:+ nl.
Definition guardClose : string := "#endif" +:+ nl.

(** The wrappers a feature is restricted to. *)
Definition restriction (name : option string) : option (list WrapperType) :=
  n ← name; SUPPORTED_WRAPPERS !! n.

(** The first half of [beginFeature] for a supported feature: the
    attributes, the registry and the guards. *)
Definition beginGuards (interface : Element) (g : Generator) : Generator :=
  let name := get interface "name" in
  let g := set_supportedWrappers (restriction name)
             (set_featureSupported true
                (set_featureType (get interface "type") (set_featureName name g))) in
  let g := callTypeInfo (onBeginFeature name (get interface "type")) g in
  let g := forEachModule
             (fun n m g' => if guarded m
                            then callModule n (m_appendHeader (guardOpen name)) g'
                            else g') g in
  forEachModule
    (fun n m g' => if guarded m
                   then callModule n (m_appendImpl (guardOpen name)) g'
                   else g') g.

(** The calls of the first half. *)
Definition beginGuardsTrace (g : Generator) (interface : Element) : list Call :=
  let name := get interface "name" in
  [TypeInfoCall (onBeginFeature name (get interface "type"))] ++
  map (fun n => ModuleCall n (m_appendHeader (guardOpen name))) (guardedNames g) ++
  map (fun n => ModuleCall n (m_appendImpl (guardOpen name))) (guardedNames g).

(** The calls of the second half: the wrappers. *)
Definition beginWrappersTrace (g : Generator) (interface : Element) : list Call :=
  let name := get interface "name" in
  let pos := selectedPositions (restriction name) (wrappers g) in
  map (fun i => WrapperCall i (onBeginFeature name (get interface "type"))) pos ++
  concat (map (fun c => map (fun i => WrapperCall i (onFeatureNewCmd c)) pos)
              (requiredCommands interface)).

(** The calls for a definition inside a supported feature. *)
Definition genTrace (sw : option (list WrapperType)) (ws : list Wrapper)
                    (d : Defn) : list Call :=
  TypeInfoCall (callbackOf d) ::
  map (fun i => WrapperCall i (callbackOf d)) (selectedPositions sw ws).

(** The first half of [endFeature] while a supported feature is active. *)
Definition endGuards (g : Generator) : Generator :=
  let g := set_featureSupported false (OutputGenerator_endFeature g) in
  let g := callTypeInfo onEndFeature g in
  let g := forEachModule
             (fun n m g' => if guarded m
                            then callModule n (m_appendHeader guardClose) g'
                            else g') g in
  forEachModule
    (fun n m g' => if guarded m
                   then callModule n (m_appendImpl guardClose) g'
                   else g') g.

Definition endGuardsTrace (g : Generator) : list Call :=
  [TypeInfoCall onEndFeature] ++
  map (fun n => ModuleCall n (m_appendHeader guardClose)) (guardedNames g) ++
  map (fun n => ModuleCall n (m_appendImpl guardClose)) (guardedNames g).

(** The calls for a definition while no supported feature is active. *)
Definition skippedTrace (d : Defn) : list Call :=
  match d with
  | TypeDef i n a =>
      if bool_decide (n ∈ EXCEPTIONS) then [TypeInfoCall (onGenType i n a)] else []
  | _ => []
  end.

(** The calls of one feature, from a generator with no supported feature
    active. *)
Definition featureTrace (g : Generator) (f : Feature) : list Call :=
  let name := get (interface f) "name" in
  if supportedName name then
    beginGuardsTrace g (interface f) ++
    beginWrappersTrace g (interface f) ++
    concat (map (genTrace (restriction name) (wrappers g)) (definitions f)) ++
    endGuardsTrace g ++
    map (fun i => WrapperCall i onEndFeature)
        (selectedPositions (restriction name) (wrappers g))
  else concat (map skippedTrace (definitions f)).

(** The callbacks a selected wrapper receives for a supported feature. *)
Definition featureCallbacks (f : Feature) : list Callback :=
  let name := get (interface f) "name" in
  [onBeginFeature name (get (interface f) "type")] ++
  map onFeatureNewCmd (requiredCommands (interface f)) ++
  map callbackOf (definitions f) ++
  [onEndFeature].

(** The four guard operations of a supported feature on a module. *)
Definition guardCalls (f : Feature) : list ModuleOp :=
  let name := get (interface f) "name" in
  [m_appendHeader (guardOpen name); m_appendImpl (guardOpen name);
   m_appendHeader guardClose; m_appendImpl guardClose].

(** The names of the types a feature declares. *)
Definition declaredTypes (f : Feature) : list string :=
  omap (fun d => match d with TypeDef _ n _ => Some n | _ => None end) (definitions f).

Section WithWorld.
Context (W : World).

(** What one call of the trace does to the module registered under [n]:
    an operation of the generator on that module is applied, and a
    callback on a wrapper that holds that module appends what the wrapper
    emits; [pre] is the trace before the call. *)
Definition replayCall (ws : list Wrapper) (n : string) (pre : list Call)
                      (c : Call) (m : Module) : Module :=
  match c with
  | TypeInfoCall _ => m
  | ModuleCall k op => if decide (k = n) then applyOp op m else m
  | WrapperCall i cb =>
      match ws !! i with
      | Some w =>
          if decide (wmodule w = n)
          then foldl applyAppend m (wrapperEmit W w pre cb)
          else m
      | None => m
      end
  end.

(** The module registered under [n] after the calls [tr] that follow the
    trace [pre]. *)
Fixpoint replay (ws : list Wrapper) (n : string) (pre tr : list Call)
                (m : Module) : Module :=
  match tr with
  | [] => m
  | c :: tr' => replay ws n (pre ++ [c]) tr' (replayCall ws n pre c m)
  end.

(** [g'] is [g] after the calls [tr], whatever became of the feature:
    the modules are what the calls make of them. *)
Definition moves (tr : list Call) (g g' : Generator) : Prop :=
  fixed g' = fixed g /\
  (forall n, modules g' !! n = replay (wrappers g) n (trace g) tr <$> modules g !! n) /\
  trace g' = trace g ++ tr.

(** [g'] is [g] after the calls [tr] and nothing else. *)
Definition calls (tr : list Call) (g g' : Generator) : Prop :=
  feat g' = feat g /\ moves tr g g'.

(** The second half of [beginFeature] for a supported feature: the
    wrappers the feature is restricted to. *)
Definition beginWrappers (interface : Element) (g : Generator) : Generator :=
  let name := get interface "name" in
  foldl (fun g' c =>
           forEachWrapper (callWrapper W (onFeatureNewCmd c)) (restriction name) g')
        (forEachWrapper (callWrapper W (onBeginFeature name (get interface "type")))
                        (restriction name) g)
        (requiredCommands interface).

(** The features of a registry one after the other. *)
Definition runFeatures (fs : list Feature) (g : Generator) : Generator :=
  foldl (fun g f => runFeature W f g) g fs.

End WithWorld.

(** ** Construction *)

Section InitSpec.
Context (W : World).

(** [os.path.exists] on the two destinations. *)
Definition guestDirExists : bool :=
  path_exists W (guest_abs_encoder_destination (readSettings W).1).
Definition hostDirExists : bool :=
  path_exists W (host_abs_decoder_destination (readSettings W).1).

(** The generator when [__init__] starts to register modules. *)
Definition blank : Generator :=
  mkGenerator ∅ [] [] None None false None (readSettings W).1 "" "" ""
              (init_suppress_option W).1.1 (init_suppress_option W).1.2 ""
              ((init_suppress_option W).2 ++ (readSettings W).2) [].

(** The generator when [__init__] has registered modules and wrappers and
    has yet to collect the source entries. *)
Definition registered (scripts : string) : Generator :=
  sequence wrapperRegistrations (sequence (moduleRegistrations W scripts) blank).

(** What holds of the generator from the first registration of
    [__init__] to the end of it: the settings are those read from the
    environment, the names of [self.moduleList] are the keys of
    [self.modules], every module is as it was constructed, every wrapper
    holds a registered module, no feature is active and nothing has been
    called or written. *)
Definition constructed (g : Generator) : Prop :=
  settings g = (readSettings W).1 /\
  (forall n, is_Some (modules g !! n) <-> n ∈ moduleList g) /\
  map_Forall (fun _ m => suppress m = false /\ header m = "" /\ impl m = "" /\
                         headerFile m = None /\ implFile m = None) (modules g) /\
  (forall w, w ∈ wrappers g -> wmodule w ∈ moduleList g) /\
  feat g = (None, None, false, None) /\
  trace g = [] /\
  outFile g = "" /\
  (suppressEnabled g, suppressExceptModule g) = (init_suppress_option W).1.

(** The same while the source entries are yet to be collected. *)
Definition wellFormed (g : Generator) : Prop :=
  constructed g /\
  (guestAndroidMkCppFiles g, hostCMakeCppFiles g, hostDecoderCMakeCppFiles g)
    = ("", "", "").

(** A statement that registers modules under the names [ns]. *)
Definition registers (stmt : Generator -> Generator) (ns : list string) : Prop :=
  forall g, wellFormed g ->
            wellFormed (stmt g) /\
            moduleList (stmt g) = moduleList g ++ ns /\
            wrappers (stmt g) = wrappers g.

(** A statement that binds the wrappers [ws] when the names of the modules
    are [L]. *)
Definition binds (L : list string) (stmt : Generator -> Generator)
                 (ws : list Wrapper) : Prop :=
  forall g, wellFormed g -> moduleList g = L ->
            wellFormed (stmt g) /\
            moduleList (stmt g) = L /\
            wrappers (stmt g) = wrappers g ++ ws.

End InitSpec.

(** The module objects of a generator in the order of registration. *)
Definition moduleObjects (g : Generator) : list Module :=
  omap (fun n => modules g !! n) (moduleList g).

(** Strings one after the other. *)
Definition joined (l : list string) : string := foldr String.append "" l.

(** A block lists an entry. *)
Definition lists (block entry : string) : Prop :=
  exists before after, block = before +:+ entry +:+ after.

Definition guestModuleNames : list string :=
  ["VkEncoder"; "goldfish_vk_extension_structs_guest"; "goldfish_vk_marshaling_guest";
   "goldfish_vk_reserved_marshaling_guest"; "goldfish_vk_deepcopy_guest";
   "goldfish_vk_counting_guest"; "goldfish_vk_transform_guest";
   "vulkan_gfxstream_structure_type_guest"; "func_table"].

Definition commonModuleNames : list string :=
  ["goldfish_vk_extension_structs"; "goldfish_vk_marshaling";
   "goldfish_vk_reserved_marshaling"; "goldfish_vk_deepcopy"; "goldfish_vk_handlemap";
   "goldfish_vk_dispatch"; "goldfish_vk_transform"].

(** The names [__init__] registers, by what exists of the two
    destinations. *)
Definition initModuleList (guest host : bool) : list string :=
  (if guest then guestModuleNames else []) ++
  commonModuleNames ++
  (if host then ["VkDecoder"; "VkDecoderSnapshot"; "VkSubDecoder"] else []) ++
  ["ApiLogDecoder"] ++
  (if host then ["vulkan_gfxstream_structure_type_host";
                 "vk_android_native_buffer_structure_type"] else []).

(** The wrappers [__init__] keeps: class and name of the module. *)
Definition initWrappers (guest host : bool) : list (WrapperType * string) :=
  (if guest then
     [(VulkanEncoder, "VkEncoder");
      (VulkanExtensionStructs, "goldfish_vk_extension_structs_guest");
      (VulkanMarshaling, "goldfish_vk_marshaling_guest");
      (VulkanReservedMarshaling, "goldfish_vk_reserved_marshaling_guest");
      (VulkanDeepcopy, "goldfish_vk_deepcopy_guest");
      (VulkanCounting, "goldfish_vk_counting_guest");
      (VulkanTransform, "goldfish_vk_transform_guest");
      (VulkanFuncTable, "func_table")]
   else []) ++
  [(VulkanExtensionStructs, "goldfish_vk_extension_structs");
   (VulkanMarshaling, "goldfish_vk_marshaling");
   (VulkanReservedMarshaling, "goldfish_vk_reserved_marshaling");
   (VulkanDeepcopy, "goldfish_vk_deepcopy");
   (VulkanHandleMap, "goldfish_vk_handlemap");
   (VulkanDispatch, "goldfish_vk_dispatch");
   (VulkanTransform, "goldfish_vk_transform")] ++
  (if host then
     [(VulkanDecoder, "VkDecoder");
      (VulkanDecoderSnapshot, "VkDecoderSnapshot");
      (VulkanSubDecoder, "VkSubDecoder")]
   else []) ++
  [(ApiLogDecoder, "ApiLogDecoder")] ++
  (if guest then [(VulkanGfxstreamStructureType, "vulkan_gfxstream_structure_type_guest")]
   else []) ++
  (if host then
     [(VulkanGfxstreamStructureType, "vulkan_gfxstream_structure_type_host");
      (VulkanAndroidNativeBufferStructureType, "vk_android_native_buffer_structure_type")]
   else []).

(** ** Source entries *)

(** The three accumulators of source entries. *)
Definition accumulators (g : Generator) : string * string * string :=
  (guestAndroidMkCppFiles g, hostCMakeCppFiles g, hostDecoderCMakeCppFiles g).

(** Everything of the generator but the accumulators. *)
Definition registry (g : Generator) :=
  (modules g, moduleList g, wrappers g, settings g, feat g, trace g, outFile g,
   suppressEnabled g, suppressExceptModule g, stdout g).

(** The entries [addSrcEntry] collects from a list of modules, by the tag
    of the directory. *)
Definition guestEntries (W : World) (ms : list Module) : string :=
  joined (map (getMakefileSrcEntry W)
              (filter (fun m => directory m = guest_encoder_tag) ms)).

Definition hostDecoderEntries (W : World) (ms : list Module) : string :=
  joined (map (getCMakeSrcEntry W)
              (filter (fun m => directory m = host_tag) ms)).

Definition hostEntries (W : World) (ms : list Module) : string :=
  joined (map (getCMakeSrcEntry W)
              (filter (fun m => directory m ≠ guest_encoder_tag ∧ directory m ≠ host_tag) ms)).

(** The loop [self.forEachModule(addSrcEntry)] over the names [l]. *)
Definition collectSrcEntries (W : World) (l : list string) (g : Generator) : Generator :=
  foldl (fun g n => match modules g !! n with
                    | Some m => addSrcEntry W m g
                    | None => g
                    end) g l.

(** ** A whole run *)

(** What the statements of [__init__] that register modules and wrappers
    read and write. *)
Definition core (g : Generator) :=
  (modules g, moduleList g, wrappers g, settings g).

(** The names of [self.moduleList] under which [forEachModule] finds a
    module. *)
Definition registeredNames (g : Generator) : list string :=
  filter (fun n => from_option (fun _ : Module => true) false (modules g !! n) = true)
         (moduleList g).

(** The second half of [beginFile]: the modules are begun, the wrappers
    are told. *)
Definition beginCalls (W : World) (directory : string) (g : Generator) : Generator :=
  forEachWrapper (callWrapper W onBegin) None
    (forEachModule (fun n _ => callModule n (m_begin directory)) g).

Definition beginTrace (directory : string) (g : Generator) : list Call :=
  map (fun n => ModuleCall n (m_begin directory)) (registeredNames g) ++
  map (fun i => WrapperCall i onBegin) (selectedPositions None (wrappers g)).

Definition endTrace (g : Generator) : list Call :=
  [TypeInfoCall onEnd] ++
  map (fun i => WrapperCall i onEnd) (selectedPositions None (wrappers g)) ++
  map (fun n => ModuleCall n m_end) (registeredNames g).

(** The calls of a traversal, from a generator with no supported feature
    active. *)
Definition runTrace (directory : string) (fs : list Feature) (g : Generator) : list Call :=
  beginTrace directory g ++ concat (map (featureTrace g) fs) ++ endTrace g.

(** The loop [self.forEachModule(enableSuppression)] over the names [l]. *)
Definition suppressAll (l : list string) (g : Generator) : Generator :=
  foldl (fun g k => match modules g !! k with
                    | Some m => enableSuppression k m g
                    | None => g
                    end) g l.

(** The first half of [beginFile] when the suppression switch is on and
    names a module: every registered module is suppressed and the one of
    the switch is released. *)
Definition suppressAllBut (kept : string) (g : Generator) : Generator :=
  set_modules
    (alter (set_suppress false) kept (modules (suppressAll (moduleList g) g)))
    (suppressAll (moduleList g) g).

(** What the calls of a run leave alone. *)
Definition frame (g : Generator) :=
  (fixed g, feat g, trace g).

(** The world with the suppression switch taken out of the environment. *)
Definition unsuppressed (W : World) : World :=
  mkWorld (delete "ANDROID_EMU_VK_CEREAL_SUPPRESS" (environ W))
          (path_exists W) (getcwd W) (banner W) (copyrightHeader W)
          (autogeneratedHeaderTemplate W) (autogeneratedMkTemplate W)
          (namespaceBegin W) (namespaceEnd W) (includes W)
          (getMakefileSrcEntry W) (getCMakeSrcEntry W) (wrapperEmit W).

(** A statement of [__init__] that reads and writes nothing but the
    modules, the list of their names, the wrappers and the settings. *)
Definition onCore (stmt : Generator -> Generator) : Prop :=
  forall g g', core g = core g' -> core (stmt g) = core (stmt g').

(** ** A small world *)

(** A process environment with the three destinations set, a file system
    in which the guest and the host destination exist or not, short texts
    for the templates, and wrappers that append a line per callback. *)
Definition sampleWorld (guest host : bool) (switch : option string) : World :=
  mkWorld
    (<["VK_CEREAL_HOST_SCRIPTS_DIR" := "scripts"]>
       (<["VK_CEREAL_GUEST_ENCODER_DIR" := "guest"]>
          (<["VK_CEREAL_HOST_DECODER_DIR" := "hostdir"]>
             (match switch with
              | Some s => {["ANDROID_EMU_VK_CEREAL_SUPPRESS" := s]}
              | None => ∅
              end))))
    (fun p => if decide (p = "guest") then guest
              else if decide (p = "hostdir") then host else false)
    "/cwd" "genvk.py" "// copyright"
    (fun a b => "// module " +:+ a +:+ b) (fun a => "# " +:+ a)
    "namespace {" "}"
    (fun n => "// " +:+ n)
    (fun m => basename m +:+ ".cpp ")
    (fun m => basename m +:+ ".cpp ")
    (fun w tr cb =>
       match cb with
       | onGenGroup elem _ _ =>
           match wtype w with
           | VulkanGfxstreamStructureType => VulkanGfxstreamStructureType_onGenGroup elem
           | _ => [toHeader "group;"]
           end
       | _ => [toHeader "decl;"; toImpl "code;"]
       end).

(** A feature that requires one command and defines a type, a struct and
    a command. *)
Definition sampleFeature (name : string) : Feature :=
  mkFeature
    (Elem "feature" {["name" := name]} None None
          [Elem "require" ∅ None None
                [Elem "command" {["name" := "vkFoo"]} None None []]])
    true
    [TypeDef (Elem "type" ∅ None None []) "int" None;
     TypeDef (Elem "type" ∅ None None []) "VkFoo" None;
     StructDef (Elem "type" ∅ None None []) "VkBar" None;
     CmdDef (Elem "command" ∅ None None []) "vkFoo" None].

(** A registry with the three sections, and a gfxstream file for it: a
    type and an extension that the registry has, a type and an extension
    that it has not, and a command, which a [<proto>] names. *)
Definition sampleRegistry : Element :=
  Elem "registry" ∅ None None
    [Elem "comment" ∅ (Some "Khronos") None [];
     Elem "types" ∅ None None
       [Elem "type" {["name" := "VkNativeBufferANDROID"]} (Some "struct") None
             [Elem "member" ∅ None None []];
        Elem "type" {["name" := "VkFoo"]} None None []];
     Elem "commands" ∅ None None
       [Elem "command" ∅ None None
             [Elem "proto" ∅ None None [Elem "name" ∅ (Some "vkFoo") None []]]];
     Elem "extensions" ∅ None None
       [Elem "extension" {["name" := "VK_MVK_moltenvk"; "number" := "1"]} None None
             [Elem "require" ∅ None None [Elem "enum" {["name" := "A"]} None None []]]]].

Definition sampleGfxstream : Element :=
  Elem "registry" ∅ None None
    [Elem "types" ∅ None None
       [Elem "type" {["name" := "VkNativeBufferANDROID"; "category" := "struct"]}
             None None [Elem "member" ∅ (Some "int") None []];
        Elem "type" {["name" := "VkBar"]} None None []];
     Elem "commands" ∅ None None
       [Elem "command" ∅ None None
             [Elem "proto" ∅ None None [Elem "name" ∅ (Some "vkFoo") None []]]];
     Elem "extensions" ∅ None None
       [Elem "extension" {["name" := "VK_MVK_moltenvk"; "supported" := "vulkan"]}
             None None
             [Elem "require" ∅ None None
                   [Elem "command" {["name" := "vkBar"]} None None []]];
        Elem "extension" {["name" := "VK_GOOGLE_gfxstream"]} None None []]].


(** What a computation returns, or [d] when it raises. *)
Definition returned {A} (d : A) (r : result A) : A :=
  match r with
  | Ok a => a
  | Raise _ => d
  end.

(** The generator [__init__] leaves in a sample world. *)
Definition sampleGenerator (guest host : bool) (switch : option string) : Generator :=
  returned (blank (sampleWorld guest host switch)) (init (sampleWorld guest host switch)).

(** The generator after begin-file in a sample world. *)
Definition sampleBegun (guest host : bool) (switch : option string) : Generator :=
  returned (blank (sampleWorld guest host switch))
           (beginFile (sampleWorld guest host switch) "out"
                      (sampleGenerator guest host switch)).

(** The generator at the end of a run in a sample world. *)
Definition sampleRun (guest host : bool) (switch : option string)
                     (fs : list Feature) : Generator :=
  returned (blank (sampleWorld guest host switch))
           (main (sampleWorld guest host switch) "out" fs).

(** The module registered under a name, or an empty script when there is
    none. *)
Definition moduleOf (g : Generator) (n : string) : Module :=
  default (mkModule PyScript "" "" None false false false false "" "" "" "" "" "" None None)
          (modules g !! n).

End Observe.

(** * Properties of the registry merge *)

Module GenvkFacts.
Import XmlTree Genvk Observe.

Lemma find_index_Some (t : string) (l : list Element) (i : nat) :
  find_index t l = Some i -> exists c, l !! i = Some c /\ tag c = t.
Proof.
  revert i. induction l as [|c l IH]; intros i; simpl; [done|].
  destruct (decide (tag c = t)) as [Ht|Ht].
  - intros [= <-]. by exists c.
  - destruct (find_index t l) as [k|]; [|done]. intros [= <-]. apply IH. done.
Qed.

Lemma find_is_Some (e : Element) (t : string) :
  is_Some (find e t) <-> is_Some (find_index t (children e)).
Proof.
  unfold find. destruct (find_index t (children e)) as [i|] eqn:E; simpl.
  - destruct (find_index_Some _ _ _ E) as (c & -> & _). split; eauto.
  - split; intros [? ?]; done.
Qed.

(** Replacing an element by one of the same tag moves no [find]. *)
Lemma find_index_insert (t : string) (l : list Element) (k : nat) (c c' : Element) :
  l !! k = Some c -> tag c' = tag c -> find_index t (<[k := c']> l) = find_index t l.
Proof.
  revert k. induction l as [|x l IH]; intros k; [done|].
  destruct k as [|k]; simpl.
  - intros [= ->] ->. done.
  - intros Hk Ht. by rewrite (IH k Hk Ht).
Qed.

Lemma find_index_alter (t : string) (f : Element -> Element) (l : list Element) (k : nat) :
  (forall c, tag (f c) = tag c) -> find_index t (alter f k l) = find_index t l.
Proof.
  intros Hf. revert k. induction l as [|x l IH]; intros k; [done|].
  destruct k as [|k]; simpl.
  - by rewrite Hf.
  - destruct (decide (tag x = t)); [done|]. f_equal. apply IH.
Qed.

Lemma buildEntryDict_placeOf (entries : list Element) :
  forall i d s,
    buildEntryDict i entries d !! s =
    match placeOf s entries with
    | Some k => Some (i + k)
    | None => d !! s
    end.
Proof.
  induction entries as [|entry rest IH]; intros i d s; simpl; [done|].
  assert (buildEntryDict (S i) rest
            (match stringName entry with
             | Some name => <[name := i]> d
             | None => d
             end) !! s =
          match placeOf s (entry :: rest) with
          | Some k => Some (i + k)
          | None => d !! s
          end) as H.
  { rewrite IH. simpl. destruct (placeOf s rest) as [k|]; [f_equal; lia|].
    destruct (stringName entry) as [name|].
    - destruct (decide (Some name = Some s)) as [[= ->]|Hne].
      + rewrite lookup_insert_eq. f_equal. lia.
      + rewrite lookup_insert_ne by congruence. done.
    - by rewrite decide_False. }
  simpl in H. rewrite <- H. unfold stringName.
  by destruct (getEntryName entry) as [[name|e]|].
Qed.

(** The dictionary gives for a name its place in the section. *)
Lemma originalEntryDict_placeOf (base : list Element) (s : string) :
  originalEntryDict base !! s = placeOf s base.
Proof.
  unfold originalEntryDict. rewrite buildEntryDict_placeOf, lookup_empty.
  by destruct (placeOf s base).
Qed.

Lemma dictLookup_target (base : list Element) (entry : Element) :
  dictLookup (originalEntryDict base) (getEntryName entry) = target base entry.
Proof.
  unfold target, stringName, dictLookup.
  destruct (getEntryName entry) as [[s|e]|]; simpl; [|done..].
  apply originalEntryDict_placeOf.
Qed.

Lemma placeOf_Some (s : string) (entries : list Element) (i : nat) :
  placeOf s entries = Some i ->
  exists b, entries !! i = Some b /\ stringName b = Some s /\
            forall j b', i < j -> entries !! j = Some b' -> stringName b' ≠ Some s.
Proof.
  revert i. induction entries as [|b rest IH]; intros i; simpl; [done|].
  destruct (placeOf s rest) as [k|] eqn:E.
  - intros [= <-]. destruct (IH k eq_refl) as (b0 & Hb & Hn & Hlast).
    exists b0. split; [done|]. split; [done|].
    intros j b' Hj. destruct j as [|j]; [lia|]. simpl. apply Hlast. lia.
  - destruct (decide (stringName b = Some s)) as [Hn|Hn]; [|done].
    intros [= <-]. exists b. split; [done|]. split; [done|].
    intros j b' Hj Hb'. destruct j as [|j]; [lia|]. simpl in Hb'.
    clear IH Hj. revert j Hb'. induction rest as [|x rest IH]; intros j; [done|].
    simpl in E. destruct (placeOf s rest) as [k|]; [done|].
    destruct (decide (stringName x = Some s)) as [|Hx]; [done|].
    destruct j as [|j]; simpl; [by intros [= <-] | by apply IH].
Qed.

Lemma placeOf_None (s : string) (entries : list Element) :
  placeOf s entries = None <-> Forall (fun b => stringName b ≠ Some s) entries.
Proof.
  induction entries as [|b rest IH]; simpl; [done|].
  rewrite Forall_cons. destruct (placeOf s rest) as [k|].
  - split; [done|]. intros [_ H]. by apply IH in H.
  - destruct (decide (stringName b = Some s)) as [Hn|Hn].
    + split; [done | by intros [? _]].
    + split; [intros _; split; [done | by apply IH] | done].
Qed.

Lemma target_lt (base : list Element) (entry : Element) (i : nat) :
  target base entry = Some i -> i < length base.
Proof.
  unfold target. destruct (stringName entry) as [s|]; simpl; [|done].
  intros (b & Hb & _)%placeOf_Some. by apply lookup_lt_Some in Hb.
Qed.

Lemma withEntries_children (e : Element) : withEntries e (children e) = e.
Proof. by destruct e. Qed.

(** ** One entry after the other *)

Lemma alter_withEntries_nil (j : nat) (l : list Element) :
  alter (fun r => withEntries r (children r ++ [])) j l = l.
Proof.
  apply list_eq. intros k. rewrite list_lookup_alter.
  destruct (decide (j = k)) as [->|]; [|done].
  destruct (l !! k) as [r|]; [|done]. simpl.
  by rewrite app_nil_r, withEntries_children.
Qed.

Lemma extended_nil (b : Element) : extended b [] = b.
Proof.
  unfold extended. cbn [foldl fmap list_fmap concat].
  destruct (find_index "require" (children b)) as [j|].
  - rewrite alter_withEntries_nil. by destruct b.
  - by destruct b.
Qed.

Lemma extended_cons (b e : Element) (es : list Element) :
  extended b (e :: es) = extended (extended b [e]) es.
Proof.
  unfold extended at 1 3. cbn [tag attrib text tail children foldl].
  f_equal.
  unfold extended. cbn [children fmap list_fmap concat].
  destruct (find_index "require" (children b)) as [j|] eqn:Hj.
  - rewrite find_index_alter by done. rewrite Hj.
    rewrite list_alter_alter_eq. f_equal.
    apply list_eq. intros k. rewrite !list_lookup_alter.
    destruct (decide (j = k)); [|done].
    destruct (children b !! j) as [r|]; [|done]. simpl. unfold withEntries. simpl.
    by rewrite app_nil_r, <- app_assoc.
  - by rewrite Hj.
Qed.

Lemma overwritten_cons (b e : Element) (es : list Element) :
  overwritten b (e :: es) = overwritten (overwritten b [e]) es.
Proof.
  unfold overwritten. rewrite last_cons. simpl. by destruct (last es).
Qed.

Lemma mergedEntry_nil (s : string) (b : Element) : mergedEntry s b [] = b.
Proof.
  unfold mergedEntry. destruct (decide _); [apply extended_nil|]. by destruct (decide _).
Qed.

Lemma mergedEntry_cons (s : string) (b e : Element) (es : list Element) :
  mergedEntry s b (e :: es) = mergedEntry s (mergedEntry s b [e]) es.
Proof.
  unfold mergedEntry. destruct (decide _); [apply extended_cons|].
  destruct (decide _); [apply overwritten_cons | done].
Qed.

Lemma find_extended (b : Element) (es : list Element) :
  is_Some (find b "require") -> is_Some (find (extended b es) "require").
Proof.
  rewrite !find_is_Some. unfold extended. simpl.
  destruct (find_index "require" (children b)) as [j|] eqn:Hj; [|by intros [? ?]].
  intros _. rewrite find_index_alter by done. rewrite Hj. eauto.
Qed.

(** The extensions branch on one entry. *)
Lemma extendEntry_extended (entry originalEntry : Element) :
  requireChildren entry = [] \/ is_Some (find originalEntry "require") ->
  extendEntry entry originalEntry = Ok (extended originalEntry [entry]).
Proof.
  intros H. unfold extendEntry, extended, requireChildren in *. simpl.
  rewrite app_nil_r.
  assert (forall j : nat,
            alter (fun r => withEntries r (children r ++ [])) j (children originalEntry)
            = children originalEntry) as Hid by (intros j; apply alter_withEntries_nil).
  destruct (find entry "require") as [require|]; simpl.
  - unfold appendToRequire, copyAttributes. simpl.
    destruct (children require) as [|c cs] eqn:Hc.
    + destruct (find_index "require" (children originalEntry)) as [j|] eqn:Hj; [|done].
      by rewrite (Hid j).
    + destruct H as [H|H]; [done|]. apply find_is_Some in H as [j Hj]. rewrite Hj.
      destruct (find_index_Some _ _ _ Hj) as (req & Hreq & _). rewrite Hreq.
      do 2 f_equal. apply list_eq. intros k.
      rewrite list_lookup_alter, list_lookup_insert.
      destruct (decide (j = k)) as [->|Hne].
      * rewrite decide_True by (split; [done | by apply lookup_lt_Some in Hreq]).
        by rewrite Hreq.
      * rewrite decide_False by tauto. done.
  - unfold copyAttributes.
    destruct (find_index "require" (children originalEntry)) as [j|] eqn:Hj; [|done].
    by rewrite (Hid j).
Qed.

(** One turn of the loop on an entry that is new. *)
Lemma mergeEntry_new (s : string) (base cur : list Element) (entry : Element) :
  target base entry = None ->
  mergeEntry s (originalEntryDict base) cur entry = Ok (cur ++ [entry]).
Proof. intros H. unfold mergeEntry. by rewrite dictLookup_target, H. Qed.

(** One turn of the loop on an entry that meets a base entry. *)
Lemma mergeEntry_meets (s : string) (base kept appended : list Element)
                       (entry c : Element) (i : nat) :
  target base entry = Some i ->
  kept !! i = Some c ->
  (s = "extensions" -> requireChildren entry = [] \/ is_Some (find c "require")) ->
  mergeEntry s (originalEntryDict base) (kept ++ appended) entry =
  Ok (<[i := mergedEntry s c [entry]]> kept ++ appended).
Proof.
  intros Ht Hc Hreq. unfold mergeEntry. rewrite dictLookup_target, Ht.
  rewrite lookup_app_l by (by apply lookup_lt_Some in Hc). rewrite Hc.
  assert (forall x, <[i := x]> (kept ++ appended) = <[i := x]> kept ++ appended) as Hins
    by (intros x; apply insert_app_l; by apply lookup_lt_Some in Hc).
  unfold mergedEntry. destruct (decide (s = "extensions")) as [Hs|Hs].
  - rewrite (extendEntry_extended _ _ (Hreq Hs)). cbn [mbind result_bind].
    by rewrite Hins.
  - destruct (decide (s = "types")); [|by rewrite (list_insert_id kept i c Hc)].
    rewrite Hins. unfold overwriteEntry, overwritten. done.
Qed.

Lemma mergeEntries_spec (s : string) (base : list Element) :
  forall gfx kept appended,
    length kept = length base ->
    (s = "extensions" ->
     forall e i c, e ∈ gfx -> target base e = Some i -> kept !! i = Some c ->
                   requireChildren e = [] \/ is_Some (find c "require")) ->
    mergeEntries s (originalEntryDict base) (kept ++ appended) gfx =
    Ok (imap (fun i c => mergedEntry s c (filter (fun e => target base e = Some i) gfx)) kept
        ++ appended ++ filter (fun e => target base e = None) gfx).
Proof.
  induction gfx as [|e gfx IH]; intros kept appended Hlen Hreq.
  - simpl. rewrite app_nil_r. do 2 f_equal.
    apply list_eq. intros k. rewrite list_lookup_imap.
    destruct (kept !! k) as [c|]; [|done]. simpl. by rewrite mergedEntry_nil.
  - cbn [mergeEntries]. destruct (target base e) as [i|] eqn:Ht.
    + pose proof (target_lt _ _ _ Ht) as Hi. rewrite <- Hlen in Hi.
      destruct (lookup_lt_is_Some_2 kept i Hi) as [c Hc].
      rewrite (mergeEntry_meets s base kept appended e c i Ht Hc)
        by (intros Hs; apply (Hreq Hs e i c); [left | done | done]).
      cbn [mbind result_bind]. rewrite IH.
      * rewrite (filter_cons_False _ e) by congruence. do 2 f_equal.
        apply list_eq. intros k. rewrite !list_lookup_imap, list_lookup_insert.
        destruct (decide (i = k ∧ i < length kept)) as [[<- _]|Hne].
        -- rewrite Hc. cbn [fmap option_fmap option_map].
           rewrite (filter_cons_True _ e) by done.
           f_equal. symmetry. apply mergedEntry_cons.
        -- rewrite (filter_cons_False _ e); [done|].
           intros H. apply Hne. split; [congruence | done].
      * by rewrite length_insert.
      * intros Hs e' i' c' He' Ht' Hc'. rewrite list_lookup_insert in Hc'.
        destruct (decide (i = i' ∧ i < length kept)) as [[<- _]|Hne].
        -- injection Hc' as <-. destruct (Hreq Hs e' i c) as [H|H]; [by right|done|done|by left|].
           right. unfold mergedEntry. rewrite decide_True by done. by apply find_extended.
        -- apply (Hreq Hs e' i' c'); [by right | done | done].
    + rewrite (mergeEntry_new s base _ e Ht). cbn [mbind result_bind].
      rewrite <- app_assoc. rewrite IH; [|done|].
      * rewrite (filter_cons_True _ e) by done. rewrite <- app_assoc. do 2 f_equal.
        apply list_eq. intros k. rewrite !list_lookup_imap.
        destruct (kept !! k); [|done]. simpl.
        rewrite (filter_cons_False _ e); [done|]. congruence.
      * intros Hs e' i' c' He'. apply (Hreq Hs). by right.
Qed.

Lemma elem_of_sections (s : string) :
  s ∈ sections <-> s = "types" \/ s = "commands" \/ s = "extensions".
Proof.
  unfold sections. rewrite !elem_of_cons, elem_of_nil. tauto.
Qed.

(** The loop over a section of the gfxstream file. *)
Lemma mergeEntries_mergedSection (s : string) (base gfx : list Element) :
  (s = "extensions" -> requireBlocks base gfx) ->
  mergeEntries s (originalEntryDict base) base gfx = Ok (mergedSection s base gfx).
Proof.
  intros H. rewrite <- (app_nil_r base) at 2.
  rewrite (mergeEntries_spec s base gfx base []); [done | done |].
  intros Hs e i c He Ht Hc. specialize (H Hs).
  destruct (proj1 (Forall_forall _ _) H e He) as [Hr|[Hr|Hr]]; [by left | congruence |].
  right. rewrite Ht in Hr. cbn [mbind option_bind] in Hr. by rewrite Hc in Hr.
Qed.

(** One round of the loop over the sections. *)
Lemma mergeSection_spec (s : string) (root gfxRoot section : Element) (k : nat) :
  find_index s (children root) = Some k ->
  children root !! k = Some section ->
  is_Some (find gfxRoot s) ->
  (s = "extensions" -> requireBlocks (children section) (entries s gfxRoot)) ->
  mergeSection s root gfxRoot =
  Ok (withEntries root
        (<[k := withEntries section
                  (mergedSection s (children section) (entries s gfxRoot))]>
           (children root))).
Proof.
  intros Hk Hsec [gfxSection Hg] Hreq. unfold mergeSection, entries in *.
  rewrite Hk, Hsec, Hg in *. cbn [from_option] in *.
  by rewrite (mergeEntries_mergedSection s _ _ Hreq).
Qed.

Lemma find_withEntries_insert (t : string) (root c c' : Element) (k : nat) :
  children root !! k = Some c -> tag c' = tag c ->
  find (withEntries root (<[k := c']> (children root))) t =
  if decide (find_index t (children root) = Some k) then Some c' else find root t.
Proof.
  intros Hc Ht. unfold find. cbn [withEntries children].
  rewrite (find_index_insert t _ k c c' Hc Ht).
  destruct (find_index t (children root)) as [j|] eqn:Hj; cbn [mbind option_bind].
  - rewrite list_lookup_insert. destruct (decide (k = j)) as [->|Hne].
    + rewrite !decide_True; [done | done |]. split; [done | by apply lookup_lt_Some in Hc].
    + rewrite !decide_False; [done | congruence | tauto].
  - by rewrite decide_False.
Qed.

Lemma find_index_find (t : string) (root : Element) (k : nat) :
  find_index t (children root) = Some k -> find root t = children root !! k.
Proof. intros H. unfold find. by rewrite H. Qed.

(** The three rounds of the merge. *)
Lemma mergeRegistry_merged (treeRoot gfxRoot : Element) :
  Forall (fun s => is_Some (find treeRoot s) /\ is_Some (find gfxRoot s)) sections ->
  requireBlocks (entries "extensions" treeRoot) (entries "extensions" gfxRoot) ->
  exists merged,
    mergeRegistry treeRoot (Some gfxRoot) = Ok merged /\
    (forall s,
       s ∈ sections ->
       find merged s =
       (fun section =>
          withEntries section
            (mergedSection s (children section) (entries s gfxRoot))) <$> find treeRoot s) /\
    (forall k,
       (forall s, s ∈ sections -> find_index s (children treeRoot) ≠ Some k) ->
       children merged !! k = children treeRoot !! k) /\
    length (children merged) = length (children treeRoot) /\
    withEntries merged [] = withEntries treeRoot [] /\
    mergeRegistry treeRoot None = Ok treeRoot.
Proof.
  intros Hsec Hreq.
  assert (forall s, s ∈ sections ->
            exists k c, find_index s (children treeRoot) = Some k /\
                        children treeRoot !! k = Some c /\ tag c = s /\
                        is_Some (find gfxRoot s)) as Hat.
  { intros s Hs. destruct (proj1 (Forall_forall _ _) Hsec s Hs) as [[k Hk]%find_is_Some Hg].
    destruct (find_index_Some _ _ _ Hk) as (c & Hc & Ht). by exists k, c. }
  destruct (Hat "types") as (k1 & c1 & Hk1 & Hc1 & Ht1 & Hg1); [apply elem_of_sections; tauto|].
  destruct (Hat "commands") as (k2 & c2 & Hk2 & Hc2 & Ht2 & Hg2); [apply elem_of_sections; tauto|].
  destruct (Hat "extensions") as (k3 & c3 & Hk3 & Hc3 & Ht3 & Hg3); [apply elem_of_sections; tauto|].
  assert (k1 ≠ k2 /\ k1 ≠ k3 /\ k2 ≠ k3) as (H12 & H13 & H23).
  { repeat split; intros ->; congruence. }
  assert (entries "extensions" treeRoot = children c3) as He3.
  { unfold entries. by rewrite (find_index_find _ _ _ Hk3), Hc3. }
  rewrite He3 in Hreq.
  set (e1 := withEntries c1 (mergedSection "types" (children c1) (entries "types" gfxRoot))).
  set (e2 := withEntries c2 (mergedSection "commands" (children c2)
                                           (entries "commands" gfxRoot))).
  set (e3 := withEntries c3 (mergedSection "extensions" (children c3)
                                           (entries "extensions" gfxRoot))).
  set (r1 := withEntries treeRoot (<[k1 := e1]> (children treeRoot))).
  set (r2 := withEntries r1 (<[k2 := e2]> (children r1))).
  set (r3 := withEntries r2 (<[k3 := e3]> (children r2))).
  assert (mergeSection "types" treeRoot gfxRoot = Ok r1) as M1
    by (by apply mergeSection_spec).
  assert (find_index "commands" (children r1) = Some k2 /\
          children r1 !! k2 = Some c2 /\
          find_index "extensions" (children r1) = Some k3 /\
          children r1 !! k3 = Some c3) as (Hk2' & Hc2' & Hk3' & Hc3').
  { unfold r1. cbn [withEntries children].
    rewrite !(find_index_insert _ _ k1 c1 e1 Hc1 eq_refl).
    by rewrite !list_lookup_insert_ne. }
  assert (mergeSection "commands" r1 gfxRoot = Ok r2) as M2
    by (by apply mergeSection_spec).
  assert (find_index "extensions" (children r2) = Some k3 /\
          children r2 !! k3 = Some c3) as (Hk3'' & Hc3'').
  { unfold r2. cbn [withEntries children].
    rewrite !(find_index_insert _ _ k2 c2 e2 Hc2' eq_refl).
    by rewrite !list_lookup_insert_ne. }
  assert (mergeSection "extensions" r2 gfxRoot = Ok r3) as M3
    by (by apply mergeSection_spec).
  exists r3. split; [|split; [|split; [|split; [|split]]]].
  - unfold mergeRegistry. rewrite M1. cbn [mbind result_bind]. rewrite M2.
    cbn [mbind result_bind]. exact M3.
  - intros s Hs.
    assert (forall t, find_index t (children r1) = find_index t (children treeRoot)) as F1.
    { intros t. unfold r1. cbn [withEntries children].
      by rewrite (find_index_insert t _ k1 c1 e1 Hc1 eq_refl). }
    assert (forall t, find_index t (children r2) = find_index t (children treeRoot)) as F2.
    { intros t. rewrite <- F1. unfold r2. cbn [withEntries children].
      by rewrite (find_index_insert t _ k2 c2 e2 Hc2' eq_refl). }
    assert (find r1 s = if decide (find_index s (children treeRoot) = Some k1)
                        then Some e1 else find treeRoot s) as G1
      by (unfold r1; apply (find_withEntries_insert s treeRoot c1 e1 k1 Hc1 eq_refl)).
    assert (find r2 s = if decide (find_index s (children treeRoot) = Some k2)
                        then Some e2 else find r1 s) as G2
      by (rewrite <- F1; unfold r2;
          apply (find_withEntries_insert s r1 c2 e2 k2 Hc2' eq_refl)).
    assert (find r3 s = if decide (find_index s (children treeRoot) = Some k3)
                        then Some e3 else find r2 s) as G3
      by (rewrite <- F2; unfold r3;
          apply (find_withEntries_insert s r2 c3 e3 k3 Hc3'' eq_refl)).
    rewrite G3, G2, G1. clear G1 G2 G3 F1 F2.
    apply elem_of_sections in Hs as [->|[->| ->]].
    + rewrite Hk1. rewrite decide_False by congruence. rewrite decide_False by congruence.
      rewrite decide_True by done. by rewrite (find_index_find _ _ _ Hk1), Hc1.
    + rewrite Hk2. rewrite decide_False by congruence. rewrite decide_True by done.
      by rewrite (find_index_find _ _ _ Hk2), Hc2.
    + rewrite Hk3. rewrite decide_True by done.
      by rewrite (find_index_find _ _ _ Hk3), Hc3.
  - intros k Hk. unfold r3, r2, r1. cbn [withEntries children].
    rewrite !list_lookup_insert_ne; [done | | |].
    + intros ->. apply (Hk "types"); [apply elem_of_sections; tauto | done].
    + intros ->. apply (Hk "commands"); [apply elem_of_sections; tauto | done].
    + intros ->. apply (Hk "extensions"); [apply elem_of_sections; tauto | done].
  - unfold r3, r2, r1. cbn [withEntries children]. by rewrite !length_insert.
  - done.
  - done.
Qed.

(** C10.  The merge of a gfxstream registry file into the registry, when
    both have the three sections and every extension that is to receive
    children in its require block has one.  The merge returns, and in the
    registry it leaves, for each of types, commands and extensions:
    - the section is the one of the base registry with other entries: the
      base entries at their places, each merged with the entries of the
      gfxstream section that have its name, and after them, appended in
      the order of the gfxstream file, the entries whose name is the name
      of no base entry;
    - in extensions, a base entry that is met has the attributes of the
      gfxstream entry set over its own and the children of the require
      block of the gfxstream entry appended to its first require block;
    - in types, a base entry that is met keeps its tag and its place:
      attributes and children are those of the gfxstream entry, text and
      tail are cleared;
    - in commands, a base entry that is met stays as it is.
    Nothing else of the registry changes.  Without a gfxstream file the
    registry stays as it is. *)
Theorem merge_gfxstream_registry (treeRoot gfxRoot : Element) :
  Forall (fun s => is_Some (find treeRoot s) /\ is_Some (find gfxRoot s)) sections ->
  requireBlocks (entries "extensions" treeRoot) (entries "extensions" gfxRoot) ->
  exists merged,
    mergeRegistry treeRoot (Some gfxRoot) = Ok merged /\
    (forall s,
       s ∈ sections ->
       find merged s =
       (fun section =>
          withEntries section
            (mergedSection s (children section) (entries s gfxRoot))) <$> find treeRoot s) /\
    (forall k,
       (forall s, s ∈ sections -> find_index s (children treeRoot) ≠ Some k) ->
       children merged !! k = children treeRoot !! k) /\
    length (children merged) = length (children treeRoot) /\
    withEntries merged [] = withEntries treeRoot [] /\
    mergeRegistry treeRoot None = Ok treeRoot.
Proof. exact (mergeRegistry_merged treeRoot gfxRoot). Qed.

(** ** What the merge raises *)

Lemma mergedEntry_commands (b : Element) (es : list Element) :
  mergedEntry "commands" b es = b.
Proof. done. Qed.









(** ** The commands *)


(** ** An extension without a require block *)





End GenvkFacts.

(** * Properties of the generator *)

Module CerealFacts.
Import XmlTree Cereal Observe.

(** ** Lists and strings *)

Lemma string_app_assoc (a b c : string) : (a +:+ b) +:+ c = a +:+ (b +:+ c).
Proof.
  induction a as [|x a IH]; [done|].
  change (String x ((a +:+ b) +:+ c) = String x (a +:+ (b +:+ c))). by f_equal.
Qed.

Lemma string_app_nil_r (a : string) : a +:+ "" = a.
Proof.
  induction a as [|x a IH]; [done|].
  change (String x (a +:+ "") = String x a). by f_equal.
Qed.

Lemma filter_ext_in {A} (P Q : A -> Prop)
    `{!forall x, Decision (P x)} `{!forall x, Decision (Q x)} (l : list A) :
  (forall x, x ∈ l -> P x <-> Q x) -> filter P l = filter Q l.
Proof.
  induction l as [|a l IH]; intros Hext; [done|].
  rewrite !filter_cons.
  rewrite IH by (intros x Hx; apply Hext; by right).
  destruct (decide (P a)) as [Hp|Hp], (decide (Q a)) as [Hq|Hq]; try done.
  - destruct Hq. apply Hext; [by left | done].
  - destruct Hp. apply Hext; [by left | done].
Qed.

Lemma concat_map_if {A B} (P : A -> bool) (f : A -> B) (l : list A) :
  concat (map (fun a => if P a then [f a] else []) l) =
  map f (filter (fun a => P a = true) l).
Proof.
  induction l as [|a l IH]; simpl; [done|].
  rewrite filter_cons. destruct (decide (P a = true)) as [E|E].
  - rewrite E. simpl. by rewrite IH.
  - destruct (P a); [done | by simpl].
Qed.

Lemma foldl_map {A B C} (f : A -> C -> A) (h : B -> C) (l : list B) :
  forall a, foldl (fun a b => f a (h b)) a l = foldl f a (map h l).
Proof. induction l as [|b l IH]; intros a; simpl; [done | by rewrite IH]. Qed.

Lemma foldl_nested {A B C D} (f : A -> D -> A) (k : C -> D) (h : B -> list C)
                   (l : list B) :
  forall a, foldl (fun a b => foldl (fun a c => f a (k c)) a (h b)) a l
            = foldl f a (concat (map (fun b => map k (h b)) l)).
Proof.
  induction l as [|b l IH]; intros a; simpl; [done|].
  rewrite foldl_app, IH. f_equal. apply foldl_map.
Qed.

(** ** Modules under appends *)

Lemma extends_refl m : extends m m.
Proof. repeat split; exists ""; by rewrite string_app_nil_r. Qed.

Lemma extends_trans m1 m2 m3 : extends m1 m2 -> extends m2 m3 -> extends m1 m3.
Proof.
  intros (Hc1 & [h1 Hh1] & [i1 Hi1]) (Hc2 & [h2 Hh2] & [i2 Hi2]). repeat split.
  - congruence.
  - exists (h1 +:+ h2). by rewrite Hh2, Hh1, string_app_assoc.
  - exists (i1 +:+ i2). by rewrite Hi2, Hi1, string_app_assoc.
Qed.

#[export] Instance extends_preorder : PreOrder extends.
Proof. split; [exact extends_refl | exact extends_trans]. Qed.

Lemma extends_appendHeader s m : extends m (Module_appendHeader s m).
Proof.
  unfold Module_appendHeader. destruct (suppress m); [apply extends_refl|].
  repeat split; [by exists s | exists ""; by rewrite string_app_nil_r].
Qed.

Lemma extends_appendImpl s m : extends m (Module_appendImpl s m).
Proof.
  unfold Module_appendImpl. destruct (suppress m); [apply extends_refl|].
  repeat split; [exists ""; by rewrite string_app_nil_r | by exists s].
Qed.

Lemma extends_end m : extends m (Module_end m).
Proof.
  unfold Module_end. destruct (suppress m); [apply extends_refl|].
  repeat split; exists ""; by rewrite string_app_nil_r.
Qed.

Lemma extends_applyOp op m : extends m (applyOp op m).
Proof.
  destruct op; simpl;
    auto using extends_refl, extends_appendHeader, extends_appendImpl, extends_end.
Qed.

Lemma extends_applyAppends (l : list Append) m : extends m (foldl applyAppend m l).
Proof.
  revert m. induction l as [|a l IH]; intros m; simpl; [apply extends_refl|].
  eapply extends_trans; [|apply IH].
  destruct a; simpl; auto using extends_appendHeader, extends_appendImpl.
Qed.

Lemma extends_alter (f : Module -> Module) (ms : gmap string Module) k n :
  (forall m, extends m (f m)) ->
  option_Forall2 extends (ms !! n) (alter f k ms !! n).
Proof.
  intros Hf. destruct (decide (k = n)) as [->|Hne].
  - rewrite lookup_alter_eq. destruct (ms !! n); simpl; constructor. apply Hf.
  - rewrite lookup_alter_ne by done. apply option_Forall2_refl, extends_preorder.
Qed.

Lemma guarded_config m m' : config m = config m' -> guarded m = guarded m'.
Proof.
  unfold config, guarded, isinstance_Module. intros H.
  injection H as H1 _ _ _ _ _ _ H8 _ _ _ _. by rewrite H1, H8.
Qed.

Lemma guarded_extends m m' : extends m m' -> guarded m' = guarded m.
Proof. intros [Hc _]. by apply guarded_config. Qed.

Section Facts.
Context (W : World).

(** ** Modules as a function of the trace *)

Lemma replay_app ws n tr1 : forall pre tr2 m,
  replay W ws n pre (tr1 ++ tr2) m =
  replay W ws n (pre ++ tr1) tr2 (replay W ws n pre tr1 m).
Proof.
  induction tr1 as [|c tr1 IH]; intros pre tr2 m; simpl.
  - by rewrite app_nil_r.
  - rewrite IH. by rewrite <- app_assoc.
Qed.

Lemma extends_replayCall ws n pre c m : extends m (replayCall W ws n pre c m).
Proof.
  destruct c as [cb|i cb|k op]; simpl.
  - apply extends_refl.
  - destruct (ws !! i) as [w|]; [|apply extends_refl].
    destruct (decide _); [apply extends_applyAppends | apply extends_refl].
  - destruct (decide _); [apply extends_applyOp | apply extends_refl].
Qed.

Lemma extends_replay ws n tr : forall pre m, extends m (replay W ws n pre tr m).
Proof.
  induction tr as [|c tr IH]; intros pre m; simpl; [apply extends_refl|].
  eapply extends_trans; [apply extends_replayCall | apply IH].
Qed.

(** Calls on the registry alone leave every module as it is. *)
Lemma replay_typeInfo_only ws n tr :
  Forall (fun c => match c with TypeInfoCall _ => True | _ => False end) tr ->
  forall pre m, replay W ws n pre tr m = m.
Proof.
  induction 1 as [|c tr Hc Htr IH]; intros pre m; simpl; [done|].
  destruct c; try done; simpl; apply IH.
Qed.

(** A suppressed module that has written nothing stays as it is. *)
Lemma applyOp_suppressed op m : suppress m = true -> applyOp op m = m.
Proof.
  intros Hs. destruct op; simpl; try done;
    unfold Module_end, Module_appendHeader, Module_appendImpl; by rewrite Hs.
Qed.

Lemma applyAppends_suppressed (l : list Append) m :
  suppress m = true -> foldl applyAppend m l = m.
Proof.
  intros Hs. induction l as [|a l IH]; simpl; [done|].
  assert (applyAppend m a = m) as ->; [|done].
  destruct a; simpl; unfold Module_appendHeader, Module_appendImpl; by rewrite Hs.
Qed.

Lemma replay_suppressed ws n tr :
  forall pre m, suppress m = true -> replay W ws n pre tr m = m.
Proof.
  induction tr as [|c tr IH]; intros pre m Hs; simpl; [done|].
  assert (replayCall W ws n pre c m = m) as ->; [|by apply IH].
  destruct c as [cb|i cb|k op]; simpl; [done | |].
  - destruct (ws !! i) as [w|]; [|done].
    destruct (decide _); [by apply applyAppends_suppressed | done].
  - destruct (decide _); [by apply applyOp_suppressed | done].
Qed.

(** ** Steps that make calls *)

Lemma moves_extends tr g g' n :
  moves W tr g g' -> option_Forall2 extends (modules g !! n) (modules g' !! n).
Proof.
  intros (_ & Hc & _). rewrite Hc. destruct (modules g !! n); simpl; constructor.
  apply extends_replay.
Qed.

Lemma moves_refl g : moves W [] g g.
Proof.
  repeat split; [|by rewrite app_nil_r].
  intros n. simpl. by destruct (modules g !! n).
Qed.

Lemma moves_moduleList tr g g' : moves W tr g g' -> moduleList g' = moduleList g.
Proof. intros (Hf & _). unfold fixed in Hf. by simplify_eq. Qed.

Lemma moves_wrappers tr g g' : moves W tr g g' -> wrappers g' = wrappers g.
Proof. intros (Hf & _). unfold fixed in Hf. by simplify_eq. Qed.

Lemma moves_trace tr g g' : moves W tr g g' -> trace g' = trace g ++ tr.
Proof. by intros (_ & _ & Ht). Qed.

Lemma moves_trans tr1 tr2 g1 g2 g3 :
  moves W tr1 g1 g2 -> moves W tr2 g2 g3 -> moves W (tr1 ++ tr2) g1 g3.
Proof.
  intros H1 H2. pose proof (moves_wrappers _ _ _ H1) as Hw.
  destruct H1 as (Hf1 & Hc1 & Ht1), H2 as (Hf2 & Hc2 & Ht2). repeat split.
  - congruence.
  - intros n. rewrite Hc2, Hc1, Hw, Ht1.
    destruct (modules g1 !! n); simpl; [|done]. by rewrite replay_app.
  - by rewrite Ht2, Ht1, app_assoc.
Qed.

(** A step that touches neither the modules nor the trace. *)
Lemma moves_silent g g' :
  fixed g' = fixed g -> modules g' = modules g -> trace g' = trace g ->
  moves W [] g g'.
Proof.
  intros Hf Hm Ht. repeat split; [done | | by rewrite Ht, app_nil_r].
  intros n. rewrite Hm. simpl. by destruct (modules g !! n).
Qed.

Lemma calls_refl g : calls W [] g g.
Proof. split; [done | apply moves_refl]. Qed.

Lemma calls_trans tr1 tr2 g1 g2 g3 :
  calls W tr1 g1 g2 -> calls W tr2 g2 g3 -> calls W (tr1 ++ tr2) g1 g3.
Proof.
  intros [Hf1 H1] [Hf2 H2]. split; [congruence | by eapply moves_trans].
Qed.

Lemma calls_callTypeInfo cb g : calls W [TypeInfoCall cb] g (callTypeInfo cb g).
Proof.
  split; [done|]. repeat split. intros n. simpl. by destruct (modules g !! n).
Qed.

Lemma calls_callModule n op g : calls W [ModuleCall n op] g (callModule n op g).
Proof.
  split; [done|]. repeat split. intros k. simpl.
  destruct (decide (n = k)) as [->|Hne].
  - rewrite lookup_alter_eq. by destruct (modules g !! k).
  - rewrite lookup_alter_ne by done. by destruct (modules g !! k).
Qed.

Lemma calls_callWrapper cb i w g :
  wrappers g !! i = Some w ->
  calls W [WrapperCall i cb] g (callWrapper W cb i w g).
Proof.
  intros Hw. split; [done|]. unfold moves, callWrapper, log. simpl.
  repeat split. intros k. rewrite Hw.
  destruct (decide (wmodule w = k)) as [->|Hne].
  - rewrite lookup_alter_eq. by destruct (modules g !! _).
  - rewrite lookup_alter_ne by done. by destruct (modules g !! k).
Qed.

Lemma moves_guardedIn tr g g' n : moves W tr g g' -> guardedIn g' n = guardedIn g n.
Proof.
  intros H. unfold guardedIn. pose proof (moves_extends _ _ _ n H) as Hc.
  destruct Hc as [m m' Hc|]; simpl; [by apply guarded_extends | done].
Qed.

Lemma moves_guardedNames tr g g' : moves W tr g g' -> guardedNames g' = guardedNames g.
Proof.
  intros H. unfold guardedNames. rewrite (moves_moduleList _ _ _ H).
  apply filter_ext_in. intros n _. by erewrite moves_guardedIn.
Qed.

Lemma calls_supportedWrappers tr g g' :
  calls W tr g g' -> supportedWrappers g' = supportedWrappers g.
Proof. intros [Hf _]. unfold feat in Hf. by simplify_eq. Qed.

Lemma calls_featureSupported tr g g' :
  calls W tr g g' -> featureSupported g' = featureSupported g.
Proof. intros [Hf _]. unfold feat in Hf. by simplify_eq. Qed.

(** A loop whose turns only make calls; [Inv] is what the turns may rely
    on. *)
Lemma calls_foldl_inv {A} (Inv : Generator -> Prop)
                      (step : Generator -> A -> Generator)
                      (tr : Generator -> A -> list Call) (l : list A) :
  (forall g g' t, calls W t g g' -> Inv g -> Inv g') ->
  (forall g a, a ∈ l -> Inv g -> calls W (tr g a) g (step g a)) ->
  (forall g g' a t, calls W t g g' -> tr g' a = tr g a) ->
  forall g, Inv g -> calls W (concat (map (tr g) l)) g (foldl step g l).
Proof.
  intros Hpres Hstep Hinv. induction l as [|a l IH]; intros g Hg; simpl.
  - apply calls_refl.
  - assert (calls W (tr g a) g (step g a)) as Ha by (apply Hstep; [left | done]).
    eapply calls_trans; [exact Ha|].
    replace (map (tr g) l) with (map (tr (step g a)) l).
    + apply IH; [|by eapply Hpres].
      intros g0 b Hb. apply Hstep. by right.
    + apply map_ext. intros b. by eapply Hinv.
Qed.

Lemma calls_foldl {A} (step : Generator -> A -> Generator)
                  (tr : Generator -> A -> list Call) (l : list A) :
  (forall g a, calls W (tr g a) g (step g a)) ->
  (forall g g' a t, calls W t g g' -> tr g' a = tr g a) ->
  forall g, calls W (concat (map (tr g) l)) g (foldl step g l).
Proof.
  intros Hstep Hinv g.
  apply (calls_foldl_inv (fun _ => True)); auto.
Qed.

(** [forEachModule] with a function that calls [op] on the modules that
    pass a test on what stays of them. *)
Lemma calls_forEachModule (P : Module -> bool) (op : ModuleOp) g :
  (forall m m', extends m m' -> P m' = P m) ->
  calls W (map (fun n => ModuleCall n op)
               (filter (fun n => from_option P false (modules g !! n) = true)
                       (moduleList g)))
        g
        (forEachModule (fun n m g => if P m then callModule n op g else g) g).
Proof.
  intros HP. unfold forEachModule.
  rewrite <- (concat_map_if (fun n => from_option P false (modules g !! n))).
  apply (calls_foldl _ (fun g n => if from_option P false (modules g !! n)
                                   then [ModuleCall n op] else [])).
  - intros g0 n. destruct (modules g0 !! n) as [m|]; simpl.
    + destruct (P m); [apply calls_callModule | apply calls_refl].
    + apply calls_refl.
  - intros g0 g' n t [_ Hm]. pose proof (moves_extends _ _ _ n Hm) as Hc.
    destruct Hc as [m m' Hc|]; simpl; [|done]. by rewrite (HP m m').
Qed.

Lemma selectedPositions_imap sw (ws : list Wrapper) :
  (fst <$> filter (fun iw : nat * Wrapper => selected sw iw.2 = true) (imap pair ws))
  = selectedPositions sw ws.
Proof.
  unfold selectedPositions.
  induction ws as [|w ws IH] using rev_ind; [done|].
  rewrite imap_app, filter_app, fmap_app, IH, length_app, seq_app, filter_app.
  simpl. f_equal.
  - apply filter_ext_in. intros i Hi. apply elem_of_seq in Hi.
    rewrite lookup_app_l by lia. done.
  - rewrite !filter_cons, !filter_nil. simpl.
    rewrite lookup_app_r by lia. rewrite Nat.sub_diag. simpl.
    rewrite Nat.add_0_r.
    by destruct (selected sw w).
Qed.

Lemma elem_of_imap_pair {A} (l : list A) (i : nat) (x : A) :
  (i, x) ∈ imap pair l -> l !! i = Some x.
Proof.
  intros H. apply list_elem_of_lookup in H as [k Hk].
  rewrite list_lookup_imap in Hk.
  destruct (l !! k) as [y|] eqn:Hy; simpl in Hk; [|done]. by simplify_eq.
Qed.

(** [forEachWrapper] with a callback. *)
Lemma calls_forEachWrapper (cb : Callback) sw g :
  calls W (map (fun i => WrapperCall i cb) (selectedPositions sw (wrappers g)))
        g (forEachWrapper (callWrapper W cb) sw g).
Proof.
  unfold forEachWrapper. rewrite <- selectedPositions_imap.
  rewrite <- list_fmap_compose.
  change (map ?f ?l) with (f <$> l).
  rewrite <- (concat_map_if (fun iw : nat * Wrapper => selected sw iw.2)
                            (fun iw => WrapperCall iw.1 cb)).
  apply (calls_foldl_inv (fun g0 => wrappers g0 = wrappers g) _
           (fun _ (iw : nat * Wrapper) =>
              if selected sw iw.2 then [WrapperCall iw.1 cb] else [])).
  - intros g0 g' t [_ Hm] Hg0. by rewrite (moves_wrappers _ _ _ Hm).
  - intros g0 [i w] Hin Hg0. simpl. destruct (selected sw w); [|apply calls_refl].
    apply calls_callWrapper. rewrite Hg0. by apply elem_of_imap_pair.
  - done.
  - done.
Qed.

(** ** The handlers *)

Lemma featureSupported_foldl (x : option string) (l : list string) :
  forall b,
    foldl (fun supported supportedFeature =>
             if decide (x = Some supportedFeature) then true else supported) b l
    = b || match x with Some s => bool_decide (s ∈ l) | None => false end.
Proof.
  induction l as [|a l IH]; intros b; cbn [foldl].
  - destruct x as [s|]; [|by rewrite orb_false_r].
    rewrite bool_decide_eq_false_2 by apply not_elem_of_nil. by rewrite orb_false_r.
  - rewrite IH. destruct x as [s|]; [|by destruct (decide _)].
    destruct (decide (Some s = Some a)) as [E|E].
    + simplify_eq. rewrite (bool_decide_eq_true_2 (a ∈ a :: l)) by left.
      by rewrite orb_true_r.
    + destruct (decide (s ∈ l)) as [Hin|Hin].
      * rewrite (bool_decide_eq_true_2 (s ∈ l)) by done.
        rewrite (bool_decide_eq_true_2 (s ∈ a :: l)) by (by right). done.
      * rewrite (bool_decide_eq_false_2 (s ∈ l)) by done.
        rewrite (bool_decide_eq_false_2 (s ∈ a :: l)); [done|].
        intros [->|H]%elem_of_cons; done.
Qed.

Lemma set_featureSupported_id g :
  set_featureSupported (featureSupported g) g = g.
Proof. by destruct g. Qed.

Lemma calls_featureName tr g g' : calls W tr g g' -> featureName g' = featureName g.
Proof. intros [Hf _]. unfold feat in Hf. by simplify_eq. Qed.

Lemma calls_featureType tr g g' : calls W tr g g' -> featureType g' = featureType g.
Proof. intros [Hf _]. unfold feat in Hf. by simplify_eq. Qed.

(** The guards of [beginFeature] and of [endFeature]: the registry, then
    the header of every guarded module, then the implementation of every
    guarded module. *)
Lemma calls_guards (cb : Callback) (line : string) g :
  calls W ([TypeInfoCall cb] ++
         map (fun n => ModuleCall n (m_appendHeader line)) (guardedNames g) ++
         map (fun n => ModuleCall n (m_appendImpl line)) (guardedNames g))
        g
        (forEachModule
           (fun n m g' => if guarded m then callModule n (m_appendImpl line) g' else g')
           (forEachModule
              (fun n m g' => if guarded m then callModule n (m_appendHeader line) g' else g')
              (callTypeInfo cb g))).
Proof.
  pose proof (calls_callTypeInfo cb g) as H1.
  pose proof (calls_forEachModule guarded (m_appendHeader line) (callTypeInfo cb g)
                                  guarded_extends) as H2.
  pose proof (calls_trans _ _ _ _ _ H1 H2) as H12.
  eapply calls_trans; [exact H1|]. eapply calls_trans; [exact H2|].
  rewrite <- (moves_guardedNames _ _ _ (proj2 H12)).
  apply (calls_forEachModule guarded (m_appendImpl line)), guarded_extends.
Qed.

Lemma beginFeature_split (i : Element) (e : bool) g :
  featureSupported g || supportedName (get i "name") = true ->
  beginFeature W i e g = beginWrappers W i (beginGuards i g).
Proof.
  intros Hs. unfold beginFeature, OutputGenerator_beginFeature, beginWrappers, beginGuards.
  cbn [featureName featureSupported set_featureSupported set_featureType set_featureName].
  rewrite featureSupported_foldl.
  change (match get i "name" with
          | Some s => bool_decide (s ∈ SUPPORTED_FEATURES)
          | None => false
          end) with (supportedName (get i "name")).
  rewrite Hs. cbn [negb featureSupported set_featureSupported featureName
                   set_supportedWrappers supportedWrappers featureType
                   set_featureType set_featureName].
  fold (restriction (get i "name")). unfold guardOpen.
  set (g1 := set_supportedWrappers (restriction (get i "name")) _).
  set (g2 := callTypeInfo _ g1).
  pose proof (calls_callTypeInfo (onBeginFeature (get i "name") (get i "type")) g1) as H12.
  change (featureName g2) with (get i "name").
  set (g3 := forEachModule _ g2).
  assert (H23 : calls W (map (fun n => ModuleCall n (m_appendHeader (guardOpen (get i "name"))))
                           (guardedNames g2)) g2 g3)
    by (apply (calls_forEachModule guarded); apply guarded_extends).
  pose proof (calls_trans _ _ _ _ _ H12 H23) as H13.
  rewrite (calls_featureName _ _ _ H13).
  change (featureName g1) with (get i "name").
  set (g4 := forEachModule _ g3).
  assert (H34 : calls W (map (fun n => ModuleCall n (m_appendImpl (guardOpen (get i "name"))))
                           (guardedNames g3)) g3 g4)
    by (apply (calls_forEachModule guarded); apply guarded_extends).
  pose proof (calls_trans _ _ _ _ _ H13 H34) as H14.
  rewrite (calls_featureName _ _ _ H14), (calls_featureType _ _ _ H14),
    (calls_supportedWrappers _ _ _ H14).
  change (featureName g1) with (get i "name").
  change (featureType g1) with (get i "type").
  change (supportedWrappers g1) with (restriction (get i "name")).
  set (g5 := forEachWrapper _ _ g4).
  pose proof (calls_forEachWrapper (onBeginFeature (get i "name") (get i "type"))
                                   (restriction (get i "name")) g4) as H45.
  pose proof (calls_trans _ _ _ _ _ H14 H45) as H15.
  assert (supportedWrappers g5 = restriction (get i "name")) as ->
    by exact (calls_supportedWrappers _ _ _ H15).
  apply (foldl_nested
           (fun g' c => forEachWrapper (callWrapper W (onFeatureNewCmd c))
                                       (restriction (get i "name")) g')
           (fun c => get c "name") (fun features => findall features "command")).
Qed.

Lemma moves_beginGuards (i : Element) g :
  moves W (beginGuardsTrace g i) g (beginGuards i g) /\
  feat (beginGuards i g) = (get i "name", get i "type", true, restriction (get i "name")).
Proof.
  unfold beginGuards.
  set (g1 := set_supportedWrappers _ _).
  destruct (calls_guards (onBeginFeature (get i "name") (get i "type"))
                         (guardOpen (get i "name")) g1) as [Hf Hm].
  split; [exact Hm | by rewrite Hf].
Qed.

Lemma calls_beginWrappers (i : Element) g :
  calls W (beginWrappersTrace g i) g (beginWrappers W i g).
Proof.
  unfold beginWrappers, beginWrappersTrace.
  set (sw := restriction (get i "name")).
  pose proof (calls_forEachWrapper (onBeginFeature (get i "name") (get i "type")) sw g) as H1.
  eapply calls_trans; [exact H1|].
  rewrite <- (moves_wrappers _ _ _ (proj2 H1)).
  apply (calls_foldl
           (fun g' c => forEachWrapper (callWrapper W (onFeatureNewCmd c)) sw g')
           (fun g' c => map (fun i0 => WrapperCall i0 (onFeatureNewCmd c))
                            (selectedPositions sw (wrappers g')))).
  - intros g' c. apply calls_forEachWrapper.
  - intros g0 g' c t Hc. by rewrite (moves_wrappers _ _ _ (proj2 Hc)).
Qed.

Lemma beginFeature_unsupported (i : Element) (e : bool) g :
  featureSupported g = false -> supportedName (get i "name") = false ->
  beginFeature W i e g = OutputGenerator_beginFeature i e g.
Proof.
  intros Hg Hs. unfold beginFeature.
  set (g1 := OutputGenerator_beginFeature i e g).
  rewrite featureSupported_foldl.
  change (featureName g1) with (get i "name").
  change (featureSupported g1) with (featureSupported g).
  change (match get i "name" with
          | Some s => bool_decide (s ∈ SUPPORTED_FEATURES)
          | None => false
          end) with (supportedName (get i "name")).
  rewrite Hg, Hs. simpl.
  replace false with (featureSupported g1) by done.
  apply set_featureSupported_id.
Qed.

Lemma endFeature_split g :
  featureSupported g = true ->
  endFeature W g =
  forEachWrapper (callWrapper W onEndFeature) (supportedWrappers g) (endGuards g).
Proof.
  intros Hs. unfold endFeature, endGuards, OutputGenerator_endFeature.
  cbn [featureSupported set_featureType set_featureName]. rewrite Hs. cbn [negb].
  unfold guardClose.
  set (g1 := set_featureSupported false _).
  destruct (calls_guards onEndFeature ("#endif" +:+ nl) g1) as [Hf _].
  f_equal. unfold feat in Hf. by simplify_eq.
Qed.

Lemma moves_endGuards g :
  moves W (endGuardsTrace g) g (endGuards g) /\
  feat (endGuards g) = (None, None, false, supportedWrappers g).
Proof.
  unfold endGuards, OutputGenerator_endFeature.
  set (g1 := set_featureSupported false _).
  destruct (calls_guards onEndFeature guardClose g1) as [Hf Hm].
  split; [exact Hm | by rewrite Hf].
Qed.

Lemma endFeature_unsupported g :
  featureSupported g = false -> endFeature W g = OutputGenerator_endFeature g.
Proof. intros Hs. unfold endFeature. simpl. by rewrite Hs. Qed.

Lemma gen_supported (d : Defn) g :
  featureSupported g = true ->
  calls W (genTrace (supportedWrappers g) (wrappers g) d) g (gen W d g).
Proof.
  intros Hs.
  assert (forall cb, calls W (TypeInfoCall cb ::
                            map (fun i => WrapperCall i cb)
                                (selectedPositions (supportedWrappers g) (wrappers g)))
                           g (forEachWrapper (callWrapper W cb)
                                             (supportedWrappers (callTypeInfo cb g))
                                             (callTypeInfo cb g))) as H.
  { intros cb.
    apply (calls_trans [TypeInfoCall cb] _ g (callTypeInfo cb g));
      [apply calls_callTypeInfo|].
    apply (calls_forEachWrapper cb (supportedWrappers g) (callTypeInfo cb g)). }
  destruct d; simpl; unfold genType, genStruct, genGroup, genEnum, genCmd;
    rewrite Hs; simpl; apply H.
Qed.

Lemma gen_unsupported (d : Defn) g :
  featureSupported g = false ->
  gen W d g =
  match d with
  | TypeDef i n a =>
      if bool_decide (n ∈ EXCEPTIONS) then callTypeInfo (onGenType i n a) g else g
  | _ => g
  end.
Proof.
  intros Hs.
  destruct d; simpl; unfold genType, genStruct, genGroup, genEnum, genCmd;
    rewrite Hs; simpl; try done.
  unfold EXCEPTIONS.
  repeat match goal with
         | |- context [bool_decide (name = ?s)] =>
             destruct (decide (name = s)) as [->|?];
             [rewrite (bool_decide_eq_true_2 (s = s)) by done;
              rewrite bool_decide_eq_true_2 by (apply list_elem_of_In; simpl; tauto); done
             |rewrite (bool_decide_eq_false_2 (name = s)) by done]
         end.
  rewrite bool_decide_eq_false_2; [done|].
  intros Hin%list_elem_of_In. simpl in Hin. intuition congruence.
Qed.

Lemma skipped_gen (d : Defn) g :
  featureSupported g = false ->
  calls W (skippedTrace d) g (gen W d g) /\ modules (gen W d g) = modules g.
Proof.
  intros Hs. rewrite gen_unsupported by done.
  destruct d; simpl; try (split; [apply calls_refl | done]).
  destruct (bool_decide _); (split; [|done]); [|apply calls_refl].
  apply calls_callTypeInfo.
Qed.

Lemma gens_supported (ds : list Defn) g :
  featureSupported g = true ->
  calls W (concat (map (genTrace (supportedWrappers g) (wrappers g)) ds)) g
        (foldl (fun g d => gen W d g) g ds).
Proof.
  revert g. induction ds as [|d ds IH]; intros g Hs; cbn [foldl map concat];
    [apply calls_refl|].
  pose proof (gen_supported d g Hs) as Hd.
  eapply calls_trans; [exact Hd|].
  rewrite <- (calls_supportedWrappers _ _ _ Hd), <- (moves_wrappers _ _ _ (proj2 Hd)).
  apply IH. by rewrite (calls_featureSupported _ _ _ Hd).
Qed.

Lemma gens_unsupported (ds : list Defn) g :
  featureSupported g = false ->
  calls W (concat (map skippedTrace ds)) g (foldl (fun g d => gen W d g) g ds) /\
  modules (foldl (fun g d => gen W d g) g ds) = modules g.
Proof.
  revert g. induction ds as [|d ds IH]; intros g Hs; cbn [foldl map concat].
  - split; [apply calls_refl | done].
  - destruct (skipped_gen d g Hs) as [Hd Hm].
    destruct (IH (gen W d g)) as [Hds Hms].
    { by rewrite (calls_featureSupported _ _ _ Hd). }
    split; [by eapply calls_trans | congruence].
Qed.

(** ** One feature, begin to end *)

Lemma runFeature_supported (f : Feature) g :
  supportedName (get (interface f) "name") = true ->
  moves W (featureTrace g f) g (runFeature W f g) /\
  feat (runFeature W f g) = (None, None, false, restriction (get (interface f) "name")).
Proof.
  intros Hs. unfold runFeature, featureTrace. rewrite Hs.
  rewrite beginFeature_split by (by rewrite Hs, orb_true_r).
  destruct (moves_beginGuards (interface f) g) as [Hg Hfg].
  set (g1 := beginGuards (interface f) g) in *.
  pose proof (calls_beginWrappers (interface f) g1) as Hw.
  set (g2 := beginWrappers W (interface f) g1) in *.
  assert (feat g2 = (get (interface f) "name", get (interface f) "type", true,
                     restriction (get (interface f) "name"))) as Hf2
    by (by rewrite (proj1 Hw)).
  assert (featureSupported g2 = true) as Hs2 by (unfold feat in Hf2; by simplify_eq).
  assert (supportedWrappers g2 = restriction (get (interface f) "name")) as Hsw2
    by (unfold feat in Hf2; by simplify_eq).
  pose proof (gens_supported (definitions f) g2 Hs2) as Hd.
  set (g3 := foldl _ g2 _) in *.
  assert (featureSupported g3 = true) as Hs3
    by (by rewrite (calls_featureSupported _ _ _ Hd)).
  rewrite endFeature_split by done.
  destruct (moves_endGuards g3) as [He Hfe].
  set (g4 := endGuards g3) in *.
  pose proof (calls_forEachWrapper onEndFeature (supportedWrappers g3) g4) as Hx.
  pose proof (moves_trans _ _ _ _ _ Hg (proj2 Hw)) as H02.
  pose proof (moves_trans _ _ _ _ _ H02 (proj2 Hd)) as H03.
  pose proof (moves_trans _ _ _ _ _ H03 He) as H04.
  assert (supportedWrappers g3 = restriction (get (interface f) "name")) as Hsw3
    by (by rewrite (calls_supportedWrappers _ _ _ Hd)).
  rewrite Hsw3 in Hx |- *.
  rewrite (moves_wrappers _ _ _ H04) in Hx.
  unfold endGuardsTrace in He. rewrite (moves_guardedNames _ _ _ H03) in He.
  rewrite Hsw2, (moves_wrappers _ _ _ H02) in Hd.
  unfold beginWrappersTrace in Hw. rewrite (moves_wrappers _ _ _ Hg) in Hw.
  split.
  - unfold beginWrappersTrace, endGuardsTrace.
    eapply moves_trans; [exact Hg|]. eapply moves_trans; [exact (proj2 Hw)|].
    eapply moves_trans; [exact (proj2 Hd)|]. eapply moves_trans; [exact He|].
    exact (proj2 Hx).
  - rewrite (proj1 Hx), Hfe, Hsw3. done.
Qed.

Lemma runFeature_unsupported (f : Feature) g :
  featureSupported g = false ->
  supportedName (get (interface f) "name") = false ->
  moves W (featureTrace g f) g (runFeature W f g) /\
  modules (runFeature W f g) = modules g /\
  featureSupported (runFeature W f g) = false /\
  supportedWrappers (runFeature W f g) = supportedWrappers g.
Proof.
  intros Hg Hs. unfold runFeature, featureTrace. rewrite Hs.
  rewrite beginFeature_unsupported by done.
  set (g1 := OutputGenerator_beginFeature _ _ g).
  destruct (gens_unsupported (definitions f) g1) as [[Hf Hd] Hm]; [exact Hg|].
  set (g2 := foldl _ g1 _) in *.
  assert (featureSupported g2 = false) as Hs2.
  { unfold feat in Hf. injection Hf as _ _ Hx _. rewrite Hx. exact Hg. }
  rewrite endFeature_unsupported by done.
  repeat split.
  - destruct Hd as (Hx & _ & _). exact Hx.
  - intros n. exact (proj1 (proj2 Hd) n).
  - simpl. by destruct Hd as (_ & _ & ->).
  - simpl. by rewrite Hm.
  - exact Hs2.
  - simpl. unfold feat in Hf. injection Hf as _ _ _ Hx. exact Hx.
Qed.

Lemma featureTrace_moves tr g g' f : moves W tr g g' -> featureTrace g' f = featureTrace g f.
Proof.
  intros H. unfold featureTrace, beginGuardsTrace, beginWrappersTrace, endGuardsTrace.
  by rewrite (moves_wrappers _ _ _ H), (moves_guardedNames _ _ _ H).
Qed.

Lemma runFeatures_moves (fs : list Feature) g :
  featureSupported g = false ->
  moves W (concat (map (featureTrace g) fs)) g (runFeatures W fs g) /\
  featureSupported (runFeatures W fs g) = false.
Proof.
  revert g. induction fs as [|f fs IH]; intros g Hg; cbn [runFeatures foldl map concat].
  - split; [apply moves_refl | done].
  - assert (moves W (featureTrace g f) g (runFeature W f g) /\
            featureSupported (runFeature W f g) = false) as [Hm Hs].
    { destruct (supportedName (get (interface f) "name")) eqn:Hs.
      - destruct (runFeature_supported f g Hs) as [Hm Hf]. split; [done|].
        unfold feat in Hf. by simplify_eq.
      - destruct (runFeature_unsupported f g Hg Hs) as (Hm & _ & Hf & _). done. }
    destruct (IH _ Hs) as [Hms Hss]. split; [|exact Hss].
    eapply moves_trans; [exact Hm|].
    replace (map (featureTrace g) fs) with (map (featureTrace (runFeature W f g)) fs);
      [exact Hms|].
    apply map_ext. intros f'. by eapply featureTrace_moves.
Qed.

(** ** Reading the trace *)

Lemma moduleCalls_app n tr1 tr2 :
  moduleCalls n (tr1 ++ tr2) = moduleCalls n tr1 ++ moduleCalls n tr2.
Proof. apply omap_app. Qed.

Lemma wrapperCalls_app i tr1 tr2 :
  wrapperCalls i (tr1 ++ tr2) = wrapperCalls i tr1 ++ wrapperCalls i tr2.
Proof. apply omap_app. Qed.

Lemma registryTypes_app tr1 tr2 :
  registryTypes (tr1 ++ tr2) = registryTypes tr1 ++ registryTypes tr2.
Proof. apply omap_app. Qed.

Lemma omap_concat_nil {A B C} (h : A -> option B) (f : C -> list A) (l : list C) :
  (forall x, omap h (f x) = []) -> omap h (concat (map f l)) = [].
Proof.
  intros H. induction l as [|x l IH]; simpl; [done|].
  by rewrite omap_app, H, IH.
Qed.

Lemma moduleCalls_cons_module n k op tr :
  moduleCalls n (ModuleCall k op :: tr) =
  if decide (k = n) then op :: moduleCalls n tr else moduleCalls n tr.
Proof. unfold moduleCalls. simpl. by destruct (decide (k = n)). Qed.

Lemma wrapperCalls_cons_wrapper i j cb tr :
  wrapperCalls i (WrapperCall j cb :: tr) =
  if decide (j = i) then cb :: wrapperCalls i tr else wrapperCalls i tr.
Proof. unfold wrapperCalls. simpl. by destruct (decide (j = i)). Qed.

Lemma moduleCalls_on_modules n op (l : list string) :
  NoDup l ->
  moduleCalls n (map (fun k => ModuleCall k op) l) = if bool_decide (n ∈ l) then [op] else [].
Proof.
  induction 1 as [|k l Hk Hl IH]; [done|].
  cbn [map]. rewrite moduleCalls_cons_module, IH.
  destruct (decide (k = n)) as [->|Hne].
  - rewrite (bool_decide_eq_false_2 (n ∈ l)) by done.
    by rewrite bool_decide_eq_true_2 by left.
  - destruct (decide (n ∈ l)) as [Hin|Hin].
    + rewrite !bool_decide_eq_true_2; [done | by right | done].
    + rewrite !bool_decide_eq_false_2; [done | | done].
      intros [->|H]%elem_of_cons; done.
Qed.

Lemma moduleCalls_on_wrappers n cb (l : list nat) :
  moduleCalls n (map (fun i => WrapperCall i cb) l) = [].
Proof. induction l as [|i l IH]; [done | exact IH]. Qed.

Lemma wrapperCalls_on_modules i op (l : list string) :
  wrapperCalls i (map (fun k => ModuleCall k op) l) = [].
Proof. induction l as [|k l IH]; [done | exact IH]. Qed.

Lemma registryTypes_on_modules op (l : list string) :
  registryTypes (map (fun k => ModuleCall k op) l) = [].
Proof. induction l as [|k l IH]; [done | exact IH]. Qed.

Lemma registryTypes_on_wrappers cb (l : list nat) :
  registryTypes (map (fun i => WrapperCall i cb) l) = [].
Proof. induction l as [|i l IH]; [done | exact IH]. Qed.

Lemma wrapperCalls_on_wrappers i cb (l : list nat) :
  NoDup l ->
  wrapperCalls i (map (fun j => WrapperCall j cb) l) = if bool_decide (i ∈ l) then [cb] else [].
Proof.
  induction 1 as [|k l Hk Hl IH]; [done|].
  cbn [map]. rewrite wrapperCalls_cons_wrapper, IH.
  destruct (decide (k = i)) as [->|Hne].
  - rewrite (bool_decide_eq_false_2 (i ∈ l)) by done.
    by rewrite bool_decide_eq_true_2 by left.
  - destruct (decide (i ∈ l)) as [Hin|Hin].
    + rewrite !bool_decide_eq_true_2; [done | by right | done].
    + rewrite !bool_decide_eq_false_2; [done | | done].
      intros [->|H]%elem_of_cons; done.
Qed.

Lemma NoDup_selectedPositions sw ws : NoDup (selectedPositions sw ws).
Proof. apply NoDup_filter, NoDup_seq. Qed.

Lemma elem_of_selectedPositions sw (ws : list Wrapper) i w :
  ws !! i = Some w -> i ∈ selectedPositions sw ws <-> selected sw w = true.
Proof.
  intros Hi. unfold selectedPositions. rewrite list_elem_of_filter, elem_of_seq, Hi.
  simpl. apply lookup_lt_Some in Hi. split; [by intros [? _] | intros; split; [done | lia]].
Qed.

(** The selected positions come in increasing order. *)
Lemma selectedPositions_increasing sw (ws : list Wrapper) j k a b :
  selectedPositions sw ws !! j = Some a ->
  selectedPositions sw ws !! k = Some b ->
  j < k -> a < b.
Proof.
  unfold selectedPositions. generalize (length ws) as len. generalize 0 as s.
  intros s len. revert s j k. induction len as [|len IH]; intros s j k; [done|].
  cbn [seq]. rewrite filter_cons. case_decide as Hp.
  - destruct j as [|j]; destruct k as [|k]; simpl; try lia.
    + intros [= <-] Hb _.
      apply list_elem_of_lookup_2, list_elem_of_filter in Hb as [_ Hb].
      apply elem_of_seq in Hb. lia.
    + intros Ha Hb Hjk. apply (IH (S s) j k); [done | done | lia].
  - apply IH.
Qed.

Lemma omap_concat_map {A B C} (h : A -> option B) (f : C -> list A) (l : list C) :
  omap h (concat (map f l)) = concat (map (fun x => omap h (f x)) l).
Proof.
  induction l as [|x l IH]; simpl; [done|]. by rewrite omap_app, IH.
Qed.

Lemma moduleCalls_concat_nil {C} n (f : C -> list Call) (l : list C) :
  (forall x, moduleCalls n (f x) = []) -> moduleCalls n (concat (map f l)) = [].
Proof. apply omap_concat_nil. Qed.

Lemma moduleCalls_genTrace n sw ws d : moduleCalls n (genTrace sw ws d) = [].
Proof. unfold genTrace. apply (moduleCalls_on_wrappers n (callbackOf d)). Qed.

Lemma moduleCalls_skippedTrace n d : moduleCalls n (skippedTrace d) = [].
Proof. destruct d; simpl; try done. by destruct (bool_decide _). Qed.

Lemma moduleCalls_beginWrappersTrace n g i : moduleCalls n (beginWrappersTrace g i) = [].
Proof.
  unfold beginWrappersTrace. rewrite moduleCalls_app, moduleCalls_on_wrappers.
  apply moduleCalls_concat_nil. intros c. apply moduleCalls_on_wrappers.
Qed.

Lemma NoDup_guardedNames g : NoDup (moduleList g) -> NoDup (guardedNames g).
Proof. apply NoDup_filter. Qed.

Lemma moduleCalls_featureTrace g f n :
  NoDup (moduleList g) ->
  moduleCalls n (featureTrace g f) =
  if supportedName (get (interface f) "name") && bool_decide (n ∈ guardedNames g)
  then guardCalls f else [].
Proof.
  intros Hnd. apply NoDup_guardedNames in Hnd.
  unfold featureTrace. destruct (supportedName _); cbn [andb].
  - unfold beginGuardsTrace, endGuardsTrace.
    rewrite !moduleCalls_app, !moduleCalls_on_modules by done.
    rewrite moduleCalls_beginWrappersTrace, moduleCalls_on_wrappers.
    rewrite (moduleCalls_concat_nil n _ _ (moduleCalls_genTrace n _ _)).
    by destruct (bool_decide (n ∈ guardedNames g)).
  - apply moduleCalls_concat_nil, moduleCalls_skippedTrace.
Qed.


(** What [forEachModule] leaves under a name when the names are
    distinct. *)
Lemma forEachModule_lookup (P : Module -> bool) (op : ModuleOp) (n : string)
                           (l : list string) :
  NoDup l ->
  forall g,
    modules (foldl (fun g k => match modules g !! k with
                               | Some m => if P m then callModule k op g else g
                               | None => g
                               end) g l) !! n
    = if bool_decide (n ∈ l)
      then (fun m => if P m then applyOp op m else m) <$> modules g !! n
      else modules g !! n.
Proof.
  induction 1 as [|k l Hk Hl IH]; intros g; [done|].
  cbn [foldl]. rewrite IH. destruct (decide (k = n)) as [->|Hne].
  - rewrite (bool_decide_eq_false_2 (n ∈ l)) by done.
    rewrite (bool_decide_eq_true_2 (n ∈ n :: l)) by left.
    destruct (modules g !! n) as [m|] eqn:Hm; simpl; [|by rewrite Hm].
    destruct (P m); simpl; [|by rewrite Hm].
    by rewrite lookup_alter_eq, Hm.
  - assert (modules (match modules g !! k with
                     | Some m => if P m then callModule k op g else g
                     | None => g
                     end) !! n = modules g !! n) as ->.
    { destruct (modules g !! k) as [m|]; [|done].
      destruct (P m); [|done]. simpl. by rewrite lookup_alter_ne. }
    destruct (decide (n ∈ l)) as [Hin|Hin].
    + rewrite !bool_decide_eq_true_2; [done | by right | done].
    + rewrite !bool_decide_eq_false_2; [done | | done].
      intros [->|H]%elem_of_cons; done.
Qed.

(** What the two guard loops leave under the name of a guarded module. *)
Lemma guards_lookup (cb : Callback) (line : string) g n m :
  NoDup (moduleList g) -> n ∈ moduleList g ->
  modules g !! n = Some m -> guarded m = true ->
  modules (forEachModule
             (fun n m g' => if guarded m then callModule n (m_appendImpl line) g' else g')
             (forEachModule
                (fun n m g' => if guarded m then callModule n (m_appendHeader line) g' else g')
                (callTypeInfo cb g))) !! n
  = Some (Module_appendImpl line (Module_appendHeader line m)).
Proof.
  intros Hnd Hin Hm Hg.
  set (g1 := forEachModule _ (callTypeInfo cb g)).
  assert (moduleList g1 = moduleList g) as Hl1.
  { pose proof (calls_forEachModule guarded (m_appendHeader line) (callTypeInfo cb g)
                                    guarded_extends) as [_ H].
    exact (moves_moduleList _ _ _ H). }
  assert (modules g1 !! n = Some (Module_appendHeader line m)) as Hm1.
  { unfold g1, forEachModule.
    rewrite (forEachModule_lookup guarded (m_appendHeader line) n) by done.
    cbn [moduleList callTypeInfo log set_trace modules].
    rewrite bool_decide_eq_true_2 by done. rewrite Hm. simpl. by rewrite Hg. }
  unfold forEachModule.
  rewrite (forEachModule_lookup guarded (m_appendImpl line) n) by (by rewrite Hl1).
  rewrite Hl1, bool_decide_eq_true_2 by done. rewrite Hm1. simpl.
  by rewrite (guarded_extends _ _ (extends_appendHeader line m)), Hg.
Qed.


Lemma suppress_extends m m' : extends m m' -> suppress m' = suppress m.
Proof. intros [Hc _]. unfold config in Hc. by simplify_eq. Qed.

Lemma moves_lookup tr g g' n m :
  moves W tr g g' -> modules g !! n = Some m ->
  exists m', modules g' !! n = Some m' /\ extends m m'.
Proof.
  intros H Hm. pose proof (moves_extends _ _ _ n H) as Hc. rewrite Hm in Hc.
  inversion Hc as [? m' He|]; subst. eauto.
Qed.


(** The buffers of a guarded module that accepts text, over one supported
    feature: the guard is opened, text of wrappers follows, the guard is
    closed, and what the wrappers append at end-feature comes after. *)
Lemma feature_buffers (f : Feature) g n m :
  supportedName (get (interface f) "name") = true ->
  NoDup (moduleList g) -> n ∈ moduleList g ->
  modules g !! n = Some m -> guarded m = true -> suppress m = false ->
  exists m' hb ht ib it,
    modules (runFeature W f g) !! n = Some m' /\
    config m' = config m /\
    header m' = header m +:+ guardOpen (get (interface f) "name") +:+ hb +:+
                guardClose +:+ ht /\
    impl m' = impl m +:+ guardOpen (get (interface f) "name") +:+ ib +:+
              guardClose +:+ it.
Proof.
  intros Hs Hnd Hin Hm Hg Hsup. unfold runFeature.
  rewrite beginFeature_split by (by rewrite Hs, orb_true_r).
  set (name := get (interface f) "name") in *.
  (* the guards are opened *)
  assert (modules (beginGuards (interface f) g) !! n
          = Some (Module_appendImpl (guardOpen name) (Module_appendHeader (guardOpen name) m)))
    as Hm1.
  { unfold beginGuards. fold name.
    apply (guards_lookup (onBeginFeature name (get (interface f) "type")) (guardOpen name)
             (set_supportedWrappers (restriction name)
                (set_featureSupported true
                   (set_featureType (get (interface f) "type") (set_featureName name g)))));
      done. }
  destruct (moves_beginGuards (interface f) g) as [H01 Hf1].
  set (g1 := beginGuards (interface f) g) in *.
  set (m1 := Module_appendImpl _ _) in Hm1.
  assert (header m1 = header m +:+ guardOpen name /\ impl m1 = impl m +:+ guardOpen name /\
          config m1 = config m) as (Hh1 & Hi1 & Hc1).
  { unfold m1, Module_appendImpl, Module_appendHeader. rewrite Hsup. simpl.
    rewrite Hsup. done. }
  (* the wrappers and the definitions *)
  pose proof (calls_beginWrappers (interface f) g1) as H12.
  set (g2 := beginWrappers W (interface f) g1) in *.
  assert (featureSupported g2 = true) as Hs2.
  { rewrite (calls_featureSupported _ _ _ H12). unfold feat in Hf1. by simplify_eq. }
  pose proof (gens_supported (definitions f) g2 Hs2) as H23.
  set (g3 := foldl _ g2 _) in *.
  pose proof (moves_trans _ _ _ _ _ (proj2 H12) (proj2 H23)) as H13.
  destruct (moves_lookup _ _ _ _ _ H13 Hm1) as (m3 & Hm3 & (Hc3 & [hb Hh3] & [ib Hi3])).
  (* the guards are closed *)
  assert (featureSupported g3 = true) as Hs3
    by (by rewrite (calls_featureSupported _ _ _ H23)).
  rewrite endFeature_split by done.
  pose proof (moves_trans _ _ _ _ _ H01 H13) as H03.
  assert (modules (endGuards g3) !! n
          = Some (Module_appendImpl guardClose (Module_appendHeader guardClose m3)))
    as Hm4.
  { unfold endGuards.
    apply (guards_lookup onEndFeature guardClose
             (set_featureSupported false (OutputGenerator_endFeature g3))).
    - cbn. by rewrite (moves_moduleList _ _ _ H03).
    - cbn. by rewrite (moves_moduleList _ _ _ H03).
    - exact Hm3.
    - rewrite (guarded_config m3 m1) by done. by rewrite (guarded_config m1 m). }
  set (m4 := Module_appendImpl _ _) in Hm4.
  assert (suppress m3 = false) as Hsup3.
  { unfold config in Hc3, Hc1. simplify_eq. congruence. }
  assert (header m4 = header m3 +:+ guardClose /\ impl m4 = impl m3 +:+ guardClose /\
          config m4 = config m3) as (Hh4 & Hi4 & Hc4).
  { unfold m4, Module_appendImpl, Module_appendHeader. rewrite Hsup3. simpl.
    rewrite Hsup3. done. }
  (* the wrappers at end-feature *)
  pose proof (calls_forEachWrapper onEndFeature (supportedWrappers g3) (endGuards g3)) as H45.
  destruct (moves_lookup _ _ _ _ _ (proj2 H45) Hm4) as (m5 & Hm5 & (Hc5 & [ht Hh5] & [it Hi5])).
  exists m5, hb, ht, ib, it. repeat split.
  - exact Hm5.
  - congruence.
  - by rewrite Hh5, Hh4, Hh3, Hh1, !string_app_assoc.
  - by rewrite Hi5, Hi4, Hi3, Hi1, !string_app_assoc.
Qed.


(** ** The callbacks of one wrapper *)

Lemma wrapperCalls_concat_map {C} i (f : C -> list Call) (l : list C) :
  wrapperCalls i (concat (map f l)) = concat (map (fun x => wrapperCalls i (f x)) l).
Proof. apply omap_concat_map. Qed.

Lemma concat_map_singleton {A B} (f : A -> B) (l : list A) :
  concat (map (fun x => [f x]) l) = map f l.
Proof. induction l as [|x l IH]; simpl; [done | by rewrite IH]. Qed.

Lemma concat_map_nil {A B} (l : list A) :
  concat (map (fun _ => @nil B) l) = [].
Proof. induction l as [|x l IH]; simpl; done. Qed.

Lemma wrapperCalls_featureTrace g f i w :
  wrappers g !! i = Some w ->
  supportedName (get (interface f) "name") = true ->
  wrapperCalls i (featureTrace g f) =
  if selected (restriction (get (interface f) "name")) w then featureCallbacks f else [].
Proof.
  intros Hi Hs. unfold featureTrace. rewrite Hs.
  unfold beginGuardsTrace, beginWrappersTrace, endGuardsTrace, featureCallbacks.
  set (sw := restriction (get (interface f) "name")).
  pose proof (NoDup_selectedPositions sw (wrappers g)) as Hnd.
  rewrite !wrapperCalls_app, !wrapperCalls_on_modules, !wrapperCalls_concat_map.
  rewrite !wrapperCalls_on_wrappers by done.
  assert (bool_decide (i ∈ selectedPositions sw (wrappers g)) = selected sw w) as Hsel.
  { destruct (selected sw w) eqn:E.
    - apply bool_decide_eq_true_2. by apply (elem_of_selectedPositions sw _ i w).
    - apply bool_decide_eq_false_2. rewrite (elem_of_selectedPositions sw _ i w) by done.
      by rewrite E. }
  rewrite (map_ext (fun c => wrapperCalls i (map (fun i0 => WrapperCall i0 (onFeatureNewCmd c))
                                               (selectedPositions sw (wrappers g))))
                   (fun c => if selected sw w then [onFeatureNewCmd c] else [])).
  2: { intros c. rewrite wrapperCalls_on_wrappers by done. by rewrite Hsel. }
  rewrite (map_ext (fun d => wrapperCalls i (genTrace sw (wrappers g) d))
                   (fun d => if selected sw w then [callbackOf d] else [])).
  2: { intros d. unfold genTrace.
       change (wrapperCalls i (TypeInfoCall (callbackOf d) :: ?l)) with (wrapperCalls i l).
       rewrite wrapperCalls_on_wrappers by done. by rewrite Hsel. }
  rewrite Hsel. simpl. destruct (selected sw w).
  - by rewrite !concat_map_singleton.
  - by rewrite !concat_map_nil.
Qed.

(** ** The records of the type registry *)

Lemma registryTypes_concat_map {C} (f : C -> list Call) (l : list C) :
  registryTypes (concat (map f l)) = concat (map (fun x => registryTypes (f x)) l).
Proof. apply omap_concat_map. Qed.

Lemma registryTypes_concat_nil {C} (f : C -> list Call) (l : list C) :
  (forall x, registryTypes (f x) = []) -> registryTypes (concat (map f l)) = [].
Proof. apply omap_concat_nil. Qed.

Lemma registryTypes_genTrace sw ws d :
  registryTypes (genTrace sw ws d) =
  match d with TypeDef _ n _ => [n] | _ => [] end.
Proof.
  unfold genTrace.
  destruct d; simpl;
    change (omap ?h (map (fun i => WrapperCall i ?cb) ?l))
      with (registryTypes (map (fun i => WrapperCall i cb) l));
    by rewrite registryTypes_on_wrappers.
Qed.

Lemma registryTypes_skippedTrace d :
  registryTypes (skippedTrace d) =
  match d with
  | TypeDef _ n _ => if bool_decide (n ∈ EXCEPTIONS) then [n] else []
  | _ => []
  end.
Proof. destruct d; simpl; try done. by destruct (bool_decide _). Qed.

Lemma elem_of_declared_supported (t : string) (ds : list Defn) :
  t ∈ concat (map (fun d => match d with TypeDef _ n _ => [n] | _ => [] end) ds) <->
  t ∈ omap (fun d => match d with TypeDef _ n _ => Some n | _ => None end) ds.
Proof.
  induction ds as [|d ds IH]; simpl; [done|].
  destruct d; simpl; rewrite ?elem_of_cons, ?IH; done.
Qed.

Lemma elem_of_declared_skipped (t : string) (ds : list Defn) :
  t ∈ concat (map (fun d => match d with
                            | TypeDef _ n _ => if bool_decide (n ∈ EXCEPTIONS) then [n] else []
                            | _ => []
                            end) ds) <->
  t ∈ EXCEPTIONS /\
  t ∈ omap (fun d => match d with TypeDef _ n _ => Some n | _ => None end) ds.
Proof.
  induction ds as [|d ds IH]; simpl.
  - split; [by intros ?%elem_of_nil | by intros [_ ?%elem_of_nil]].
  - destruct d; simpl; rewrite ?IH; try done.
    case_bool_decide as Hn; simpl; rewrite ?elem_of_cons, ?IH.
    + split; [intros [->|[??]]; split; auto | intros [? [->|?]]; auto].
    + split; [intros [??]; split; auto | intros [? [->|?]]; [done | auto]].
Qed.

Lemma elem_of_concat_map {A B} (f : A -> list B) (l : list A) (x : B) :
  x ∈ concat (map f l) <-> exists y, y ∈ l /\ x ∈ f y.
Proof.
  induction l as [|a l IH]; simpl.
  - split; [by intros ?%elem_of_nil | by intros (y & ?%elem_of_nil & _)].
  - rewrite elem_of_app, IH. split.
    + intros [H|(y & Hy & H)]; [exists a; split; [left | done] | exists y; split; [by right | done]].
    + intros (y & [->|Hy]%elem_of_cons & H); [by left | right; by exists y].
Qed.

(** The types a feature puts on record in the registry. *)
Lemma elem_of_registryTypes_featureTrace g f t :
  t ∈ registryTypes (featureTrace g f) <->
  t ∈ declaredTypes f /\
  (supportedName (get (interface f) "name") = true \/ t ∈ EXCEPTIONS).
Proof.
  unfold featureTrace, declaredTypes. destruct (supportedName _).
  - unfold beginGuardsTrace, beginWrappersTrace, endGuardsTrace.
    rewrite !registryTypes_app, !registryTypes_on_modules, !registryTypes_on_wrappers.
    rewrite (registryTypes_concat_nil
               (fun c => map (fun i => WrapperCall i (onFeatureNewCmd c)) _))
      by (intros c; apply registryTypes_on_wrappers).
    rewrite registryTypes_concat_map.
    rewrite (map_ext _ _ (registryTypes_genTrace _ _)).
    simpl. rewrite app_nil_r, elem_of_declared_supported.
    split; [intros H; split; [done | by left] | by intros [H _]].
  - rewrite registryTypes_concat_map.
    rewrite (map_ext _ _ registryTypes_skippedTrace).
    rewrite elem_of_declared_skipped.
    split; [intros [H1 H2]; split; [done | by right] | intros [H1 [H2|H2]]; done].
Qed.


(** C1.  Guard balance.  Take a generator with no supported feature
    active whose module names are distinct, and a registered module that
    is a [cereal.Module] not configured with [suppressFeatureGuards].
    - Over any sequence of features, the operations the generator calls on
      the module are, feature after feature, the four guard operations of
      each supported feature (header open, impl open, header close, impl
      close, in this order) and nothing for an unsupported one: one open
      and one close per buffer and feature, the open before the close, and
      the pair of one feature complete before the next begins.
    - When the module accepts text, a supported feature leaves in each
      buffer the open line, then text of wrappers, then the close line,
      then what wrappers append at end-feature.
    - An unsupported feature makes no call on any module and leaves every
      module as it was.
    - A registered module of another class (a [cereal.PyScript]), like
      one configured with [suppressFeatureGuards], receives no call of the
      generator over any sequence of features: it gets no guard, although
      a [PyScript] is not configured with [suppressFeatureGuards]. *)
Theorem guard_balance (g : Generator) (n : string) (m : Module) :
  featureSupported g = false ->
  NoDup (moduleList g) ->
  n ∈ moduleList g ->
  modules g !! n = Some m ->
  isinstance_Module m = true ->
  suppressFeatureGuards m = false ->
  (forall fs,
     moduleCalls n (trace (runFeatures W fs g)) =
     moduleCalls n (trace g) ++
     concat (map (fun f => if supportedName (get (interface f) "name")
                           then guardCalls f else []) fs)) /\
  (forall f,
     supportedName (get (interface f) "name") = true -> suppress m = false ->
     exists m' hb ht ib it,
       modules (runFeature W f g) !! n = Some m' /\
       header m' = header m +:+ guardOpen (get (interface f) "name") +:+ hb +:+
                   guardClose +:+ ht /\
       impl m' = impl m +:+ guardOpen (get (interface f) "name") +:+ ib +:+
                 guardClose +:+ it) /\
  (forall f n',
     supportedName (get (interface f) "name") = false ->
     moduleCalls n' (trace (runFeature W f g)) = moduleCalls n' (trace g) /\
     modules (runFeature W f g) = modules g) /\
  (forall n' m' fs,
     modules g !! n' = Some m' ->
     isinstance_Module m' = false \/ suppressFeatureGuards m' = true ->
     moduleCalls n' (trace (runFeatures W fs g)) = moduleCalls n' (trace g)).
Proof.
  intros Hidle Hnd Hin Hm Hinst Hsfg.
  assert (guarded m = true) as Hg by (unfold guarded; by rewrite Hinst, Hsfg).
  assert (n ∈ guardedNames g) as Hgn.
  { unfold guardedNames. apply list_elem_of_filter. split; [|done].
    unfold guardedIn. by rewrite Hm. }
  split; [|split; [|split]].
  - intros fs. destruct (runFeatures_moves fs g Hidle) as [Hmv _].
    rewrite (moves_trace _ _ _ Hmv), moduleCalls_app. f_equal.
    unfold moduleCalls at 1. rewrite omap_concat_map. f_equal.
    apply map_ext. intros f. fold (moduleCalls n (featureTrace g f)).
    rewrite moduleCalls_featureTrace by done.
    rewrite (bool_decide_eq_true_2 _ Hgn). by rewrite andb_true_r.
  - intros f Hs Hsup.
    destruct (feature_buffers f g n m Hs Hnd Hin Hm Hg Hsup)
      as (m' & hb & ht & ib & it & H1 & _ & H2 & H3).
    by exists m', hb, ht, ib, it.
  - intros f n' Hs.
    destruct (runFeature_unsupported f g Hidle Hs) as (Hmv & Hms & _).
    split; [|done].
    rewrite (moves_trace _ _ _ Hmv), moduleCalls_app.
    rewrite moduleCalls_featureTrace by done. rewrite Hs. simpl.
    by rewrite app_nil_r.
  - intros n' m' fs Hm' Hno.
    assert (n' ∉ guardedNames g) as Hng.
    { unfold guardedNames. rewrite list_elem_of_filter. unfold guardedIn, guarded.
      rewrite Hm'. cbn [from_option].
      destruct Hno as [-> | ->]; [|rewrite andb_false_r]; by intros [? _]. }
    destruct (runFeatures_moves fs g Hidle) as [Hmv _].
    rewrite (moves_trace _ _ _ Hmv), moduleCalls_app.
    rewrite (moduleCalls_concat_nil n' (featureTrace g) fs); [by rewrite app_nil_r|].
    intros f. rewrite moduleCalls_featureTrace by done.
    rewrite (bool_decide_eq_false_2 _ Hng). by rewrite andb_false_r.
Qed.

(** C3.  Restriction.  For a supported feature, run from a generator with
    no supported feature active, the wrapper at any position receives
    - when the feature has an entry in [SUPPORTED_WRAPPERS] and the type of
      the wrapper is listed, or when the feature has no entry: every
      callback of the feature, that is onBeginFeature, onFeatureNewCmd for
      each required command, the callback of each definition and
      onEndFeature, in this order;
    - when the feature has an entry and the type is not listed: nothing. *)
Theorem restriction_respected (g : Generator) (f : Feature) (name : string)
                              (i : nat) (w : Wrapper) :
  get (interface f) "name" = Some name ->
  name ∈ SUPPORTED_FEATURES ->
  wrappers g !! i = Some w ->
  wrapperCalls i (trace (runFeature W f g)) =
  wrapperCalls i (trace g) ++
  match SUPPORTED_WRAPPERS !! name with
  | Some listed => if bool_decide (wtype w ∈ listed) then featureCallbacks f else []
  | None => featureCallbacks f
  end.
Proof.
  intros Hname Hin Hw.
  assert (supportedName (get (interface f) "name") = true) as Hs
    by (rewrite Hname; by apply bool_decide_eq_true_2).
  destruct (runFeature_supported f g Hs) as [Hmv _].
  rewrite (moves_trace _ _ _ Hmv), wrapperCalls_app. f_equal.
  rewrite (wrapperCalls_featureTrace g f i w) by done.
  rewrite Hname. simpl. by destruct (SUPPORTED_WRAPPERS !! name).
Qed.

(** C7.  Order of forwarding.  While a supported feature is active, a
    definition event (type, struct, group, enum or command) calls the type
    registry first and then the selected wrappers by increasing position
    in [self.wrappers]; the list of wrappers and the restriction are the
    same after the event, so the positions are the same for every event of
    the feature; and [addWrapper] on a registered module puts the new
    wrapper after all the others, so that the position of a wrapper is its
    rank among the [addWrapper] calls that registered one. *)
Theorem forwarding_order (g : Generator) (d : Defn) :
  featureSupported g = true ->
  trace (gen W d g) =
    trace g ++ TypeInfoCall (callbackOf d) ::
               map (fun i => WrapperCall i (callbackOf d))
                   (selectedPositions (supportedWrappers g) (wrappers g)) /\
  (forall j k a b,
     selectedPositions (supportedWrappers g) (wrappers g) !! j = Some a ->
     selectedPositions (supportedWrappers g) (wrappers g) !! k = Some b ->
     j < k -> a < b) /\
  wrappers (gen W d g) = wrappers g /\
  supportedWrappers (gen W d g) = supportedWrappers g /\
  featureSupported (gen W d g) = true /\
  (forall moduleType moduleName kwargs g0,
     is_Some (modules g0 !! moduleName) ->
     wrappers (addWrapper moduleType moduleName kwargs g0) =
     wrappers g0 ++ [mkWrapper moduleType moduleName kwargs]).
Proof.
  intros Hs. pose proof (gen_supported d g Hs) as Hc.
  repeat split.
  - exact (moves_trace _ _ _ (proj2 Hc)).
  - apply selectedPositions_increasing.
  - exact (moves_wrappers _ _ _ (proj2 Hc)).
  - exact (calls_supportedWrappers _ _ _ Hc).
  - by rewrite (calls_featureSupported _ _ _ Hc).
  - intros t k kw g0 [m Hm]. unfold addWrapper. by rewrite Hm.
Qed.

(** C2.  The exception policy of [genType].  While no supported feature is
    active,
    - a type whose name is in the exception set is handed to the type
      registry and to nothing else: the only effect is that one call;
    - a type with any other name leaves the generator as it was;
    and over any sequence of features run from such a generator, a name
    that only unsupported features declare is on record in the registry
    afterwards exactly when it was before or is in the exception set and
    declared by one of the features. *)
Theorem exception_policy (g : Generator) :
  featureSupported g = false ->
  (forall typeinfo name alias,
     (name ∈ EXCEPTIONS ->
      genType W typeinfo name alias g = callTypeInfo (onGenType typeinfo name alias) g) /\
     (name ∉ EXCEPTIONS -> genType W typeinfo name alias g = g)) /\
  (forall fs t,
     (forall f, f ∈ fs -> t ∈ declaredTypes f ->
                supportedName (get (interface f) "name") = false) ->
     t ∈ registryTypes (trace (runFeatures W fs g)) <->
     t ∈ registryTypes (trace g) \/
     (t ∈ EXCEPTIONS /\ exists f, f ∈ fs /\ t ∈ declaredTypes f)).
Proof.
  intros Hidle. split.
  - intros typeinfo name alias.
    pose proof (gen_unsupported (TypeDef typeinfo name alias) g Hidle) as H.
    simpl in H. rewrite H.
    split; intros Hn; [by rewrite bool_decide_eq_true_2 | by rewrite bool_decide_eq_false_2].
  - intros fs t Honly.
    destruct (runFeatures_moves fs g Hidle) as [Hmv _].
    rewrite (moves_trace _ _ _ Hmv), registryTypes_app, elem_of_app.
    apply or_iff_compat_l.
    rewrite registryTypes_concat_map, elem_of_concat_map.
    split.
    + intros (f & Hf & Ht).
      apply elem_of_registryTypes_featureTrace in Ht as [Hd [Hs|He]].
      * rewrite (Honly f Hf Hd) in Hs. done.
      * split; [done | by exists f].
    + intros (He & f & Hf & Hd). exists f. split; [done|].
      apply elem_of_registryTypes_featureTrace. auto.
Qed.


End Facts.

Section Construction.
Context (W : World).

(** ** Construction *)

Lemma wellFormed_blank : wellFormed W (blank W).
Proof.
  unfold wellFormed, constructed, blank. simpl. split; [|done].
  split; [done|]. split; [|split; [|split]].
  - intros n. rewrite lookup_empty. split; [by intros [m Hm] | by intros ?%elem_of_nil].
  - apply map_Forall_empty.
  - by intros w ?%elem_of_nil.
  - repeat split. by destruct (init_suppress_option W) as [[??]?].
Qed.

Lemma wellFormed_print line g : wellFormed W g -> wellFormed W (print line g).
Proof. done. Qed.

Lemma registers_addModule (m : Module) (moduleName : option string) :
  suppress m = false -> header m = "" -> impl m = "" ->
  headerFile m = None -> implFile m = None ->
  registers W (addModule m moduleName) [default (basename m) moduleName].
Proof.
  intros H1 H2 H3 H4 H5 g ((Hs & Hd & Hf & Hw & Hrest) & Hacc). unfold addModule.
  set (n := default (basename m) moduleName).
  split; [|done]. split; [|exact Hacc].
  split; [exact Hs|]. split; [|split; [|split; [|exact Hrest]]]; simpl.
  - intros k. rewrite elem_of_app, list_elem_of_singleton, <- Hd.
    destruct (decide (n = k)) as [->|Hne].
    + rewrite lookup_insert_eq. split; [by right | eauto].
    + rewrite lookup_insert_ne by done. split; [by left | by intros [?|?]].
  - apply map_Forall_insert_2; done.
  - intros w Hin. apply elem_of_app. left. by apply Hw.
Qed.

Lemma registers_addCppModule directory basename extraHeader extraImpl customAbsDir
      useNamespace implOnly headerOnly suppressFeatureGuards moduleName
      suppressVulkanHeaders :
  registers W (addCppModule W directory basename extraHeader extraImpl customAbsDir
                            useNamespace implOnly false headerOnly suppressFeatureGuards
                            moduleName suppressVulkanHeaders)
            [default basename moduleName].
Proof.
  unfold addCppModule. cbv zeta.
  exact (registers_addModule (mkModule _ _ _ _ _ _ _ _ _ _ _ _ _ _ _ _) moduleName
           eq_refl eq_refl eq_refl eq_refl eq_refl).
Qed.

Lemma registers_skip line : registers W (print line) [].
Proof. intros g Hg. rewrite app_nil_r. split; [exact Hg | by split]. Qed.

Lemma registers_addGuestEncoderModule basename extraHeader extraImpl useNamespace
      headerOnly suppressFeatureGuards moduleName suppressVulkanHeaders :
  registers W (addGuestEncoderModule W basename extraHeader extraImpl useNamespace
                                     headerOnly suppressFeatureGuards moduleName
                                     suppressVulkanHeaders)
            (if guestDirExists W then [default basename moduleName] else []).
Proof.
  intros g Hg. unfold addGuestEncoderModule, guestDirExists.
  rewrite (proj1 (proj1 Hg)). destruct (path_exists W _); simpl.
  - by apply registers_addCppModule.
  - by apply registers_skip.
Qed.

Lemma registers_addHostModule basename extraHeader extraImpl useNamespace implOnly
      headerOnly suppressFeatureGuards moduleName suppressVulkanHeaders :
  registers W (addHostModule W basename extraHeader extraImpl useNamespace implOnly false
                             headerOnly suppressFeatureGuards moduleName
                             suppressVulkanHeaders)
            (if hostDirExists W then [default basename moduleName] else []).
Proof.
  intros g Hg. unfold addHostModule, hostDirExists.
  rewrite (proj1 (proj1 Hg)). destruct (path_exists W _); simpl.
  - by apply registers_addCppModule.
  - by apply registers_skip.
Qed.

Lemma binds_addWrapper L moduleType moduleName kwargs :
  binds W L (addWrapper moduleType moduleName kwargs)
        (if bool_decide (moduleName ∈ L) then [mkWrapper moduleType moduleName kwargs]
         else []).
Proof.
  intros g Hg HL. pose proof Hg as ((Hs & Hd & Hf & Hw & Hrest) & Hacc). unfold addWrapper.
  destruct (modules g !! moduleName) as [m|] eqn:Hm.
  - rewrite bool_decide_eq_true_2 by (rewrite <- HL; apply Hd; eauto).
    split; [|done]. split; [|exact Hacc].
    split; [exact Hs|]. split; [exact Hd|]. split; [exact Hf|].
    split; [|exact Hrest]. simpl.
    intros w [Hin|Hin%list_elem_of_singleton]%elem_of_app; [by apply Hw|].
    subst w. simpl. apply Hd. eauto.
  - rewrite bool_decide_eq_false_2.
    + rewrite app_nil_r. split; [exact Hg | by split].
    + rewrite <- HL. intros Hin%Hd. rewrite Hm in Hin. by destruct Hin.
Qed.

Lemma sequence_registers (stmts : list (Generator -> Generator)) (nss : list (list string)) :
  Forall2 (registers W) stmts nss ->
  forall g, wellFormed W g ->
            wellFormed W (sequence stmts g) /\
            moduleList (sequence stmts g) = moduleList g ++ concat nss /\
            wrappers (sequence stmts g) = wrappers g.
Proof.
  induction 1 as [|stmt ns stmts nss Hstmt _ IH]; intros g Hg.
  - simpl. by rewrite app_nil_r.
  - destruct (Hstmt g Hg) as (Hg1 & Hl1 & Hw1).
    destruct (IH _ Hg1) as (Hg2 & Hl2 & Hw2).
    change (sequence (stmt :: stmts) g) with (sequence stmts (stmt g)).
    split; [done|]. split; [|congruence].
    rewrite Hl2, Hl1. simpl. by rewrite app_assoc.
Qed.

Lemma sequence_binds L (stmts : list (Generator -> Generator)) (wss : list (list Wrapper)) :
  Forall2 (binds W L) stmts wss ->
  forall g, wellFormed W g -> moduleList g = L ->
            wellFormed W (sequence stmts g) /\
            moduleList (sequence stmts g) = L /\
            wrappers (sequence stmts g) = wrappers g ++ concat wss.
Proof.
  induction 1 as [|stmt ws stmts wss Hstmt _ IH]; intros g Hg HL.
  - simpl. by rewrite app_nil_r.
  - destruct (Hstmt g Hg HL) as (Hg1 & Hl1 & Hw1).
    destruct (IH _ Hg1 Hl1) as (Hg2 & Hl2 & Hw2).
    change (sequence (stmt :: stmts) g) with (sequence stmts (stmt g)).
    split; [done|]. split; [done|].
    rewrite Hw2, Hw1. simpl. by rewrite app_assoc.
Qed.

(** What [__init__] has registered when it comes to the source entries. *)
Lemma registered_spec (scripts : string) :
  wellFormed W (registered W scripts) /\
  moduleList (registered W scripts) = initModuleList (guestDirExists W) (hostDirExists W) /\
  map (fun w => (wtype w, wmodule w)) (wrappers (registered W scripts))
    = initWrappers (guestDirExists W) (hostDirExists W).
Proof.
  unfold registered.
  assert (exists nss, Forall2 (registers W) (moduleRegistrations W scripts) nss /\
                      concat nss = initModuleList (guestDirExists W) (hostDirExists W))
    as (nss & Hreg & Hnss).
  { eexists. split.
    - unfold moduleRegistrations.
      repeat (apply List.Forall2_cons;
              [first [apply registers_addGuestEncoderModule
                     |apply registers_addHostModule
                     |apply registers_addCppModule
                     |by apply registers_addModule]|]).
      apply List.Forall2_nil.
    - by destruct (guestDirExists W), (hostDirExists W). }
  destruct (sequence_registers _ _ Hreg (blank W) (wellFormed_blank)) as (Hg1 & Hl1 & Hw1).
  simpl in Hl1. rewrite Hnss in Hl1.
  set (L := initModuleList (guestDirExists W) (hostDirExists W)) in *.
  assert (exists wss, Forall2 (binds W L) wrapperRegistrations wss /\
                      map (fun w => (wtype w, wmodule w)) (concat wss)
                      = initWrappers (guestDirExists W) (hostDirExists W))
    as (wss & Hbind & Hwss).
  { eexists. split.
    - unfold wrapperRegistrations.
      repeat (apply List.Forall2_cons; [apply binds_addWrapper|]).
      apply List.Forall2_nil.
    - unfold L. by destruct (guestDirExists W), (hostDirExists W); vm_compute. }
  destruct (sequence_binds L _ _ Hbind _ Hg1 Hl1) as (Hg2 & Hl2 & Hw2).
  split; [done|]. split; [done|].
  rewrite Hw2, Hw1. simpl. exact Hwss.
Qed.

End Construction.

Section Runs.
Context (W : World).

(** ** The result of [__init__] *)

Lemma host_script_destination_environ :
  host_script_destination (readSettings W).1 = environ W !! "VK_CEREAL_HOST_SCRIPTS_DIR".
Proof.
  unfold readSettings, envGetOrNone. cbn [fst host_script_destination].
  by destruct (environ W !! "VK_CEREAL_HOST_SCRIPTS_DIR").
Qed.

Lemma init_eq :
  init W = match environ W !! "VK_CEREAL_HOST_SCRIPTS_DIR" with
           | Some scripts =>
               Ok (forEachModule (fun _ m => addSrcEntry W m) (registered W scripts))
           | None => Raise AssertionError
           end.
Proof.
  rewrite <- host_script_destination_environ.
  unfold init, registered, blank. cbv zeta.
  by destruct (host_script_destination (readSettings W).1).
Qed.

Lemma joined_app (l1 l2 : list string) : joined (l1 ++ l2) = joined l1 +:+ joined l2.
Proof.
  induction l1 as [|a l1 IH]; [done|].
  change (a +:+ joined (l1 ++ l2) = (a +:+ joined l1) +:+ joined l2).
  by rewrite IH, string_app_assoc.
Qed.

Lemma addSrcEntry_registry (m : Module) g : registry (addSrcEntry W m g) = registry g.
Proof. unfold addSrcEntry. by repeat case_decide. Qed.

Lemma addSrcEntry_accumulators (m : Module) g :
  accumulators (addSrcEntry W m g) =
  (guestAndroidMkCppFiles g +:+ guestEntries W [m],
   hostCMakeCppFiles g +:+ hostEntries W [m],
   hostDecoderCMakeCppFiles g +:+ hostDecoderEntries W [m]).
Proof.
  unfold addSrcEntry, accumulators, guestEntries, hostEntries, hostDecoderEntries.
  rewrite !filter_cons, !filter_nil. unfold guest_encoder_tag, host_tag.
  repeat case_decide; try tauto; try congruence;
    cbn; by rewrite !string_app_nil_r.
Qed.

Lemma guestEntries_cons m ms :
  guestEntries W (m :: ms) = guestEntries W [m] +:+ guestEntries W ms.
Proof.
  unfold guestEntries. change (m :: ms) with ([m] ++ ms).
  by rewrite filter_app, map_app, joined_app.
Qed.

Lemma hostEntries_cons m ms :
  hostEntries W (m :: ms) = hostEntries W [m] +:+ hostEntries W ms.
Proof.
  unfold hostEntries. change (m :: ms) with ([m] ++ ms).
  by rewrite filter_app, map_app, joined_app.
Qed.

Lemma hostDecoderEntries_cons m ms :
  hostDecoderEntries W (m :: ms) = hostDecoderEntries W [m] +:+ hostDecoderEntries W ms.
Proof.
  unfold hostDecoderEntries. change (m :: ms) with ([m] ++ ms).
  by rewrite filter_app, map_app, joined_app.
Qed.

(** The loop [self.forEachModule(addSrcEntry)]. *)
Lemma addSrcEntry_loop (l : list string) :
  forall g,
    registry (collectSrcEntries W l g) = registry g /\
    accumulators (collectSrcEntries W l g) =
      (guestAndroidMkCppFiles g +:+ guestEntries W (omap (fun n => modules g !! n) l),
       hostCMakeCppFiles g +:+ hostEntries W (omap (fun n => modules g !! n) l),
       hostDecoderCMakeCppFiles g +:+ hostDecoderEntries W (omap (fun n => modules g !! n) l)).
Proof.
  induction l as [|n l IH]; intros g.
  - split; [done|]. unfold accumulators. cbn. by rewrite !string_app_nil_r.
  - change (collectSrcEntries W (n :: l) g)
      with (collectSrcEntries W l (match modules g !! n with
                                   | Some m => addSrcEntry W m g
                                   | None => g
                                   end)).
    assert (omap (fun n => modules g !! n) (n :: l) =
            match modules g !! n with
            | Some m => m :: omap (fun n => modules g !! n) l
            | None => omap (fun n => modules g !! n) l
            end) as -> by done.
    destruct (modules g !! n) as [m|] eqn:Hm; [|by apply IH].
    destruct (IH (addSrcEntry W m g)) as [Hr Ha].
    pose proof (addSrcEntry_registry m g) as Hr1.
    pose proof (addSrcEntry_accumulators m g) as Ha1.
    split; [congruence|]. rewrite Ha.
    assert (modules (addSrcEntry W m g) = modules g) as ->
      by (unfold registry in Hr1; by simplify_eq).
    unfold accumulators in Ha1. injection Ha1 as -> -> ->.
    rewrite (guestEntries_cons m (omap _ l)), (hostEntries_cons m (omap _ l)),
      (hostDecoderEntries_cons m (omap _ l)).
    by rewrite !string_app_assoc.
Qed.

(** What [__init__] returns: the registrations, and the source entries of
    the registered modules in the three accumulators. *)
Lemma init_spec g :
  init W = Ok g ->
  exists scripts,
    environ W !! "VK_CEREAL_HOST_SCRIPTS_DIR" = Some scripts /\
    registry g = registry (registered W scripts) /\
    accumulators g = (guestEntries W (moduleObjects g), hostEntries W (moduleObjects g),
                      hostDecoderEntries W (moduleObjects g)).
Proof.
  rewrite init_eq. destruct (environ W !! _) as [scripts|]; [|done].
  destruct (registered_spec W scripts) as ((_ & Hacc) & _ & _).
  intros Hg. exists scripts. split; [done|].
  revert Hg Hacc. generalize (registered W scripts). intros r [= <-] Hacc.
  destruct (addSrcEntry_loop (moduleList r) r) as [Hr Ha].
  change (collectSrcEntries W (moduleList r) r)
    with (forEachModule (fun _ m => addSrcEntry W m) r) in Hr, Ha.
  split; [exact Hr|]. rewrite Ha. unfold moduleObjects.
  assert (modules (forEachModule (fun _ m => addSrcEntry W m) r) = modules r) as ->
    by (unfold registry in Hr; by simplify_eq).
  assert (moduleList (forEachModule (fun _ m => addSrcEntry W m) r) = moduleList r) as ->
    by (unfold registry in Hr; by simplify_eq).
  injection Hacc as -> -> ->. done.
Qed.

Lemma constructed_registry g g' :
  registry g' = registry g -> constructed W g -> constructed W g'.
Proof.
  unfold registry, constructed. intros H.
  replace (settings g') with (settings g) by congruence.
  replace (modules g') with (modules g) by congruence.
  replace (moduleList g') with (moduleList g) by congruence.
  replace (wrappers g') with (wrappers g) by congruence.
  replace (feat g') with (feat g) by congruence.
  replace (trace g') with (trace g) by congruence.
  replace (outFile g') with (outFile g) by congruence.
  replace (suppressEnabled g') with (suppressEnabled g) by congruence.
  replace (suppressExceptModule g') with (suppressExceptModule g) by congruence.
  done.
Qed.

Lemma init_constructed g :
  init W = Ok g ->
  constructed W g /\
  moduleList g = initModuleList (guestDirExists W) (hostDirExists W) /\
  map (fun w => (wtype w, wmodule w)) (wrappers g)
    = initWrappers (guestDirExists W) (hostDirExists W).
Proof.
  intros (scripts & _ & Hr & _)%init_spec.
  destruct (registered_spec W scripts) as ((Hc & _) & Hl & Hw).
  revert Hr Hc Hl Hw. generalize (registered W scripts). intros r Hr Hc Hl Hw.
  split; [by apply (constructed_registry r)|].
  unfold registry in Hr.
  replace (moduleList g) with (moduleList r) by congruence.
  replace (wrappers g) with (wrappers r) by congruence. done.
Qed.


(** ** The handlers of a file *)

Lemma registeredNames_moves tr g g' :
  moves W tr g g' -> registeredNames g' = registeredNames g.
Proof.
  intros H. unfold registeredNames. rewrite (moves_moduleList W _ _ _ H).
  apply filter_ext_in. intros n _.
  pose proof (moves_extends W _ _ _ n H) as Hc. by destruct Hc.
Qed.

Lemma calls_eachModule (op : ModuleOp) g :
  calls W (map (fun n => ModuleCall n op) (registeredNames g)) g
        (forEachModule (fun n _ => callModule n op) g).
Proof. exact (calls_forEachModule W (fun _ => true) op g (fun _ _ _ => eq_refl)). Qed.

Lemma beginCalls_calls (directory : string) g :
  calls W (beginTrace directory g) g (beginCalls W directory g).
Proof.
  unfold beginCalls, beginTrace.
  pose proof (calls_eachModule (m_begin directory) g) as H1.
  eapply calls_trans; [exact H1|].
  rewrite <- (moves_wrappers W _ _ _ (proj2 H1)). apply calls_forEachWrapper.
Qed.

Lemma endFile_calls g : calls W (endTrace g) g (endFile W g).
Proof.
  unfold endFile, endTrace.
  pose proof (calls_callTypeInfo W onEnd g) as H1.
  eapply calls_trans; [exact H1|].
  pose proof (calls_forEachWrapper W onEnd None (callTypeInfo onEnd g)) as H2.
  eapply calls_trans; [exact H2|].
  rewrite <- (registeredNames_moves _ _ _ (proj2 (calls_trans W _ _ _ _ _ H1 H2))).
  apply calls_eachModule.
Qed.

(** The calls of a traversal once [beginFile] has set the suppression
    flags and written the CMake list. *)
Lemma traversal_moves (directory : string) (fs : list Feature) g :
  featureSupported g = false ->
  moves W (runTrace directory fs g) g
        (endFile W (runFeatures W fs (beginCalls W directory g))).
Proof.
  intros Hidle. unfold runTrace.
  pose proof (beginCalls_calls directory g) as H1.
  set (g1 := beginCalls W directory g) in *.
  assert (featureSupported g1 = false) as Hidle1
    by (by rewrite (calls_featureSupported W _ _ _ H1)).
  destruct (runFeatures_moves W fs g1 Hidle1) as [H2 _].
  set (g2 := runFeatures W fs g1) in *.
  pose proof (endFile_calls g2) as H3.
  pose proof (moves_trans W _ _ _ _ _ (proj2 H1) H2) as H12.
  eapply moves_trans; [exact (proj2 H1)|]. eapply moves_trans.
  - replace (map (featureTrace g) fs) with (map (featureTrace g1) fs); [exact H2|].
    apply map_ext. intros f. by apply (featureTrace_moves W _ _ _ _ (proj2 H1)).
  - unfold endTrace in H3 |- *.
    rewrite <- (moves_wrappers W _ _ _ H12), <- (registeredNames_moves _ _ _ H12).
    exact (proj2 H3).
Qed.

(** ** Events one after the other *)

Lemma run_app g (evs1 evs2 : list Event) :
  run W g (evs1 ++ evs2) = g' ← run W g evs1; run W g' evs2.
Proof.
  revert g. induction evs1 as [|ev evs1 IH]; intros g; [done|].
  cbn [app run]. destruct (handle W g ev) as [g1|e]; [apply IH | done].
Qed.

Lemma run_gens (ds : list Defn) g :
  run W g (map genE ds) = Ok (foldl (fun g d => gen W d g) g ds).
Proof. revert g. induction ds as [|d ds IH]; intros g; [done | apply IH]. Qed.

Lemma run_featureEvents (f : Feature) g :
  run W g (featureEvents f) = Ok (runFeature W f g).
Proof.
  unfold featureEvents, runFeature.
  change (run W (beginFeature W (interface f) (emit f) g)
              (map genE (definitions f) ++ [endFeatureE])
          = Ok (endFeature W (foldl (fun g d => gen W d g)
                                    (beginFeature W (interface f) (emit f) g)
                                    (definitions f)))).
  by rewrite run_app, run_gens.
Qed.

Lemma run_features (fs : list Feature) g :
  run W g (concat (map featureEvents fs)) = Ok (runFeatures W fs g).
Proof.
  revert g. induction fs as [|f fs IH]; intros g; [done|].
  cbn [map concat]. rewrite run_app, run_featureEvents. apply IH.
Qed.

Lemma run_traversal (directory : string) (fs : list Feature) g :
  run W g (traversal directory fs) =
  g1 ← beginFile W directory g; Ok (endFile W (runFeatures W fs g1)).
Proof.
  unfold traversal. cbn [run handle].
  destruct (beginFile W directory g) as [g1|e]; [|done].
  change (run W g1 (concat (map featureEvents fs) ++ [endFileE])
          = Ok (endFile W (runFeatures W fs g1))).
  by rewrite run_app, run_features.
Qed.

(** ** [beginFile] *)

Lemma set_suppress_twice (a b : bool) m :
  set_suppress a (set_suppress b m) = set_suppress a m.
Proof. done. Qed.

Lemma set_suppress_id m : set_suppress (suppress m) m = m.
Proof. by destruct m. Qed.

Lemma suppressAll_spec (l : list string) :
  forall g,
    frame (suppressAll l g) = frame g /\
    forall n, modules (suppressAll l g) !! n =
              if bool_decide (n ∈ l) then set_suppress true <$> modules g !! n
              else modules g !! n.
Proof.
  induction l as [|k l IH]; intros g; [done|].
  change (suppressAll (k :: l) g)
    with (suppressAll l (match modules g !! k with
                         | Some m => enableSuppression k m g
                         | None => g
                         end)).
  set (g1 := match modules g !! k with Some m => enableSuppression k m g | None => g end).
  assert (frame g1 = frame g) as Hf1 by (unfold g1; by destruct (modules g !! k)).
  assert (forall n, modules g1 !! n =
                    if decide (n = k) then set_suppress true <$> modules g !! n
                    else modules g !! n) as Hm1.
  { intros n. unfold g1. destruct (modules g !! k) as [m|] eqn:Hk.
    - simpl. destruct (decide (n = k)) as [->|Hne].
      + by rewrite lookup_insert_eq, Hk.
      + by rewrite lookup_insert_ne.
    - destruct (decide (n = k)) as [->|Hne]; [by rewrite Hk | done]. }
  destruct (IH g1) as [Hf Hm]. split; [congruence|].
  intros n. rewrite Hm, Hm1.
  destruct (decide (n = k)) as [->|Hne].
  - rewrite (bool_decide_eq_true_2 (k ∈ k :: l)) by left.
    destruct (bool_decide (k ∈ l)); [|done].
    by destruct (modules g !! k).
  - destruct (decide (n ∈ l)) as [Hin|Hin].
    + rewrite !bool_decide_eq_true_2; [done | by right | done].
    + rewrite !bool_decide_eq_false_2; [done | | done].
      intros [->|H]%elem_of_cons; done.
Qed.

Lemma suppressAllBut_spec (kept : string) g :
  (forall n, is_Some (modules g !! n) <-> n ∈ moduleList g) ->
  frame (suppressAllBut kept g) = frame g /\
  forall n, modules (suppressAllBut kept g) !! n =
            set_suppress (bool_decide (n ≠ kept)) <$> modules g !! n.
Proof.
  intros Hdom. destruct (suppressAll_spec (moduleList g) g) as [Hf Hm].
  split; [exact Hf|]. intros n. unfold suppressAllBut. cbn [modules set_modules].
  destruct (decide (n = kept)) as [->|Hne].
  - rewrite lookup_alter_eq, Hm, (bool_decide_eq_false_2 (kept ≠ kept)) by tauto.
    destruct (modules g !! kept) as [m|]; [|by destruct (bool_decide _)].
    by destruct (bool_decide _).
  - rewrite lookup_alter_ne, Hm, (bool_decide_eq_true_2 (n ≠ kept)) by done.
    case_bool_decide as Hin; [done|].
    destruct (modules g !! n) as [m|] eqn:Hn; [|done].
    destruct Hin. apply Hdom. eauto.
Qed.

Lemma beginFile_unsuppressed (directory : string) g :
  suppressEnabled g = false ->
  beginFile W directory g =
  Ok (beginCalls W directory (write (host_cmake_generator W g (hostCMakeCppFiles g)) g)).
Proof. intros H. unfold beginFile. rewrite H. cbn. by rewrite H. Qed.

Lemma beginFile_suppressed (directory kept : string) g :
  suppressEnabled g = true -> suppressExceptModule g = Some kept ->
  is_Some (modules g !! kept) -> kept ∈ moduleList g ->
  beginFile W directory g = Ok (beginCalls W directory (suppressAllBut kept g)).
Proof.
  intros He Hk [m Hm] Hin. unfold beginFile. rewrite He.
  change (forEachModule enableSuppression g) with (suppressAll (moduleList g) g).
  destruct (suppressAll_spec (moduleList g) g) as [Hf Hl].
  assert (suppressExceptModule (suppressAll (moduleList g) g) = Some kept) as ->
    by (unfold frame, fixed in Hf; rewrite <- Hk; congruence).
  assert (modules (suppressAll (moduleList g) g) !! kept = Some (set_suppress true m)) as Hm'
    by (by rewrite Hl, bool_decide_eq_true_2, Hm).
  rewrite Hm'. cbn [mbind result_bind].
  assert (suppressEnabled (suppressAll (moduleList g) g) = true) as He'
    by (unfold frame, fixed in Hf; rewrite <- He; congruence).
  cbn [suppressEnabled set_modules]. rewrite He'.
  unfold beginCalls, suppressAllBut. do 4 f_equal.
  apply map_eq. intros n. destruct (decide (n = kept)) as [->|Hne].
  - by rewrite lookup_insert_eq, lookup_alter_eq, Hm'.
  - by rewrite lookup_insert_ne, lookup_alter_ne.
Qed.


(** ** The world without the suppression switch *)

Lemma replay_world (W' : World) ws n tr :
  wrapperEmit W' = wrapperEmit W ->
  forall pre m, replay W' ws n pre tr m = replay W ws n pre tr m.
Proof.
  intros HW. induction tr as [|c tr IH]; intros pre m; [done|].
  cbn [replay]. rewrite IH. f_equal.
  destruct c as [cb|i cb|k op]; cbn [replayCall]; try done. by rewrite HW.
Qed.

Lemma moves_world (W' : World) tr g g' :
  wrapperEmit W' = wrapperEmit W -> moves W' tr g g' -> moves W tr g g'.
Proof.
  intros HW (Hf & Hm & Ht). split; [done|]. split; [|done].
  intros n. rewrite Hm. destruct (modules g !! n); [|done].
  simpl. by rewrite replay_world.
Qed.

Lemma environ_unsuppressed (key : string) :
  key ≠ "ANDROID_EMU_VK_CEREAL_SUPPRESS" ->
  environ (unsuppressed W) !! key = environ W !! key.
Proof. intros H. unfold unsuppressed. cbn [environ]. by rewrite lookup_delete_ne. Qed.

Lemma readSettings_unsuppressed : (readSettings (unsuppressed W)).1 = (readSettings W).1.
Proof.
  unfold readSettings, envGetOrDefault, envGetOrNone. cbn [fst].
  rewrite !environ_unsuppressed by done. done.
Qed.

Lemma init_suppress_option_unsuppressed :
  init_suppress_option (unsuppressed W) = (false, None, []).
Proof.
  unfold init_suppress_option, unsuppressed. cbn [environ]. by rewrite lookup_delete_eq.
Qed.

End Runs.

Section Isolation.
Context (W : World).

(** ** The registrations do not read the suppression switch *)

Lemma onCore_print (line : string) : onCore (print line).
Proof. by intros g g' H. Qed.

Lemma onCore_addModule (m : Module) (moduleName : option string) :
  onCore (addModule m moduleName).
Proof.
  intros g g' H. unfold core in *. unfold addModule. cbn.
  replace (modules g') with (modules g) by congruence.
  replace (moduleList g') with (moduleList g) by congruence.
  replace (wrappers g') with (wrappers g) by congruence.
  replace (settings g') with (settings g) by congruence. done.
Qed.

Lemma onCore_addCppModule directory basename extraHeader extraImpl customAbsDir
      useNamespace implOnly suppress headerOnly suppressFeatureGuards moduleName
      suppressVulkanHeaders :
  onCore (addCppModule W directory basename extraHeader extraImpl customAbsDir
                       useNamespace implOnly suppress headerOnly suppressFeatureGuards
                       moduleName suppressVulkanHeaders).
Proof. unfold addCppModule. cbv zeta. apply onCore_addModule. Qed.

Lemma onCore_addGuestEncoderModule basename extraHeader extraImpl useNamespace
      headerOnly suppressFeatureGuards moduleName suppressVulkanHeaders :
  onCore (addGuestEncoderModule W basename extraHeader extraImpl useNamespace
                                headerOnly suppressFeatureGuards moduleName
                                suppressVulkanHeaders).
Proof.
  intros g g' H. unfold addGuestEncoderModule.
  replace (settings g') with (settings g) by (unfold core in H; congruence).
  destruct (path_exists W _); cbn [negb].
  - by apply onCore_addCppModule.
  - by apply onCore_print.
Qed.

Lemma onCore_addHostModule basename extraHeader extraImpl useNamespace implOnly suppress
      headerOnly suppressFeatureGuards moduleName suppressVulkanHeaders :
  onCore (addHostModule W basename extraHeader extraImpl useNamespace implOnly suppress
                        headerOnly suppressFeatureGuards moduleName
                        suppressVulkanHeaders).
Proof.
  intros g g' H. unfold addHostModule.
  replace (settings g') with (settings g) by (unfold core in H; congruence).
  destruct (path_exists W _); cbn [negb].
  - by apply onCore_addCppModule.
  - by apply onCore_print.
Qed.

Lemma onCore_addWrapper moduleType moduleName kwargs :
  onCore (addWrapper moduleType moduleName kwargs).
Proof.
  intros g g' H. unfold addWrapper.
  replace (modules g') with (modules g) by (unfold core in H; congruence).
  destruct (modules g !! moduleName); [|exact H].
  unfold core in *. cbn.
  replace (modules g') with (modules g) by congruence.
  replace (moduleList g') with (moduleList g) by congruence.
  replace (wrappers g') with (wrappers g) by congruence.
  replace (settings g') with (settings g) by congruence. done.
Qed.

Lemma onCore_sequence (stmts : list (Generator -> Generator)) :
  Forall onCore stmts -> onCore (sequence stmts).
Proof.
  induction 1 as [|stmt stmts Hs _ IH]; intros g g' H; [done|].
  change (core (sequence stmts (stmt g)) = core (sequence stmts (stmt g'))).
  by apply IH, Hs.
Qed.

Lemma onCore_moduleRegistrations (scripts : string) :
  Forall onCore (moduleRegistrations W scripts).
Proof.
  unfold moduleRegistrations.
  repeat (apply List.Forall_cons;
          [first [apply onCore_addGuestEncoderModule
                 |apply onCore_addHostModule
                 |apply onCore_addCppModule
                 |apply onCore_addModule]|]).
  apply List.Forall_nil.
Qed.

Lemma onCore_wrapperRegistrations : Forall onCore wrapperRegistrations.
Proof.
  unfold wrapperRegistrations.
  repeat (apply List.Forall_cons; [apply onCore_addWrapper|]).
  apply List.Forall_nil.
Qed.

Lemma moduleRegistrations_unsuppressed (scripts : string) :
  moduleRegistrations (unsuppressed W) scripts = moduleRegistrations W scripts.
Proof. reflexivity. Qed.

Lemma core_registered (scripts : string) :
  core (registered (unsuppressed W) scripts) = core (registered W scripts).
Proof.
  unfold registered. rewrite moduleRegistrations_unsuppressed.
  apply onCore_sequence; [apply onCore_wrapperRegistrations|].
  apply onCore_sequence; [apply onCore_moduleRegistrations|].
  unfold core, blank. cbn [modules moduleList wrappers settings].
  by rewrite readSettings_unsuppressed.
Qed.

Lemma core_registry g g' : registry g = registry g' -> core g = core g'.
Proof.
  unfold registry, core. intros H.
  replace (modules g') with (modules g) by congruence.
  replace (moduleList g') with (moduleList g) by congruence.
  replace (wrappers g') with (wrappers g) by congruence.
  replace (settings g') with (settings g) by congruence. done.
Qed.

(** [__init__] without the switch registers the same modules and the same
    wrappers. *)
Lemma init_unsuppressed g :
  init W = Ok g ->
  exists g0, init (unsuppressed W) = Ok g0 /\ core g0 = core g /\
             constructed (unsuppressed W) g0.
Proof.
  intros Hg. destruct (init_spec W g Hg) as (scripts & Henv & Hr & _).
  pose proof (init_eq (unsuppressed W)) as H0.
  rewrite environ_unsuppressed, Henv in H0 by done.
  eexists. split; [exact H0|].
  destruct (init_spec (unsuppressed W) _ H0) as (scripts' & Henv' & Hr' & _).
  rewrite environ_unsuppressed, Henv in Henv' by done. injection Henv' as <-.
  split.
  - rewrite (core_registry _ _ Hr'), (core_registry _ _ Hr). apply core_registered.
  - by apply (init_constructed (unsuppressed W)).
Qed.

Lemma guest_names_unregistered (host : bool) :
  Forall (fun n => n ∉ initModuleList false host) guestModuleNames.
Proof. destruct host; apply (bool_decide_unpack _); by vm_compute. Qed.

Lemma constructed_idle g : constructed W g -> featureSupported g = false.
Proof. intros (_ & _ & _ & _ & Hf & _). unfold feat in Hf. congruence. Qed.

(** A run without the suppression switch returns, with the modules and the
    wrappers of the construction. *)
Lemma main_unsuppressed (directory : string) (fs : list Feature) g :
  init W = Ok g -> suppressEnabled g = false ->
  exists g', main W directory fs = Ok g' /\
             moves W (runTrace directory fs g)
                   (write (host_cmake_generator W g (hostCMakeCppFiles g)) g) g'.
Proof.
  intros Hg Hs. unfold main. rewrite Hg. cbn [mbind result_bind].
  rewrite run_traversal, beginFile_unsuppressed by done. cbn [mbind result_bind].
  eexists. split; [done|].
  apply (traversal_moves W directory fs
           (write (host_cmake_generator W g (hostCMakeCppFiles g)) g)).
  apply (init_constructed W) in Hg as [Hc _]. by apply constructed_idle in Hc.
Qed.

Lemma fixed_accumulators g g' :
  fixed g' = fixed g -> accumulators g' = accumulators g /\ outFile g' = outFile g.
Proof. unfold fixed, accumulators. intros H. split; congruence. Qed.

Lemma beginFile_frame (directory : string) g gb :
  beginFile W directory g = Ok gb ->
  accumulators gb = accumulators g /\
  outFile gb = if suppressEnabled g then outFile g
               else outFile g +:+ host_cmake_generator W g (hostCMakeCppFiles g) +:+ nl.
Proof.
  destruct (suppressEnabled g) eqn:He.
  - unfold beginFile. rewrite He.
    change (forEachModule enableSuppression g) with (suppressAll (moduleList g) g).
    destruct (suppressAll_spec (moduleList g) g) as [Hf _].
    revert Hf. generalize (suppressAll (moduleList g) g). intros g1 Hf.
    destruct (suppressExceptModule g1) as [kept|]; [|done].
    destruct (modules g1 !! kept) as [m|]; [|done].
    cbn [mbind result_bind suppressEnabled set_modules].
    assert (suppressEnabled g1 = true) as ->
      by (unfold frame, fixed in Hf; rewrite <- He; congruence).
    intros [= <-].
    pose proof (beginCalls_calls W directory
                  (set_modules (<[kept := set_suppress false m]> (modules g1)) g1))
      as [_ (Hfix & _)].
    apply fixed_accumulators in Hfix as [Ha Ho].
    assert (fixed g1 = fixed g) as [Ha1 Ho1]%fixed_accumulators
      by (unfold frame in Hf; congruence).
    split; [exact (eq_trans Ha Ha1) | exact (eq_trans Ho Ho1)].
  - rewrite beginFile_unsuppressed by done. intros [= <-].
    pose proof (beginCalls_calls W directory
                  (write (host_cmake_generator W g (hostCMakeCppFiles g)) g))
      as [_ (Hfix & _)].
    apply fixed_accumulators in Hfix as [Ha Ho]. split; [exact Ha | exact Ho].
Qed.

(** The calls of a traversal are read off the names, the wrappers and what
    stays of the modules. *)
Lemma runTrace_ext (directory : string) (fs : list Feature) g g' :
  moduleList g = moduleList g' -> wrappers g = wrappers g' ->
  (forall n, option_Forall2 (fun m m' => guarded m = guarded m')
                            (modules g !! n) (modules g' !! n)) ->
  runTrace directory fs g = runTrace directory fs g'.
Proof.
  intros Hl Hw Hm.
  assert (registeredNames g = registeredNames g') as Hr.
  { unfold registeredNames. rewrite Hl. apply filter_ext_in. intros n _.
    by destruct (Hm n). }
  assert (guardedNames g = guardedNames g') as Hg.
  { unfold guardedNames, guardedIn. rewrite Hl. apply filter_ext_in. intros n _.
    destruct (Hm n) as [m m' E|]; simpl; [by rewrite E | done]. }
  unfold runTrace, beginTrace, endTrace. rewrite Hr, Hw. do 3 f_equal.
  apply map_ext. intros f.
  unfold featureTrace, beginGuardsTrace, beginWrappersTrace, endGuardsTrace.
  by rewrite Hg, Hw.
Qed.

End Isolation.

Section Claims.
Context (W : World).

(** C9.  The guest encoder destination does not exist.
    - Every call of [addGuestEncoderModule] made with the settings of the
      construction prints the path with the note that it is skipped and
      does nothing else: no module is registered, nothing is raised.
    - [addWrapper] on a name that is not registered leaves the wrappers
      and the modules as they are.
    - When the scripts destination is set, [__init__] returns; the modules
      it has registered are the common ones, the script and, where the host
      destination exists, the host ones; none of the nine guest names is a
      key of [self.modules]; the wrappers are those of the common and host
      modules, none on a guest name; and without the suppression switch the
      whole run returns with these modules and wrappers. *)
Theorem guest_directory_missing :
  guestDirExists W = false ->
  (forall basename extraHeader extraImpl useNamespace headerOnly suppressFeatureGuards
          moduleName suppressVulkanHeaders g,
     settings g = (readSettings W).1 ->
     addGuestEncoderModule W basename extraHeader extraImpl useNamespace headerOnly
                           suppressFeatureGuards moduleName suppressVulkanHeaders g =
     print ("Path [" +:+ guest_abs_encoder_destination (readSettings W).1 +:+
            "] not found (guest encoder path), skipping") g) /\
  (forall moduleType moduleName kwargs g,
     modules g !! moduleName = None ->
     wrappers (addWrapper moduleType moduleName kwargs g) = wrappers g /\
     modules (addWrapper moduleType moduleName kwargs g) = modules g) /\
  (forall scripts,
     environ W !! "VK_CEREAL_HOST_SCRIPTS_DIR" = Some scripts ->
     exists g,
       init W = Ok g /\
       moduleList g = initModuleList false (hostDirExists W) /\
       (forall n, n ∈ guestModuleNames -> modules g !! n = None) /\
       map (fun w => (wtype w, wmodule w)) (wrappers g)
         = initWrappers false (hostDirExists W) /\
       (forall w, w ∈ wrappers g -> wmodule w ∉ guestModuleNames) /\
       (environ W !! "ANDROID_EMU_VK_CEREAL_SUPPRESS" = None ->
        forall directory fs,
          exists g', main W directory fs = Ok g' /\
                     moduleList g' = moduleList g /\ wrappers g' = wrappers g)).
Proof.
  intros Hguest. split; [|split].
  - intros. unfold addGuestEncoderModule, guestDirExists in *.
    rewrite H, Hguest. done.
  - intros t n kw g Hn. unfold addWrapper. by rewrite Hn.
  - intros scripts Henv. pose proof (init_eq W) as Hg. rewrite Henv in Hg.
    eexists. split; [exact Hg|].
    destruct (init_constructed W _ Hg) as (Hc & Hl & Hw). rewrite Hguest in Hl, Hw.
    revert Hg Hc Hl Hw. generalize (forEachModule (fun _ m => addSrcEntry W m)
                                                  (registered W scripts)).
    intros g Hg Hc Hl Hw.
    assert (forall n, n ∈ guestModuleNames -> n ∉ moduleList g) as Hnot.
    { intros n Hn. rewrite Hl.
      exact (proj1 (Forall_forall _ _) (guest_names_unregistered (hostDirExists W)) n Hn). }
    split; [exact Hl|]. split; [|split; [exact Hw|split]].
    + intros n Hn. destruct (modules g !! n) as [m|] eqn:Hm; [|done].
      destruct (Hnot n Hn). apply Hc. eauto.
    + intros w Hin Hn. apply (Hnot _ Hn). by apply Hc.
    + intros Hsw directory fs.
      assert (suppressEnabled g = false) as Hs.
      { destruct Hc as (_ & _ & _ & _ & _ & _ & _ & Hsup).
        unfold init_suppress_option in Hsup. rewrite Hsw in Hsup. cbn in Hsup. congruence. }
      destruct (main_unsuppressed W directory fs g Hg Hs) as (g' & Hm & Hmv).
      exists g'. split; [exact Hm|].
      split; [exact (moves_moduleList W _ _ _ Hmv) | exact (moves_wrappers W _ _ _ Hmv)].
Qed.

(** C4.  [addWrapper] with a name that is not a key of [self.modules]
    prints one line, which names the module and lists the known ones, and
    returns: no wrapper is added, nothing else changes and nothing is
    raised.  The construction goes on: whenever the scripts destination is
    set, [__init__] returns with the wrappers whose module is registered,
    in the order of the [addWrapper] statements, and without the
    suppression switch the traversal runs to its end with these
    wrappers. *)
Theorem unknown_module_reported (moduleType : WrapperType) (moduleName : string)
                                (kwargs : list (string * string)) (g : Generator) :
  modules g !! moduleName = None ->
  addWrapper moduleType moduleName kwargs g =
    print ("Unknown module: " +:+ moduleName +:+ ". All known modules are: " +:+
           String.concat ", " (keysInOrder (moduleList g)) +:+ ".") g /\
  (forall scripts,
     environ W !! "VK_CEREAL_HOST_SCRIPTS_DIR" = Some scripts ->
     exists g0,
       init W = Ok g0 /\
       map (fun w => (wtype w, wmodule w)) (wrappers g0)
         = initWrappers (guestDirExists W) (hostDirExists W) /\
       (environ W !! "ANDROID_EMU_VK_CEREAL_SUPPRESS" = None ->
        forall directory fs,
          exists g', main W directory fs = Ok g' /\ wrappers g' = wrappers g0)).
Proof.
  intros Hn. split; [unfold addWrapper; by rewrite Hn|].
  intros scripts Henv. pose proof (init_eq W) as Hg. rewrite Henv in Hg.
  eexists. split; [exact Hg|].
  destruct (init_constructed W _ Hg) as (Hc & _ & Hw).
  revert Hg Hc Hw. generalize (forEachModule (fun _ m => addSrcEntry W m)
                                             (registered W scripts)).
  intros g0 Hg Hc Hw. split; [exact Hw|].
  intros Hsw directory fs.
  assert (suppressEnabled g0 = false) as Hs.
  { destruct Hc as (_ & _ & _ & _ & _ & _ & _ & Hsup).
    unfold init_suppress_option in Hsup. rewrite Hsw in Hsup. cbn in Hsup. congruence. }
  destruct (main_unsuppressed W directory fs g0 Hg Hs) as (g' & Hm & Hmv).
  exists g'. split; [exact Hm | exact (moves_wrappers W _ _ _ Hmv)].
Qed.

(** C5.  The generator keeps no count of the features that are open.
    - [endFeature] while no supported feature is active does what the
      superclass does and returns: no guard is closed and nothing is
      called; the generator is left as the superclass leaves it.
    - [beginFeature] while a supported feature is still active treats the
      new feature as supported whatever its name: the registry is told,
      every guarded module receives a further guard-open line in both
      buffers and the wrappers are called; the feature before is not
      closed. *)
Theorem guard_imbalance_unchecked (g : Generator) :
  (featureSupported g = false -> endFeature W g = OutputGenerator_endFeature g) /\
  (featureSupported g = true ->
   forall interface emit,
     trace (beginFeature W interface emit g) =
       trace g ++ beginGuardsTrace g interface ++ beginWrappersTrace g interface /\
     featureSupported (beginFeature W interface emit g) = true).
Proof.
  split; [apply endFeature_unsupported|].
  intros Hs i e. rewrite beginFeature_split by (by rewrite Hs).
  destruct (moves_beginGuards W i g) as [H1 Hf].
  pose proof (calls_beginWrappers W i (beginGuards i g)) as H2.
  split.
  - rewrite (moves_trace W _ _ _ (proj2 H2)), (moves_trace W _ _ _ H1), <- app_assoc.
    do 2 f_equal. unfold beginWrappersTrace. by rewrite (moves_wrappers W _ _ _ H1).
  - rewrite (calls_featureSupported W _ _ _ H2). unfold feat in Hf. by simplify_eq.
Qed.

(** C8.  The source entries.  [addSrcEntry] appends the entry of a module
    to one of three accumulators, chosen by the directory tag alone: the
    makefile entry to the guest list for the guest tag, the CMake entry to
    the host decoder list for the host tag, the CMake entry to the host
    list otherwise; the suppression flag is not read.  After [__init__]
    the three lists hold the entries of all registered modules, by tag, in
    the order of registration.  [beginFile], which sets the suppression
    flags, leaves the three lists as they are, and the one list it writes,
    through [host_cmake_generator], is the host list, and only when the
    suppression switch is off. *)
Theorem source_entries_collected (g : Generator) :
  init W = Ok g ->
  guestAndroidMkCppFiles g = guestEntries W (moduleObjects g) /\
  hostDecoderCMakeCppFiles g = hostDecoderEntries W (moduleObjects g) /\
  hostCMakeCppFiles g = hostEntries W (moduleObjects g) /\
  (forall (m : Module) (g0 : Generator),
     accumulators (addSrcEntry W m g0) =
     (guestAndroidMkCppFiles g0 +:+ guestEntries W [m],
      hostCMakeCppFiles g0 +:+ hostEntries W [m],
      hostDecoderCMakeCppFiles g0 +:+ hostDecoderEntries W [m])) /\
  (forall directory gb,
     beginFile W directory g = Ok gb ->
     accumulators gb = accumulators g /\
     outFile gb = if suppressEnabled g then ""
                  else host_cmake_generator W g (hostCMakeCppFiles g) +:+ nl).
Proof.
  intros Hg. destruct (init_spec W g Hg) as (scripts & _ & _ & Hacc).
  unfold accumulators in Hacc.
  split; [congruence|]. split; [congruence|]. split; [congruence|].
  split; [apply addSrcEntry_accumulators|].
  intros directory gb Hb. destruct (beginFile_frame W directory g gb Hb) as [Ha Ho].
  split; [exact Ha|]. rewrite Ho.
  destruct (init_constructed W g Hg) as ((_ & _ & _ & _ & _ & _ & Hout & _) & _).
  rewrite Hout. done.
Qed.

(** C6.  The suppression switch names a registered module [M].
    - [beginFile] returns, and in the generator it leaves every registered
      module other than [M] has [suppress] set and [M] has not.
    - The whole run returns; every module other than [M] has written
      nothing at the end of it; and the module [M], with its buffers and
      the files it has written, is the very module that the run without
      the switch leaves under that name. *)
Theorem suppression_isolation (M directory : string) (fs : list Feature) (g : Generator) :
  environ W !! "ANDROID_EMU_VK_CEREAL_SUPPRESS" = Some M -> M ≠ "" ->
  init W = Ok g -> M ∈ moduleList g ->
  (exists gb,
     beginFile W directory g = Ok gb /\
     forall n m, modules gb !! n = Some m -> suppress m = bool_decide (n ≠ M)) /\
  (exists gs gu,
     main W directory fs = Ok gs /\
     main (unsuppressed W) directory fs = Ok gu /\
     (forall n m, modules gs !! n = Some m -> n ≠ M -> written m = []) /\
     is_Some (modules gs !! M) /\
     modules gs !! M = modules gu !! M).
Proof.
  intros Hsw HM Hg Hin.
  destruct (init_constructed W g Hg) as (Hc & _ & _).
  pose proof Hc as (_ & Hdom & Hfresh & _ & Hfeat & Htrace & _ & Hsup).
  assert (suppressEnabled g = true /\ suppressExceptModule g = Some M) as [He Hk].
  { unfold init_suppress_option in Hsup. rewrite Hsw, decide_False in Hsup by done.
    cbn in Hsup. split; congruence. }
  assert (is_Some (modules g !! M)) as [mM HmM] by (by apply Hdom).
  pose proof (beginFile_suppressed W directory M g He Hk (ex_intro _ mM HmM) Hin) as Hbf.
  destruct (suppressAllBut_spec M g Hdom) as [Hfr Hlk].
  revert Hbf Hfr Hlk. generalize (suppressAllBut M g). intros gsup Hbf Hfr Hlk.
  pose proof (beginCalls_calls W directory gsup) as Hbc.
  assert (fixed gsup = fixed g /\ feat gsup = feat g /\ trace gsup = trace g)
    as (Hfix & Hfe & Htr) by (unfold frame in Hfr; repeat split; congruence).
  split.
  - eexists. split; [exact Hbf|]. intros n m Hm.
    pose proof (moves_extends W _ _ _ n (proj2 Hbc)) as Hx.
    rewrite Hm, Hlk in Hx. destruct (modules g !! n) as [m1|]; [|inversion Hx].
    inversion Hx as [? ? Hext|]; subst. by rewrite (suppress_extends _ _ Hext).
  - (* the run with the switch *)
    assert (featureSupported gsup = false) as Hidle.
    { unfold feat in Hfe, Hfeat. congruence. }
    pose proof (traversal_moves W directory fs gsup Hidle) as Hmv.
    assert (main W directory fs =
            Ok (endFile W (runFeatures W fs (beginCalls W directory gsup)))) as Hmain.
    { unfold main. rewrite Hg. cbn [mbind result_bind]. by rewrite run_traversal, Hbf. }
    revert Hmain Hmv.
    generalize (endFile W (runFeatures W fs (beginCalls W directory gsup))).
    intros gs Hmain Hmv.
    (* the run without *)
    destruct (init_unsuppressed W g Hg) as (g0 & Hg0 & Hcore & Hc0).
    pose proof Hc0 as (_ & _ & _ & _ & _ & Htrace0 & _ & Hsup0).
    assert (suppressEnabled g0 = false) as He0.
    { rewrite init_suppress_option_unsuppressed in Hsup0. cbn in Hsup0. congruence. }
    destruct (main_unsuppressed (unsuppressed W) directory fs g0 Hg0 He0)
      as (gu & Hmain0 & Hmv0).
    apply (moves_world W (unsuppressed W)) in Hmv0; [|done].
    exists gs, gu. split; [exact Hmain|]. split; [exact Hmain0|].
    assert (modules g0 = modules g /\ moduleList g0 = moduleList g /\
            wrappers g0 = wrappers g) as (Hms0 & Hl0 & Hw0)
      by (unfold core in Hcore; repeat split; congruence).
    assert (moduleList gsup = moduleList g /\ wrappers gsup = wrappers g) as [Hls Hws]
      by (unfold fixed in Hfix; split; congruence).
    assert (runTrace directory fs gsup = runTrace directory fs g0) as Htrc.
    { apply runTrace_ext; [congruence | congruence |].
      intros n. rewrite Hlk, Hms0. destruct (modules g !! n); constructor. done. }
    destruct Hmv as (_ & Hmods & _). destruct Hmv0 as (_ & Hmods0 & _).
    cbn [modules wrappers trace write set_outFile] in Hmods0.
    split; [|split].
    + intros n m Hm Hne. rewrite Hmods, Hlk in Hm.
      destruct (modules g !! n) as [m1|] eqn:Hm1; [|done].
      rewrite (bool_decide_eq_true_2 (n ≠ M)) in Hm by done.
      cbn in Hm. rewrite replay_suppressed in Hm by done. injection Hm as <-.
      destruct (map_Forall_lookup_1 _ _ _ _ Hfresh Hm1) as (_ & _ & _ & Hhf & Hif).
      unfold written. cbn. by rewrite Hhf, Hif.
    + rewrite Hmods, Hlk, HmM. eauto.
    + rewrite Hmods, Hmods0, Hlk, Hms0, HmM, Htrc, Hws, Hw0, Htr, Htrace, Htrace0.
      rewrite (bool_decide_eq_false_2 (M ≠ M)) by tauto.
      destruct (map_Forall_lookup_1 _ _ _ _ Hfresh HmM) as (HsM & _).
      cbn. by rewrite <- HsM, set_suppress_id.
Qed.

End Claims.

Import Genvk GenvkFacts.

(** ** The statements at work in a small world *)

(** A closed fact about sample data, by evaluation. *)
Ltac evaluated :=
  first [ vm_compute; reflexivity
        | apply (bool_decide_unpack _); vm_compute; exact I ].

Lemma returned_ok {A} (d : A) (r : result A) : ~ raises r -> r = Ok (returned d r).
Proof. by destruct r. Qed.

(** A closed computation that returns, by evaluation. *)
Ltac returns :=
  apply returned_ok;
  let H := fresh in intros H; vm_compute in H; exact H.

Lemma init_sampleGenerator (guest host : bool) (switch : option string) :
  init (sampleWorld guest host switch) = Ok (sampleGenerator guest host switch).
Proof. destruct guest, host, switch; returns. Qed.

Lemma guard_balance_witness :
  let W := sampleWorld true true None in
  let g := sampleGenerator true true None in
  let m := moduleOf g "VkDecoder" in
  (featureSupported g = false /\ NoDup (moduleList g) /\ "VkDecoder" ∈ moduleList g /\
   modules g !! "VkDecoder" = Some m /\ isinstance_Module m = true /\
   suppressFeatureGuards m = false) /\
  moduleCalls "VkDecoder"
    (trace (runFeatures W [sampleFeature "VK_VERSION_1_0"; sampleFeature "VK_FOO";
                           sampleFeature "VK_KHR_surface"] g))
  = guardCalls (sampleFeature "VK_VERSION_1_0") ++ guardCalls (sampleFeature "VK_KHR_surface").
Proof.
  cbv zeta.
  assert (featureSupported (sampleGenerator true true None) = false) as H1 by evaluated.
  assert (NoDup (moduleList (sampleGenerator true true None))) as H2 by evaluated.
  assert ("VkDecoder" ∈ moduleList (sampleGenerator true true None)) as H3 by evaluated.
  assert (modules (sampleGenerator true true None) !! "VkDecoder"
          = Some (moduleOf (sampleGenerator true true None) "VkDecoder")) as H4 by evaluated.
  assert (isinstance_Module (moduleOf (sampleGenerator true true None) "VkDecoder") = true)
    as H5 by evaluated.
  assert (suppressFeatureGuards (moduleOf (sampleGenerator true true None) "VkDecoder") = false)
    as H6 by evaluated.
  split; [exact (conj H1 (conj H2 (conj H3 (conj H4 (conj H5 H6)))))|].
  rewrite (proj1 (guard_balance (sampleWorld true true None) _ _ _ H1 H2 H3 H4 H5 H6)).
  evaluated.
Defined.

(** The claim C1 fails as it is worded: the script that [__init__]
    registers as [ApiLogDecoder] is a registered module that is not
    configured with [suppressFeatureGuards], and a supported feature makes
    no guard call on it; its buffers hold what its wrapper appends and no
    guard line. *)
Lemma pyscript_module_unguarded :
  let W := sampleWorld true true None in
  let g := sampleGenerator true true None in
  let m := moduleOf g "ApiLogDecoder" in
  let g' := runFeature W (sampleFeature "VK_VERSION_1_0") g in
  "ApiLogDecoder" ∈ moduleList g /\
  modules g !! "ApiLogDecoder" = Some m /\
  suppressFeatureGuards m = false /\
  supportedName (get (interface (sampleFeature "VK_VERSION_1_0")) "name") = true /\
  moduleCalls "ApiLogDecoder" (trace g') = [] /\
  header (moduleOf g' "ApiLogDecoder") = "decl;decl;decl;decl;decl;decl;decl;" /\
  impl (moduleOf g' "ApiLogDecoder") = "code;code;code;code;code;code;code;".
Proof.
  cbv zeta. split; [evaluated|]. split; [evaluated|]. split; [evaluated|].
  split; [evaluated|]. split; [evaluated|]. split; evaluated.
Qed.

Lemma exception_policy_witness :
  let W := sampleWorld true true None in
  let g := sampleGenerator true true None in
  featureSupported g = false /\
  genType W (Elem "type" ∅ None None []) "int64_t" None g
    = callTypeInfo (onGenType (Elem "type" ∅ None None []) "int64_t" None) g /\
  genType W (Elem "type" ∅ None None []) "uint64_t" None g = g.
Proof.
  cbv zeta.
  assert (featureSupported (sampleGenerator true true None) = false) as H1 by evaluated.
  split; [exact H1|].
  destruct (exception_policy (sampleWorld true true None) _ H1) as [H _].
  split.
  - apply (H _ "int64_t"). evaluated.
  - apply (H _ "uint64_t"). evaluated.
Defined.

Lemma restriction_respected_witness :
  let W := sampleWorld true true None in
  let g := sampleGenerator true true None in
  let f := sampleFeature "VK_KHR_surface" in
  (get (interface f) "name" = Some "VK_KHR_surface" /\
   "VK_KHR_surface" ∈ SUPPORTED_FEATURES /\
   wrappers g !! 13 = Some (mkWrapper VulkanDispatch "goldfish_vk_dispatch" []) /\
   wrappers g !! 15 = Some (mkWrapper VulkanDecoder "VkDecoder" [])) /\
  wrapperCalls 13 (trace (runFeature W f g)) = featureCallbacks f /\
  wrapperCalls 15 (trace (runFeature W f g)) = [].
Proof.
  cbv zeta.
  assert (get (interface (sampleFeature "VK_KHR_surface")) "name" = Some "VK_KHR_surface")
    as H1 by evaluated.
  assert ("VK_KHR_surface" ∈ SUPPORTED_FEATURES) as H2 by evaluated.
  assert (wrappers (sampleGenerator true true None) !! 13
          = Some (mkWrapper VulkanDispatch "goldfish_vk_dispatch" [])) as H3 by evaluated.
  assert (wrappers (sampleGenerator true true None) !! 15
          = Some (mkWrapper VulkanDecoder "VkDecoder" [])) as H4 by evaluated.
  split; [exact (conj H1 (conj H2 (conj H3 H4)))|]. split.
  - rewrite (restriction_respected (sampleWorld true true None) _ _ _ _ _ H1 H2 H3).
    evaluated.
  - rewrite (restriction_respected (sampleWorld true true None) _ _ _ _ _ H1 H2 H4).
    evaluated.
Defined.

Lemma forwarding_order_witness :
  let W := sampleWorld true true None in
  let f := sampleFeature "VK_KHR_android_surface" in
  let g := beginFeature W (interface f) true (sampleGenerator true true None) in
  let d := CmdDef (Elem "command" ∅ None None []) "vkFoo" None in
  featureSupported g = true /\
  wrapperCalls 7 (trace (gen W d g)) = wrapperCalls 7 (trace g) ++ [callbackOf d] /\
  wrapperCalls 13 (trace (gen W d g)) = wrapperCalls 13 (trace g).
Proof.
  cbv zeta.
  assert (featureSupported
            (beginFeature (sampleWorld true true None)
               (interface (sampleFeature "VK_KHR_android_surface")) true
               (sampleGenerator true true None)) = true) as H1 by evaluated.
  split; [exact H1|].
  rewrite (proj1 (forwarding_order (sampleWorld true true None) _
                    (CmdDef (Elem "command" ∅ None None []) "vkFoo" None) H1)).
  split; evaluated.
Defined.

Lemma guest_directory_missing_witness :
  let W := sampleWorld false true None in
  guestDirExists W = false /\
  exists g,
    init W = Ok g /\
    moduleList g = commonModuleNames ++
                   ["VkDecoder"; "VkDecoderSnapshot"; "VkSubDecoder"; "ApiLogDecoder";
                    "vulkan_gfxstream_structure_type_host";
                    "vk_android_native_buffer_structure_type"] /\
    modules g !! "VkEncoder" = None.
Proof.
  cbv zeta.
  assert (guestDirExists (sampleWorld false true None) = false) as H1 by evaluated.
  split; [exact H1|].
  destruct (guest_directory_missing (sampleWorld false true None) H1) as (_ & _ & H).
  destruct (H "scripts") as (g & Hg & Hl & Hm & _); [evaluated|].
  exists g. split; [exact Hg|]. split.
  - rewrite Hl. evaluated.
  - apply Hm. evaluated.
Defined.

Lemma unknown_module_reported_witness :
  let g := sampleGenerator false true None in
  modules g !! "VkEncoder" = None /\
  stdout (addWrapper VulkanEncoder "VkEncoder" [] g) =
  stdout g ++
  ["Unknown module: VkEncoder. All known modules are: goldfish_vk_extension_structs, " +:+
   "goldfish_vk_marshaling, goldfish_vk_reserved_marshaling, goldfish_vk_deepcopy, " +:+
   "goldfish_vk_handlemap, goldfish_vk_dispatch, goldfish_vk_transform, VkDecoder, " +:+
   "VkDecoderSnapshot, VkSubDecoder, ApiLogDecoder, vulkan_gfxstream_structure_type_host, " +:+
   "vk_android_native_buffer_structure_type."].
Proof.
  cbv zeta.
  assert (modules (sampleGenerator false true None) !! "VkEncoder" = None) as H1 by evaluated.
  split; [exact H1|].
  rewrite (proj1 (unknown_module_reported (sampleWorld false true None)
                    VulkanEncoder "VkEncoder" [] _ H1)).
  evaluated.
Defined.

(** The claim C4 fails in a world without the guest destination: the first
    [addWrapper] of [__init__] names a module that is not registered, a
    line is printed, and the run goes through the traversal to its end,
    with no wrapper of that class. *)
Lemma unknown_module_not_fatal :
  exists g,
    main (sampleWorld false true None) "out" [sampleFeature "VK_VERSION_1_0"] = Ok g /\
    modules g !! "VkEncoder" = None /\
    Exists (fun line => String.prefix "Unknown module: VkEncoder." line = true) (stdout g) /\
    Forall (fun w => wtype w ≠ VulkanEncoder) (wrappers g) /\
    length (trace g) = 190.
Proof.
  exists (sampleRun false true None [sampleFeature "VK_VERSION_1_0"]).
  split; [returns|]. split; [evaluated|]. split; [evaluated|]. split; evaluated.
Qed.

Lemma guard_imbalance_unchecked_witness :
  let W := sampleWorld true true None in
  let g := sampleGenerator true true None in
  let g1 := beginFeature W (interface (sampleFeature "VK_VERSION_1_0")) true g in
  (featureSupported g = false /\ endFeature W g = OutputGenerator_endFeature g) /\
  (featureSupported g1 = true /\
   featureSupported (beginFeature W (interface (sampleFeature "VK_FOO")) true g1) = true).
Proof.
  cbv zeta.
  assert (featureSupported (sampleGenerator true true None) = false) as H1 by evaluated.
  assert (featureSupported
            (beginFeature (sampleWorld true true None)
                          (interface (sampleFeature "VK_VERSION_1_0")) true
                          (sampleGenerator true true None)) = true) as H2 by evaluated.
  split.
  - split; [exact H1|].
    exact (proj1 (guard_imbalance_unchecked (sampleWorld true true None)
                    (sampleGenerator true true None)) H1).
  - split; [exact H2|].
    exact (proj2 (proj2 (guard_imbalance_unchecked (sampleWorld true true None) _) H2
                        (interface (sampleFeature "VK_FOO")) true)).
Defined.

(** The claim C5 fails: an end-feature with no feature open returns with
    nothing called, and a feature that is begun while another is open and
    never closed leaves, at end-file, two guard-open lines and one
    guard-close line in the buffers that the module writes. *)
Lemma imbalance_not_detected :
  let W := sampleWorld true true None in
  let g := sampleGenerator true true None in
  let a := interface (sampleFeature "VK_VERSION_1_0") in
  let b := interface (sampleFeature "VK_FOO") in
  (exists g', run W g [endFeatureE] = Ok g' /\ trace g' = []) /\
  exists g',
    run W g [beginFeatureE a true; beginFeatureE b true; endFeatureE; endFileE] = Ok g' /\
    moduleCalls "VkDecoder" (trace g') =
      [m_appendHeader (guardOpen (Some "VK_VERSION_1_0"));
       m_appendImpl (guardOpen (Some "VK_VERSION_1_0"));
       m_appendHeader (guardOpen (Some "VK_FOO"));
       m_appendImpl (guardOpen (Some "VK_FOO"));
       m_appendHeader guardClose; m_appendImpl guardClose; m_end] /\
    length (written (moduleOf g' "VkDecoder")) = 2.
Proof.
  cbv zeta. split.
  - eexists (returned (sampleGenerator true true None) _). split; [returns | evaluated].
  - eexists (returned (sampleGenerator true true None) _).
    split; [returns|]. split; evaluated.
Qed.

Lemma source_entries_collected_witness :
  let W := sampleWorld true true (Some "VkDecoder") in
  let g := sampleGenerator true true (Some "VkDecoder") in
  init W = Ok g /\
  hostCMakeCppFiles g =
    "goldfish_vk_extension_structs.cpp goldfish_vk_marshaling.cpp " +:+
    "goldfish_vk_reserved_marshaling.cpp goldfish_vk_deepcopy.cpp " +:+
    "goldfish_vk_handlemap.cpp goldfish_vk_dispatch.cpp goldfish_vk_transform.cpp ".
Proof.
  cbv zeta.
  pose proof (init_sampleGenerator true true (Some "VkDecoder")) as H1.
  split; [exact H1|].
  destruct (source_entries_collected (sampleWorld true true (Some "VkDecoder")) _ H1)
    as (_ & _ & H & _).
  rewrite H. evaluated.
Defined.

(** The claim C8 fails: with the suppression switch on [VkDecoder], the
    module of the dispatch table is suppressed at begin-file and its entry
    stays in the host list; and there are three lists, none of them
    empty. *)
Lemma suppressed_module_listed :
  let W := sampleWorld true true (Some "VkDecoder") in
  exists g gb,
    init W = Ok g /\ beginFile W "out" g = Ok gb /\
    suppress (moduleOf gb "goldfish_vk_dispatch") = true /\
    getCMakeSrcEntry W (moduleOf gb "goldfish_vk_dispatch") = "goldfish_vk_dispatch.cpp " /\
    hostCMakeCppFiles gb =
      "goldfish_vk_extension_structs.cpp goldfish_vk_marshaling.cpp " +:+
      "goldfish_vk_reserved_marshaling.cpp goldfish_vk_deepcopy.cpp " +:+
      "goldfish_vk_handlemap.cpp goldfish_vk_dispatch.cpp goldfish_vk_transform.cpp " /\
    guestAndroidMkCppFiles gb ≠ "" /\ hostDecoderCMakeCppFiles gb ≠ "".
Proof.
  cbv zeta.
  exists (sampleGenerator true true (Some "VkDecoder")),
         (sampleBegun true true (Some "VkDecoder")).
  split; [apply init_sampleGenerator|]. split; [returns|].
  split; [evaluated|]. split; [evaluated|]. split; [evaluated|].
  split; evaluated.
Qed.

Lemma suppression_isolation_witness :
  let W := sampleWorld true true (Some "VkDecoder") in
  let g := sampleGenerator true true (Some "VkDecoder") in
  let fs := [sampleFeature "VK_VERSION_1_0"; sampleFeature "VK_FOO"] in
  (environ W !! "ANDROID_EMU_VK_CEREAL_SUPPRESS" = Some "VkDecoder" /\
   "VkDecoder" ≠ "" /\ init W = Ok g /\ "VkDecoder" ∈ moduleList g) /\
  exists gs gu,
    main W "out" fs = Ok gs /\ main (unsuppressed W) "out" fs = Ok gu /\
    modules gs !! "VkDecoder" = modules gu !! "VkDecoder".
Proof.
  cbv zeta.
  assert (environ (sampleWorld true true (Some "VkDecoder"))
            !! "ANDROID_EMU_VK_CEREAL_SUPPRESS" = Some "VkDecoder") as H1 by evaluated.
  assert ("VkDecoder" ≠ "") as H2 by discriminate.
  pose proof (init_sampleGenerator true true (Some "VkDecoder")) as H3.
  assert ("VkDecoder" ∈ moduleList (sampleGenerator true true (Some "VkDecoder")))
    as H4 by evaluated.
  split; [exact (conj H1 (conj H2 (conj H3 H4)))|].
  destruct (suppression_isolation (sampleWorld true true (Some "VkDecoder")) "VkDecoder" "out"
              [sampleFeature "VK_VERSION_1_0"; sampleFeature "VK_FOO"] _ H1 H2 H3 H4)
    as (_ & gs & gu & Hs & Hu & _ & _ & Heq).
  exists gs, gu. exact (conj Hs (conj Hu Heq)).
Defined.

Lemma merge_gfxstream_registry_witness :
  (Forall (fun s => is_Some (find sampleRegistry s) /\ is_Some (find sampleGfxstream s))
          sections /\
   requireBlocks (entries "extensions" sampleRegistry)
                 (entries "extensions" sampleGfxstream)) /\
  exists merged,
    mergeRegistry sampleRegistry (Some sampleGfxstream) = Ok merged /\
    entries "types" merged =
      [Elem "type" {["name" := "VkNativeBufferANDROID"; "category" := "struct"]}
            None None [Elem "member" ∅ (Some "int") None []];
       Elem "type" {["name" := "VkFoo"]} None None [];
       Elem "type" {["name" := "VkBar"]} None None []] /\
    entries "commands" merged =
      [Elem "command" ∅ None None
            [Elem "proto" ∅ None None [Elem "name" ∅ (Some "vkFoo") None []]];
       Elem "command" ∅ None None
            [Elem "proto" ∅ None None [Elem "name" ∅ (Some "vkFoo") None []]]] /\
    entries "extensions" merged =
      [Elem "extension"
            {["name" := "VK_MVK_moltenvk"; "number" := "1"; "supported" := "vulkan"]}
            None None
            [Elem "require" ∅ None None
                  [Elem "enum" {["name" := "A"]} None None [];
                   Elem "command" {["name" := "vkBar"]} None None []]];
       Elem "extension" {["name" := "VK_GOOGLE_gfxstream"]} None None []].
Proof.
  assert (Forall (fun s => is_Some (find sampleRegistry s) /\
                           is_Some (find sampleGfxstream s)) sections) as H1 by evaluated.
  assert (requireBlocks (entries "extensions" sampleRegistry)
                        (entries "extensions" sampleGfxstream)) as H2 by evaluated.
  split; [exact (conj H1 H2)|].
  destruct (merge_gfxstream_registry sampleRegistry sampleGfxstream H1 H2)
    as (merged & Hm & Hs & _).
  exists merged. split; [exact Hm|].
  unfold entries.
  rewrite (Hs "types"), (Hs "commands"), (Hs "extensions") by evaluated.
  split; [evaluated | split; evaluated].
Defined.

(** ** More on the construction and on a whole run *)

Section More.
Context (W : World).












End More.

(** ** The same at work in a small world *)









End CerealFacts.

(** * Properties of regen.py *)

Module RegenFacts.
Import Regen CerealFacts.

Section Formatting.
Context (repr : Json -> string).















End Formatting.

(** ** The statements on the small interface definition *)








End RegenFacts.
